(** * Final-Year-Project: the fusion network and the fold results

    A shallow embedding of [src/results.py] ([Result], [IterationResults])
    and of [src/network.py] ([ModalityFusion], [SubNet],
    [WeightedMultiModalFusionNetwork]), with the properties of the
    specification stated over it.

    Python objects that are mutated in place are modelled by a state
    monad whose state survives a raised exception; dictionaries are
    [gmap]s; Python floats and [numpy.float64] are the kernel's binary64
    floats.  The layers of torch.nn and [numpy.mean] are not part of the
    sources: they are modelled after the libraries' behaviour, the
    layers for any element type, with float64 and float32 as instances.
    The [config] module is not part of the sources either: its
    constants are parameters. *)

From Stdlib Require Import ZArith Floats Lia.
From stdpp Require Import base option list strings gmap.

Set Warnings "-inexact-float".

(** ** Exceptions and the state monad *)

(** The exceptions the modelled code can raise.  [KeyError] carries the
    missing key, as Python's does. *)
Inductive exn :=
| KeyError (key : string)
| IndexError
| ValueError
| RuntimeError.

(** [KeyError] and [IndexError] are the subclasses of Python's
    [LookupError]. *)
Definition is_lookup_error (e : exn) : bool :=
  match e with KeyError _ | IndexError => true | _ => false end.

(** A computation over a mutable object of type [S]: it returns the
    object as the call left it, and either the raised exception or the
    result.  An exception does not roll the object back. *)
Definition M (S A : Type) : Type := S → S * (exn + A).

#[global] Instance M_ret {S} : MRet (M S) := λ A a s, (s, inr a).
#[global] Instance M_bind {S} : MBind (M S) := λ A B f m s,
  match m s with
  | (s', inr a) => f a s'
  | (s', inl e) => (s', inl e)
  end.

#[global] Instance M_fmap {S} : FMap (M S) := λ A B f m s,
  match m s with
  | (s', inr a) => (s', inr (f a))
  | (s', inl e) => (s', inl e)
  end.

Definition raise {S A} (e : exn) : M S A := λ s, (s, inl e).
Definition get {S} : M S S := λ s, (s, inr s).
Definition modify {S} (f : S → S) : M S unit := λ s, (f s, inr tt).

(** Runs [m] on the part of the state selected by [proj], writing the
    part back with [upd] (also when [m] raises). *)
Definition zoom {S T A} (proj : S → T) (upd : T → S → S) (m : M T A) : M S A :=
  λ s, let '(t', r) := m (proj s) in (upd t' s, r).

(** [d[key]] on a dictionary with string keys. *)
Definition getitem {S V} (d : gmap string V) (key : string) : M S V :=
  match d !! key with
  | Some v => mret v
  | None => raise (KeyError key)
  end.

(** * results.py *)

(** The Python numbers a classification report holds at its leaves. *)
Inductive value :=
| VInt (z : Z)
| VFloat (f : float).

(** [Dict[str, dict]], the annotation of [classification_report]. *)
Abbreviation report := (gmap string (gmap string value)).

Module Result.

Record t := mk {
  best_acc : value;
  best_epoch : value;
  precision : value;
  recall : value;
  f1_score : value
}.

Definition set_best_acc (v : value) : M t unit :=
  modify (λ self, mk v (best_epoch self) (precision self) (recall self) (f1_score self)).
Definition set_best_epoch (v : value) : M t unit :=
  modify (λ self, mk (best_acc self) v (precision self) (recall self) (f1_score self)).
Definition set_precision (v : value) : M t unit :=
  modify (λ self, mk (best_acc self) (best_epoch self) v (recall self) (f1_score self)).
Definition set_recall (v : value) : M t unit :=
  modify (λ self, mk (best_acc self) (best_epoch self) (precision self) v (f1_score self)).
Definition set_f1_score (v : value) : M t unit :=
  modify (λ self, mk (best_acc self) (best_epoch self) (precision self) (recall self) v).

(** [Result.set_values_from_classification_report]: five assignments,
    each after two subscriptions. *)
Definition set_values_from_classification_report
    (classification_report : report) : M t unit :=
  wa ← getitem classification_report "weighted avg";
  v ← getitem wa "f1-score";
  _ ← set_f1_score v;
  wa ← getitem classification_report "weighted avg";
  v ← getitem wa "precision";
  _ ← set_precision v;
  wa ← getitem classification_report "weighted avg";
  v ← getitem wa "recall";
  _ ← set_recall v;
  br ← getitem classification_report "best_result";
  v ← getitem br "best_acc";
  _ ← set_best_acc v;
  br ← getitem classification_report "best_result";
  v ← getitem br "best_epoch";
  set_best_epoch v.

(** The five attributes as [__init__] first sets them: the integer 0. *)
Definition zeroed : t := mk (VInt 0) (VInt 0) (VInt 0) (VInt 0) (VInt 0).

(** [Result.__init__]: the object is built zeroed, then filled from
    the report when one is given; an exception raised while filling
    leaves the constructor, and no object is returned. *)
Definition __init__ (classification_report : option report) : exn + t :=
  let self := zeroed in
  match classification_report with
  | None => inr self
  | Some cr =>
      match set_values_from_classification_report cr self with
      | (self', inr _) => inr self'
      | (_, inl e) => inl e
      end
  end.

End Result.

(** ** numpy.mean on a list of Python values *)

(** The float64 an integer converts to (round to nearest, ties to even). *)
Definition float_of_Z (z : Z) : float :=
  SF2Prim (binary_normalize prec emax z 0 false).

(** The float64 a Python number becomes when [numpy.mean] sums it in a
    numeric array: a float is kept, an int is rounded to the nearest
    float64.  (numpy builds a numeric array from floats and from ints
    that fit a signed 64-bit integer, see [array_number]; a list holding
    a larger int can become an array of Python objects, summed with
    Python's own arithmetic, which is not modelled.) *)
Definition to_float64 (v : value) : float :=
  match v with
  | VInt z => float_of_Z z
  | VFloat f => f
  end.

(** The list becomes an array of integers, which is converted to
    float64 while it is summed, when every element is an int; with a
    float among them it becomes a float64 array at once. *)
Definition is_int (v : value) : bool :=
  match v with VInt _ => true | VFloat _ => false end.

Definition int_array (l : list value) : bool := forallb is_int l.

(** numpy's pairwise summation of a contiguous float64 array
    ([DOUBLE_pairwise_sum]): fewer than 8 elements are added left to
    right; up to 128 elements go through eight running sums, which are
    combined as a balanced tree before the remaining elements are added;
    a longer array is split in two halves, the first a multiple of 8. *)
Definition sum_lt8 (a : list float) : float :=
  foldl PrimFloat.add 0%float a.

Fixpoint unroll8 (groups : nat) (r a : list float) : list float * list float :=
  match groups with
  | O => (r, a)
  | S g => unroll8 g (zip_with PrimFloat.add r (take 8 a)) (drop 8 a)
  end.

Definition sum_block (a : list float) : float :=
  let '(r, rest) := unroll8 (length a / 8 - 1) (take 8 a) (drop 8 a) in
  match r with
  | [r0; r1; r2; r3; r4; r5; r6; r7] =>
      foldl PrimFloat.add
        (((r0 + r1) + (r2 + r3)) + ((r4 + r5) + (r6 + r7)))%float rest
  | _ => sum_lt8 a
  end.

Fixpoint pairwise_sum_rec (fuel : nat) (a : list float) : float :=
  let n := length a in
  if decide (n < 8) then sum_lt8 a
  else if decide (n ≤ 128) then sum_block a
  else match fuel with
       | O => sum_block a
       | S fuel' =>
           let n2 := n / 2 in
           let n2 := n2 - n2 mod 8 in
           (pairwise_sum_rec fuel' (take n2 a) +
            pairwise_sum_rec fuel' (drop n2 a))%float
       end.

Definition pairwise_sum (a : list float) : float :=
  pairwise_sum_rec (length a) a.

(** [numpy.add.reduce] on a float64 array: the result starts from the
    identity 0.0, and the whole array is added to it in one pairwise
    sum. *)
Definition add_reduce (a : list float) : float :=
  (0 + pairwise_sum a)%float.

(** The number of elements of numpy's buffer ([numpy.getbufsize()]). *)
Definition buffersize : nat := 8 * 1024.

(** The blocks of [n] elements an array is read in through a buffer; the
    last one may be shorter. *)
Fixpoint blocks (fuel n : nat) (a : list float) : list (list float) :=
  match fuel, a with
  | S fuel', _ :: _ => take n a :: blocks fuel' n (drop n a)
  | _, _ => []
  end.

(** [numpy.add.reduce] with [dtype=float64] on an array of integers: the
    array is converted through the buffer, block by block, and the
    pairwise sum of every block is added to the result, which starts
    from 0.0.  (Up to [buffersize] elements this is [add_reduce].) *)
Definition add_reduce_buffered (a : list float) : float :=
  foldl (λ res block, (res + pairwise_sum block)%float) 0%float
        (blocks (length a) buffersize a).

(** [numpy.mean] of a one-dimensional float64 array: the sum divided by
    the number of elements, also when there are none. *)
Definition mean_float64 (a : list float) : float :=
  (add_reduce a / float_of_Z (Z.of_nat (length a)))%float.

(** [numpy.mean] of an array of integers: the sum is taken in float64,
    then divided as above. *)
Definition mean_int64 (a : list float) : float :=
  (add_reduce_buffered a / float_of_Z (Z.of_nat (length a)))%float.

(** [numpy.mean] of a list of Python numbers that numpy stores in a
    numeric array ([array_number]). *)
Definition np_mean (l : list value) : float :=
  if int_array l then mean_int64 (to_float64 <$> l)
  else mean_float64 (to_float64 <$> l).

Module IterationResults.

Record t := mk { fold_results : list Result.t }.

Definition __init__ : t := mk [].

(** [add_result]: [self.fold_results.append(result)]. *)
Definition add_result (result : Result.t) (self : t) : t :=
  mk (fold_results self ++ [result]).

(** What [print] writes, one constructor per call site of
    [print_result]; the formatted numbers are kept as values. *)
Inductive line :=
| Fold (number : nat)
| Weighted (precision recall f1_score : value)
| Best (best_epoch best_acc : value)
| Text (s : string)
| AvgWeighted (avg_precision avg_recall avg_f1_score : float).

Definition print (l : line) : M (list line) unit :=
  modify (λ stdout, stdout ++ [l]).

(** The body of the [for] loop over [enumerate(self.fold_results)]. *)
Fixpoint print_folds (i : nat) (results : list Result.t) : M (list line) unit :=
  match results with
  | [] => mret tt
  | result :: results' =>
      _ ← print (Fold (i + 1));
      _ ← print (Weighted (Result.precision result) (Result.recall result)
                          (Result.f1_score result));
      _ ← print (Best (Result.best_epoch result) (Result.best_acc result));
      print_folds (S i) results'
  end.

(** [IterationResults.print_result]; the state is the standard output. *)
Definition print_result (self : t) : M (list line) (gmap string float) :=
  _ ← print_folds 0 (fold_results self);
  let avg_precision := np_mean (Result.precision <$> fold_results self) in
  let avg_recall := np_mean (Result.recall <$> fold_results self) in
  let avg_f1_score := np_mean (Result.f1_score <$> fold_results self) in
  _ ← print (Text "####################");
  _ ← print (Text "Avg :");
  _ ← print (AvgWeighted avg_precision avg_recall avg_f1_score);
  mret ({[ "precision" := avg_precision;
           "recall" := avg_recall;
           "f1_score" := avg_f1_score ]} : gmap string float).

End IterationResults.


(** * network.py *)

(** ** Tensors *)

(** The element type of a tensor with the arithmetic the layers use.
    torch computes in float32 unless told otherwise, in float64 after
    [.double()]; the layers below are written once for any element type. *)
Class Scalar (R : Type) := {
  s_zero : R;
  s_one : R;
  s_add : R → R → R;
  s_sub : R → R → R;
  s_mul : R → R → R;
  s_div : R → R → R;
  s_sqrt : R → R;
  s_relu : R → R;
  s_of_Z : Z → R
}.

(** The random generator dropout draws from: [sample p g] is one
    Bernoulli draw, [true] (the element is kept) with probability
    [1 - p], and the generator after the draw. *)
Class Sampler (R G : Type) := sample : R → G → bool * G.

Module Tensor.

(** A two-dimensional tensor of shape [(batch, width)], stored by rows.
    The width is kept apart from the rows, so that a tensor of shape
    [(0, n)] has a width too. *)
Record t (R : Type) := mk { width : nat; data : list (list R) }.
Arguments mk {R} _ _.
Arguments width {R} _.
Arguments data {R} _.

Section ops.
Context {R : Type} `{Scalar R}.

Definition batch (x : t R) : nat := length (data x).
Definition shape (x : t R) : nat * nat := (batch x, width x).

(** Every row has the tensor's width. *)
Definition ok (x : t R) : Prop := Forall (λ row, length row = width x) (data x).

(** Every element satisfies [P]. *)
Definition entries (P : R → Prop) (x : t R) : Prop := Forall (Forall P) (data x).

(** An operation applied to every element. *)
Definition pointwise (f : R → R) (x : t R) : t R :=
  mk (width x) ((λ row : list R, f <$> row) <$> data x).

(** [x * w] for a one-element tensor [w], broadcast over both
    dimensions of [x]. *)
Definition mul (x : t R) (w : R) : t R := pointwise (λ v, s_mul v w) x.

(** [F.relu]. *)
Definition relu (x : t R) : t R := pointwise s_relu x.

(** [torch.cat(tensors, -1)]: the tensors must agree on the batch
    dimension; the rows are joined in the order of the list. *)
Definition cat {S} (tensors : list (t R)) : M S (t R) :=
  match tensors with
  | [] => raise RuntimeError
  | x :: rest =>
      if forallb (λ y, batch y =? batch x) rest
      then mret (mk (sum_list (width <$> tensors))
                    (foldl (zip_with app) (data x) (data <$> rest)))
      else raise RuntimeError
  end.

(** [torch.ones(batch, width)]. *)
Definition ones (batch width : nat) : t R :=
  mk width (replicate batch (replicate width s_one)).

End ops.
End Tensor.

(** ** The layers of torch.nn the network is built from *)

Module Linear.

(** [nn.Linear(in_features, out_features)]: [weight] has one row of
    [in_features] coefficients per output, [bias] one entry per output. *)
Record t (R : Type) := mk {
  in_features : nat;
  out_features : nat;
  weight : list (list R);
  bias : list R
}.
Arguments mk {R} _ _ _ _.
Arguments in_features {R} _.
Arguments out_features {R} _.
Arguments weight {R} _.
Arguments bias {R} _.

Section ops.
Context {R : Type} `{Scalar R}.

(** The shapes the constructor gives the parameters; training changes
    the entries, never the shapes. *)
Definition wf (self : t R) : Prop :=
  length (weight self) = out_features self ∧
  Forall (λ w, length w = in_features self) (weight self) ∧
  length (bias self) = out_features self.

(** [self] is an [nn.Linear(n_in, n_out)]. *)
Definition sized (n_in n_out : nat) (self : t R) : Prop :=
  wf self ∧ in_features self = n_in ∧ out_features self = n_out.

(** [nn.Linear.__init__]; [w] and [b] stand for the values the
    constructor draws for the coefficients and the bias. *)
Definition __init__ (n_in n_out : nat) (w b : R) : t R :=
  mk n_in n_out (replicate n_out (replicate n_in w)) (replicate n_out b).

Definition dot (x w : list R) : R :=
  foldl s_add s_zero (zip_with s_mul x w).

(** [F.linear(input, weight, bias)], that is [input @ weight.T + bias];
    a last dimension other than [in_features] is refused. *)
Definition forward {S} (self : t R) (input : Tensor.t R) : M S (Tensor.t R) :=
  if decide (Tensor.width input = in_features self)
  then mret (Tensor.mk (out_features self)
               ((λ row, zip_with s_add (dot row <$> weight self) (bias self))
                  <$> Tensor.data input))
  else raise RuntimeError.

End ops.
End Linear.

Module Dropout.

(** [nn.Dropout(p)]; [training] is the flag [nn.Module] keeps, set by
    [train()] and cleared by [eval()]. *)
Record t (R : Type) := mk { p : R; training : bool }.
Arguments mk {R} _ _.
Arguments p {R} _.
Arguments training {R} _.

Section ops.
Context {R G : Type} `{Scalar R} `{Sampler R G}.

(** A module is built in training mode. *)
Definition __init__ (rate : R) : t R := mk rate true.

Definition train (mode : bool) (self : t R) : t R := mk (p self) mode.

Definition draw (rate : R) : M G bool :=
  λ g, let '(k, g') := sample rate g in (g', inr k).

(** One element: multiplied by [1 / (1 - p)] when it is kept, by zero
    when it is dropped. *)
Definition drop_one (rate v : R) : M G R :=
  k ← draw rate;
  mret (s_mul v (if k : bool then s_div s_one (s_sub s_one rate) else s_zero)).

Fixpoint drop_row (rate : R) (row : list R) : M G (list R) :=
  match row with
  | [] => mret []
  | v :: row' =>
      v' ← drop_one rate v;
      rest ← drop_row rate row';
      mret (v' :: rest)
  end.

Fixpoint drop_rows (rate : R) (rows : list (list R)) : M G (list (list R)) :=
  match rows with
  | [] => mret []
  | row :: rows' =>
      row' ← drop_row rate row;
      rest ← drop_rows rate rows';
      mret (row' :: rest)
  end.

(** [F.dropout(input, p, training)]: the identity unless training. *)
Definition forward (self : t R) (input : Tensor.t R) : M G (Tensor.t R) :=
  if training self
  then rows ← drop_rows (p self) (Tensor.data input);
       mret (Tensor.mk (Tensor.width input) rows)
  else mret input.

End ops.
End Dropout.

Module BatchNorm1d.

(** [nn.BatchNorm1d(num_features)] with its defaults (affine, running
    statistics tracked, a fixed momentum). *)
Record t (R : Type) := mk {
  num_features : nat;
  eps : R;
  momentum : R;
  weight : list R;
  bias : list R;
  running_mean : list R;
  running_var : list R;
  num_batches_tracked : nat;
  training : bool
}.
Arguments mk {R} _ _ _ _ _ _ _ _ _.
Arguments num_features {R} _.
Arguments eps {R} _.
Arguments momentum {R} _.
Arguments weight {R} _.
Arguments bias {R} _.
Arguments running_mean {R} _.
Arguments running_var {R} _.
Arguments num_batches_tracked {R} _.
Arguments training {R} _.

Section ops.
Context {R : Type} `{Scalar R}.

Definition wf (self : t R) : Prop :=
  length (weight self) = num_features self ∧
  length (bias self) = num_features self ∧
  length (running_mean self) = num_features self ∧
  length (running_var self) = num_features self.

(** [nn.BatchNorm1d.__init__]: [eps] is 1e-5 and [momentum] 0.1; the
    scale starts at one, the shift at zero, the running mean at zero
    and the running variance at one. *)
Definition __init__ (n : nat) : t R :=
  mk n (s_div s_one (s_of_Z 100000)) (s_div s_one (s_of_Z 10))
     (replicate n s_one) (replicate n s_zero)
     (replicate n s_zero) (replicate n s_one) 0 true.

Definition train (mode : bool) (self : t R) : t R :=
  mk (num_features self) (eps self) (momentum self) (weight self) (bias self)
     (running_mean self) (running_var self) (num_batches_tracked self) mode.

Definition count_batch (self : t R) : t R :=
  mk (num_features self) (eps self) (momentum self) (weight self) (bias self)
     (running_mean self) (running_var self) (S (num_batches_tracked self))
     (training self).

Definition set_running (mean var : list R) (self : t R) : t R :=
  mk (num_features self) (eps self) (momentum self) (weight self) (bias self)
     mean var (num_batches_tracked self) (training self).

(** The sum of every column. *)
Definition column_sums (x : Tensor.t R) : list R :=
  foldl (zip_with s_add) (replicate (Tensor.width x) s_zero) (Tensor.data x).

Definition batch_mean (x : Tensor.t R) : list R :=
  (λ s, s_div s (s_of_Z (Z.of_nat (Tensor.batch x)))) <$> column_sums x.

(** The sum of the squared distances to the mean, for every column. *)
Definition batch_var_sum (x : Tensor.t R) (mean : list R) : list R :=
  let sq v m := let d := s_sub v m in s_mul d d in
  column_sums (Tensor.mk (Tensor.width x)
                 ((λ row, zip_with sq row mean) <$> Tensor.data x)).

(** The biased variance of every column: the sum above over the number
    of rows. *)
Definition batch_var (x : Tensor.t R) (mean : list R) : list R :=
  (λ s, s_div s (s_of_Z (Z.of_nat (Tensor.batch x)))) <$> batch_var_sum x mean.

(** The unbiased variance of every column, which the running variance
    is moved towards: the same sum over one less than the number of
    rows. *)
Definition batch_var_unbiased (x : Tensor.t R) (mean : list R) : list R :=
  (λ s, s_div s (s_of_Z (Z.of_nat (Tensor.batch x) - 1))) <$> batch_var_sum x mean.

(** [(x - mean) / sqrt(var + eps) * weight + bias] column by column, in
    the order torch evaluates it: with [invstd = 1 / sqrt(var + eps)],
    the linear term [alpha = invstd * weight] and the constant term
    [beta = bias - mean * alpha] are computed once for the column, and
    every element becomes [x * alpha + beta].  ([eps] is never zero in a
    module the sources build.) *)
Definition normalize (self : t R) (mean var : list R) (x : Tensor.t R) : Tensor.t R :=
  let f v '(m, s2, g, b) :=
    let invstd := s_div s_one (s_sqrt (s_add s2 (eps self))) in
    let alpha := s_mul invstd g in
    let beta := s_sub b (s_mul m alpha) in
    s_add (s_mul v alpha) beta in
  Tensor.mk (Tensor.width x)
    ((λ row, zip_with f row (zip (zip (zip mean var) (weight self)) (bias self)))
       <$> Tensor.data x).

(** The exponential moving average a training step leaves in a running
    statistic. *)
Definition moving (self : t R) (old new : list R) : list R :=
  zip_with (λ o n, s_add (s_mul (s_sub s_one (momentum self)) o)
                         (s_mul (momentum self) n)) old new.

(** What torch returns for an input without elements: the input times
    the first scale plus the first shift, that is the input itself, and
    [IndexError] when the module has no feature and so no first scale
    or shift. *)
Definition forward_empty {S} (self : t R) (input : Tensor.t R) : M S (Tensor.t R) :=
  match weight self, bias self with
  | _ :: _, _ :: _ => mret input
  | _, _ => raise IndexError
  end.

(** [BatchNorm1d.forward] on a two-dimensional input.  When training,
    the batch counter is advanced first, and [F.batch_norm] refuses an
    input with a single value per channel.  An input without elements
    is answered by [forward_empty], before the number of columns is
    looked at.  Otherwise the number of columns must be [num_features];
    when training the input is normalized with the statistics of the
    batch (summed in row order) and the running statistics are moved
    towards them (the variance unbiased), else the running statistics
    are used and nothing is written. *)
Definition forward (input : Tensor.t R) : M (t R) (Tensor.t R) :=
  self ← get;
  _ ← (if training self then modify count_batch else mret tt);
  if decide (training self = true ∧ Tensor.batch input = 1) then raise ValueError
  else if decide (Tensor.batch input * Tensor.width input = 0)
  then forward_empty self input
  else if decide (Tensor.width input = num_features self) then
    if training self then
      let mean := batch_mean input in
      let var := batch_var input mean in
      let unbiased := batch_var_unbiased input mean in
      _ ← modify (set_running (moving self (running_mean self) mean)
                              (moving self (running_var self) unbiased));
      mret (normalize self mean var input)
    else mret (normalize self (running_mean self) (running_var self) input)
  else raise RuntimeError.

End ops.
End BatchNorm1d.

(** ** ModalityFusion *)

Module ModalityFusion.

(** The three learned weights, each a tensor of one element. *)
Record t (R : Type) := mk { weight_1 : R; weight_2 : R; weight_3 : R }.
Arguments mk {R} _ _ _.
Arguments weight_1 {R} _.
Arguments weight_2 {R} _.
Arguments weight_3 {R} _.

Section ops.
Context {R : Type} `{Scalar R}.

(** [ModalityFusion.__init__]: every weight is [torch.ones(1)]. *)
Definition __init__ : t R := mk s_one s_one s_one.

(** [ModalityFusion.forward]. *)
Definition forward {S} (self : t R) (text audio video : Tensor.t R)
  : M S (Tensor.t R) :=
  let text_w := Tensor.mul text (weight_1 self) in
  let audio_w := Tensor.mul audio (weight_2 self) in
  let video_w := Tensor.mul video (weight_3 self) in
  Tensor.cat [text_w; audio_w; video_w].

End ops.
End ModalityFusion.

(** ** SubNet *)

Module SubNet.

Record t (R : Type) := mk {
  norm : BatchNorm1d.t R;
  drop : Dropout.t R;
  linear_1 : Linear.t R;
  linear_2 : Linear.t R;
  linear_3 : Linear.t R
}.
Arguments mk {R} _ _ _ _ _.
Arguments norm {R} _.
Arguments drop {R} _.
Arguments linear_1 {R} _.
Arguments linear_2 {R} _.
Arguments linear_3 {R} _.

Section ops.
Context {R G : Type} `{Scalar R} `{Sampler R G}.

(** What [SubNet.__init__ in_size hidden_size dropout] fixes: the sizes
    of the five layers and the dropout rate. *)
Definition wf (in_size hidden_size : nat) (dropout : R) (self : t R) : Prop :=
  BatchNorm1d.wf (norm self) ∧
  BatchNorm1d.num_features (norm self) = in_size ∧
  Dropout.p (drop self) = dropout ∧
  Linear.sized in_size hidden_size (linear_1 self) ∧
  Linear.sized hidden_size hidden_size (linear_2 self) ∧
  Linear.sized hidden_size hidden_size (linear_3 self).

(** [SubNet.__init__]; [w] and [b] as in [Linear.__init__]. *)
Definition __init__ (in_size hidden_size : nat) (dropout : R) (w b : R) : t R :=
  mk (BatchNorm1d.__init__ in_size)
     (Dropout.__init__ dropout)
     (Linear.__init__ in_size hidden_size w b)
     (Linear.__init__ hidden_size hidden_size w b)
     (Linear.__init__ hidden_size hidden_size w b).

(** [nn.Module.train(mode)]: the flag of every module below. *)
Definition train (mode : bool) (self : t R) : t R :=
  mk (BatchNorm1d.train mode (norm self)) (Dropout.train mode (drop self))
     (linear_1 self) (linear_2 self) (linear_3 self).

Definition set_norm (n : BatchNorm1d.t R) (self : t R) : t R :=
  mk n (drop self) (linear_1 self) (linear_2 self) (linear_3 self).

(** The state of a call: the module and the random generator. *)
Definition on_norm {A} (m : M (BatchNorm1d.t R) A) : M (t R * G) A :=
  zoom (λ s, norm s.1) (λ n s, (set_norm n s.1, s.2)) m.

Definition on_generator {A} (m : M G A) : M (t R * G) A :=
  zoom snd (λ g s, (s.1, g)) m.

(** [SubNet.forward]. *)
Definition forward (x : Tensor.t R) : M (t R * G) (Tensor.t R) :=
  normed ← on_norm (BatchNorm1d.forward x);
  self ← fst <$> get;
  dropped ← on_generator (Dropout.forward (drop self) normed);
  y_1 ← Tensor.relu <$> Linear.forward (linear_1 self) dropped;
  y_2 ← Tensor.relu <$> Linear.forward (linear_2 self) y_1;
  y_3 ← Tensor.relu <$> Linear.forward (linear_3 self) y_2;
  mret y_3.

End ops.
End SubNet.

(** ** WeightedMultiModalFusionNetwork *)

Module config.

(** The constants of the [config] module the network reads.  The module
    is not part of the sources: its values are parameters here. *)
Record t (R : Type) := mk {
  VIDEO_DIM : nat;
  VIDEO_HIDDEN : nat;
  VIDEO_DROPOUT : R;
  AUDIO_DIM : nat;
  AUDIO_HIDDEN : nat;
  AUDIO_DROPOUT : R;
  TEXT_DIM : nat;
  TEXT_HIDDEN : nat;
  TEXT_DROPOUT : R;
  CONTEXT_HIDDEN : nat;
  CONTEXT_DROPOUT : R;
  SPEAKER_HIDDEN : nat;
  SPEAKER_DROPOUT : R;
  POST_FUSION_DROPOUT : R;
  POST_FUSION_DIM : nat
}.
Arguments mk {R} _ _ _ _ _ _ _ _ _ _ _ _ _ _ _.
Arguments VIDEO_DIM {R} _.
Arguments VIDEO_HIDDEN {R} _.
Arguments VIDEO_DROPOUT {R} _.
Arguments AUDIO_DIM {R} _.
Arguments AUDIO_HIDDEN {R} _.
Arguments AUDIO_DROPOUT {R} _.
Arguments TEXT_DIM {R} _.
Arguments TEXT_HIDDEN {R} _.
Arguments TEXT_DROPOUT {R} _.
Arguments CONTEXT_HIDDEN {R} _.
Arguments CONTEXT_DROPOUT {R} _.
Arguments SPEAKER_HIDDEN {R} _.
Arguments SPEAKER_DROPOUT {R} _.
Arguments POST_FUSION_DROPOUT {R} _.
Arguments POST_FUSION_DIM {R} _.

End config.

Module WeightedMultiModalFusionNetwork.

Import config.

Record t (R : Type) := mk {
  video_subnet : SubNet.t R;
  audio_subnet : SubNet.t R;
  text_subnet : SubNet.t R;
  context_subnet : SubNet.t R;
  speaker_subnet : SubNet.t R;
  fusion : ModalityFusion.t R;
  post_fusion_dropout : Dropout.t R;
  post_fusion_layer_1 : Linear.t R;
  post_fusion_layer_2 : Linear.t R;
  post_fusion_layer_3 : Linear.t R;
  fc : Linear.t R
}.
Arguments mk {R} _ _ _ _ _ _ _ _ _ _ _.
Arguments video_subnet {R} _.
Arguments audio_subnet {R} _.
Arguments text_subnet {R} _.
Arguments context_subnet {R} _.
Arguments speaker_subnet {R} _.
Arguments fusion {R} _.
Arguments post_fusion_dropout {R} _.
Arguments post_fusion_layer_1 {R} _.
Arguments post_fusion_layer_2 {R} _.
Arguments post_fusion_layer_3 {R} _.
Arguments fc {R} _.

Section ops.
Context {R G : Type} `{Scalar R} `{Sampler R G}.

(** What [WeightedMultiModalFusionNetwork.__init__ speaker_num] fixes
    from the configuration: the sizes of every layer and the dropout
    rates.  The parameters themselves are whatever training left. *)
Definition wf (cfg : config.t R) (speaker_num : nat) (self : t R) : Prop :=
  SubNet.wf (VIDEO_DIM cfg) (VIDEO_HIDDEN cfg) (VIDEO_DROPOUT cfg) (video_subnet self) ∧
  SubNet.wf (AUDIO_DIM cfg) (AUDIO_HIDDEN cfg) (AUDIO_DROPOUT cfg) (audio_subnet self) ∧
  SubNet.wf (TEXT_DIM cfg) (TEXT_HIDDEN cfg) (TEXT_DROPOUT cfg) (text_subnet self) ∧
  SubNet.wf (TEXT_DIM cfg) (CONTEXT_HIDDEN cfg) (CONTEXT_DROPOUT cfg) (context_subnet self) ∧
  SubNet.wf speaker_num (SPEAKER_HIDDEN cfg) (SPEAKER_DROPOUT cfg) (speaker_subnet self) ∧
  Dropout.p (post_fusion_dropout self) = POST_FUSION_DROPOUT cfg ∧
  Linear.sized (TEXT_HIDDEN cfg + VIDEO_HIDDEN cfg + AUDIO_HIDDEN cfg)
               (POST_FUSION_DIM cfg) (post_fusion_layer_1 self) ∧
  Linear.sized (POST_FUSION_DIM cfg) (POST_FUSION_DIM cfg) (post_fusion_layer_2 self) ∧
  Linear.sized (POST_FUSION_DIM cfg + SPEAKER_HIDDEN cfg + CONTEXT_HIDDEN cfg)
               (POST_FUSION_DIM cfg) (post_fusion_layer_3 self) ∧
  Linear.sized (POST_FUSION_DIM cfg) 2 (fc self).

(** [WeightedMultiModalFusionNetwork.__init__]; [w] and [b] as in
    [Linear.__init__]. *)
Definition __init__ (cfg : config.t R) (speaker_num : nat) (w b : R) : t R :=
  mk (SubNet.__init__ (VIDEO_DIM cfg) (VIDEO_HIDDEN cfg) (VIDEO_DROPOUT cfg) w b)
     (SubNet.__init__ (AUDIO_DIM cfg) (AUDIO_HIDDEN cfg) (AUDIO_DROPOUT cfg) w b)
     (SubNet.__init__ (TEXT_DIM cfg) (TEXT_HIDDEN cfg) (TEXT_DROPOUT cfg) w b)
     (SubNet.__init__ (TEXT_DIM cfg) (CONTEXT_HIDDEN cfg) (CONTEXT_DROPOUT cfg) w b)
     (SubNet.__init__ speaker_num (SPEAKER_HIDDEN cfg) (SPEAKER_DROPOUT cfg) w b)
     ModalityFusion.__init__
     (Dropout.__init__ (POST_FUSION_DROPOUT cfg))
     (Linear.__init__ (TEXT_HIDDEN cfg + VIDEO_HIDDEN cfg + AUDIO_HIDDEN cfg)
                      (POST_FUSION_DIM cfg) w b)
     (Linear.__init__ (POST_FUSION_DIM cfg) (POST_FUSION_DIM cfg) w b)
     (Linear.__init__ (POST_FUSION_DIM cfg + SPEAKER_HIDDEN cfg + CONTEXT_HIDDEN cfg)
                      (POST_FUSION_DIM cfg) w b)
     (Linear.__init__ (POST_FUSION_DIM cfg) 2 w b).

(** [nn.Module.train(mode)]; [eval()] is [train(False)]. *)
Definition train (mode : bool) (self : t R) : t R :=
  mk (SubNet.train mode (video_subnet self))
     (SubNet.train mode (audio_subnet self))
     (SubNet.train mode (text_subnet self))
     (SubNet.train mode (context_subnet self))
     (SubNet.train mode (speaker_subnet self))
     (fusion self)
     (Dropout.train mode (post_fusion_dropout self))
     (post_fusion_layer_1 self) (post_fusion_layer_2 self)
     (post_fusion_layer_3 self) (fc self).

Definition eval (self : t R) : t R := train false self.

Definition set_video_subnet (n : SubNet.t R) (self : t R) : t R :=
  mk n (audio_subnet self) (text_subnet self) (context_subnet self)
     (speaker_subnet self) (fusion self) (post_fusion_dropout self)
     (post_fusion_layer_1 self) (post_fusion_layer_2 self)
     (post_fusion_layer_3 self) (fc self).
Definition set_audio_subnet (n : SubNet.t R) (self : t R) : t R :=
  mk (video_subnet self) n (text_subnet self) (context_subnet self)
     (speaker_subnet self) (fusion self) (post_fusion_dropout self)
     (post_fusion_layer_1 self) (post_fusion_layer_2 self)
     (post_fusion_layer_3 self) (fc self).
Definition set_text_subnet (n : SubNet.t R) (self : t R) : t R :=
  mk (video_subnet self) (audio_subnet self) n (context_subnet self)
     (speaker_subnet self) (fusion self) (post_fusion_dropout self)
     (post_fusion_layer_1 self) (post_fusion_layer_2 self)
     (post_fusion_layer_3 self) (fc self).
Definition set_context_subnet (n : SubNet.t R) (self : t R) : t R :=
  mk (video_subnet self) (audio_subnet self) (text_subnet self) n
     (speaker_subnet self) (fusion self) (post_fusion_dropout self)
     (post_fusion_layer_1 self) (post_fusion_layer_2 self)
     (post_fusion_layer_3 self) (fc self).
Definition set_speaker_subnet (n : SubNet.t R) (self : t R) : t R :=
  mk (video_subnet self) (audio_subnet self) (text_subnet self)
     (context_subnet self) n (fusion self) (post_fusion_dropout self)
     (post_fusion_layer_1 self) (post_fusion_layer_2 self)
     (post_fusion_layer_3 self) (fc self).

(** A call of the submodule read by [proj], on the generator of the
    whole network. *)
Definition on_subnet {A} (proj : t R → SubNet.t R)
    (upd : SubNet.t R → t R → t R) (m : M (SubNet.t R * G) A) : M (t R * G) A :=
  zoom (λ s, (proj s.1, s.2)) (λ n s, (upd n.1 s.1, n.2)) m.

Definition on_generator {A} (m : M G A) : M (t R * G) A :=
  zoom snd (λ g s, (s.1, g)) m.

(** [WeightedMultiModalFusionNetwork.forward]. *)
Definition forward (text_x video_x audio_x speaker_x context_x : Tensor.t R)
  : M (t R * G) (Tensor.t R) :=
  video_h ← on_subnet video_subnet set_video_subnet (SubNet.forward video_x);
  audio_h ← on_subnet audio_subnet set_audio_subnet (SubNet.forward audio_x);
  text_h ← on_subnet text_subnet set_text_subnet (SubNet.forward text_x);
  speaker_h ← on_subnet speaker_subnet set_speaker_subnet (SubNet.forward speaker_x);
  context_h ← on_subnet context_subnet set_context_subnet (SubNet.forward context_x);
  self ← fst <$> get;
  fusion_h ← ModalityFusion.forward (fusion self) text_h audio_h video_h;
  x ← on_generator (Dropout.forward (post_fusion_dropout self) fusion_h);
  x ← Tensor.relu <$> Linear.forward (post_fusion_layer_1 self) x;
  x ← on_generator (Dropout.forward (post_fusion_dropout self) x);
  x ← Tensor.relu <$> Linear.forward (post_fusion_layer_2 self) x;
  late_fusion ← Tensor.cat [x; speaker_h; context_h];
  x ← on_generator (Dropout.forward (post_fusion_dropout self) late_fusion);
  x ← Tensor.relu <$> Linear.forward (post_fusion_layer_3 self) x;
  x ← on_generator (Dropout.forward (post_fusion_dropout self) x);
  Linear.forward (fc self) x.

End ops.
End WeightedMultiModalFusionNetwork.

(** ** The float64 and float32 instances, and a generator that replays
    recorded draws *)

#[global] Instance float_scalar : Scalar float := {|
  s_zero := 0%float;
  s_one := 1%float;
  s_add := PrimFloat.add;
  s_sub := PrimFloat.sub;
  s_mul := PrimFloat.mul;
  s_div := PrimFloat.div;
  s_sqrt := PrimFloat.sqrt;
  s_relu := λ v, if PrimFloat.ltb 0 v then v else if PrimFloat.is_nan v then v else 0%float;
  s_of_Z := float_of_Z
|}.

(** torch.float32, the element type torch uses unless told otherwise:
    IEEE binary32 on [spec_float], with 24 bits of precision and
    exponents below 128.  Its values are the [spec_float]s that are
    valid for these parameters. *)
#[global] Instance float32_scalar : Scalar spec_float := {|
  s_zero := S754_zero false;
  s_one := binary_normalize 24 128 1 0 false;
  s_add := SFadd 24 128;
  s_sub := SFsub 24 128;
  s_mul := SFmul 24 128;
  s_div := SFdiv 24 128;
  s_sqrt := SFsqrt 24 128;
  s_relu := λ v,
    match SFcompare (S754_zero false) v with
    | Some Lt | None => v
    | _ => S754_zero false
    end;
  s_of_Z := λ z, binary_normalize 24 128 z 0 false
|}.

Definition float32_valid (v : spec_float) : Prop :=
  SpecFloat.valid_binary 24 128 v = true.

(** The generator is the list of the draws still to come; once they are
    used up every element is kept. *)
#[global] Instance replay {R} : Sampler R (list bool) := λ _ g,
  match g with
  | k :: g' => (k, g')
  | [] => (true, [])
  end.

(** * The specification's vocabulary *)

(** ** results.py *)

(** [cr[outer]] exists and has every key of [inner]. *)
Definition has_entry (cr : report) (outer : string) (inner : list string) : bool :=
  match cr !! outer with
  | Some entry => forallb (λ key, bool_decide (is_Some (entry !! key))) inner
  | None => false
  end.

(** The keys [Result] expects of a classification report. *)
Definition required_keys_present (cr : report) : bool :=
  has_entry cr "weighted avg" ["precision"; "recall"; "f1-score"] &&
  has_entry cr "best_result" ["best_acc"; "best_epoch"].

(** The report of the specification's example. *)
Definition example_report : report :=
  {[ "weighted avg" := {[ "precision" := VFloat 0.8;
                          "recall" := VFloat 0.7;
                          "f1-score" := VFloat 0.75 ]};
     "best_result" := {[ "best_acc" := VFloat 0.9;
                         "best_epoch" := VInt 3 ]} ]}.

(** A report with its "best_result" entry missing. *)
Definition truncated_report : report :=
  {[ "weighted avg" := {[ "precision" := VFloat 0.8;
                          "recall" := VFloat 0.7;
                          "f1-score" := VFloat 0.75 ]} ]}.


(** The three lines per fold, folds numbered from 1 in the order given. *)
Definition fold_lines (rs : list Result.t) : list IterationResults.line :=
  mjoin (imap (λ i result,
    [IterationResults.Fold (i + 1);
     IterationResults.Weighted (Result.precision result) (Result.recall result)
                               (Result.f1_score result);
     IterationResults.Best (Result.best_epoch result) (Result.best_acc result)]) rs).

(** The three closing lines. *)
Definition summary_lines (p r f : float) : list IterationResults.line :=
  [IterationResults.Text "####################";
   IterationResults.Text "Avg :";
   IterationResults.AvgWeighted p r f].

(** What [numpy.mean] computes for one metric of the folds, in their
    order. *)
Definition average (metric : Result.t → value) (rs : list Result.t) : float :=
  np_mean (metric <$> rs).







(** ** network.py *)

(** The call [m] on the state [s] returns, and the state it leaves and
    the value it returns satisfy [post]. *)
Definition returns {S A} (m : M S A) (s : S) (post : S → A → Prop) : Prop :=
  ∃ s' a, m s = (s', inr a) ∧ post s' a.

(** [x] is a tensor of shape [(batch, width)]. *)
Definition shaped {R} (batch width : nat) (x : Tensor.t R) : Prop :=
  Tensor.ok x ∧ Tensor.shape x = (batch, width).

(** A batch size batch normalization accepts: at least one row, and at
    least two while training. *)
Definition valid_batch (training : bool) (batch : nat) : Prop :=
  if training then 2 ≤ batch else 1 ≤ batch.

(** Every batch size batch normalization accepts, the empty batch
    included: any but a single row while training. *)
Definition accepted_batch (training : bool) (batch : nat) : Prop :=
  training = true → batch ≠ 1.

(** Every input of the network has at least one column.  (On a tensor
    without elements torch's batch normalization still reads its first
    scale and shift, which a normalization of no feature does not
    have.) *)
Definition input_widths_positive {R} (cfg : config.t R) (speaker_num : nat) : Prop :=
  0 < config.TEXT_DIM cfg ∧ 0 < config.VIDEO_DIM cfg ∧
  0 < config.AUDIO_DIM cfg ∧ 0 < speaker_num.

(** The steps applied one after the other, each to the result of the
    one before. *)
Definition chain {S A} (steps : list (A → M S A)) (x : A) : M S A :=
  foldl (λ m step, m ≫= step) (mret x) steps.

Module SubNetSpec.
Section spec.
Context {R G : Type} `{Scalar R} `{Sampler R G}.

Definition batch_norm (x : Tensor.t R) : M (SubNet.t R * G) (Tensor.t R) :=
  SubNet.on_norm (BatchNorm1d.forward x).

Definition dropout (self : SubNet.t R) (x : Tensor.t R)
  : M (SubNet.t R * G) (Tensor.t R) :=
  SubNet.on_generator (Dropout.forward (SubNet.drop self) x).

Definition linear (layer : Linear.t R) (x : Tensor.t R)
  : M (SubNet.t R * G) (Tensor.t R) :=
  Linear.forward layer x.

Definition relu (x : Tensor.t R) : M (SubNet.t R * G) (Tensor.t R) :=
  mret (Tensor.relu x).

(** Section 4.1 of the specification: batch normalization, dropout,
    then three linear projections with a rectified-linear activation
    after each. *)
Definition forward (self : SubNet.t R) (x : Tensor.t R)
  : M (SubNet.t R * G) (Tensor.t R) :=
  chain [batch_norm; dropout self;
         linear (SubNet.linear_1 self); relu;
         linear (SubNet.linear_2 self); relu;
         linear (SubNet.linear_3 self); relu] x.

End spec.
End SubNetSpec.

Module NetworkSpec.
Import WeightedMultiModalFusionNetwork.
Section spec.
Context {R G : Type} `{Scalar R} `{Sampler R G}.

Definition dropout (self : t R) (x : Tensor.t R) : M (t R * G) (Tensor.t R) :=
  on_generator (Dropout.forward (post_fusion_dropout self) x).

Definition linear (layer : Linear.t R) (x : Tensor.t R) : M (t R * G) (Tensor.t R) :=
  Linear.forward layer x.

Definition relu (x : Tensor.t R) : M (t R * G) (Tensor.t R) :=
  mret (Tensor.relu x).

Definition concatenate (others : list (Tensor.t R)) (x : Tensor.t R)
  : M (t R * G) (Tensor.t R) :=
  Tensor.cat (x :: others).

(** Section 4.3 of the specification: every input through its own
    SubNet, text, audio and video fused, then the post-fusion steps in
    the order the specification lists them. *)
Definition forward (text_x video_x audio_x speaker_x context_x : Tensor.t R)
  : M (t R * G) (Tensor.t R) :=
  video_h ← on_subnet video_subnet set_video_subnet (SubNet.forward video_x);
  audio_h ← on_subnet audio_subnet set_audio_subnet (SubNet.forward audio_x);
  text_h ← on_subnet text_subnet set_text_subnet (SubNet.forward text_x);
  speaker_h ← on_subnet speaker_subnet set_speaker_subnet (SubNet.forward speaker_x);
  context_h ← on_subnet context_subnet set_context_subnet (SubNet.forward context_x);
  self ← fst <$> get;
  fused ← ModalityFusion.forward (fusion self) text_h audio_h video_h;
  chain [dropout self; linear (post_fusion_layer_1 self); relu;
         dropout self; linear (post_fusion_layer_2 self); relu;
         concatenate [speaker_h; context_h];
         dropout self; linear (post_fusion_layer_3 self); relu;
         dropout self; linear (fc self)] fused.

End spec.
End NetworkSpec.

(** ** A small float64 network to run the definitions on *)

Module Demo.

Definition cfg : config.t float :=
  config.mk 3 2 0.5%float 2 2 0.5%float 4 3 0.5%float 2 0.5%float 1 0.5%float
            0.5%float 3.

(** The network right after construction (in training mode), every
    coefficient 0.25 and every bias 0.125, for two speakers. *)
Definition network : WeightedMultiModalFusionNetwork.t float :=
  WeightedMultiModalFusionNetwork.__init__ cfg 2 0.25%float 0.125%float.

Definition subnet : SubNet.t float :=
  SubNet.__init__ 2 3 0.5%float 0.25%float 0.125%float.

Definition constant (batch width : nat) (v : float) : Tensor.t float :=
  Tensor.mk width (replicate batch (replicate width v)).

(** A tensor whose row [i] (from 1) holds [i * v] in every column. *)
Definition ramp (batch width : nat) (v : float) : Tensor.t float :=
  Tensor.mk width
    ((λ i, replicate width (float_of_Z (Z.of_nat i) * v)%float) <$> seq 1 batch).

Definition text_x (batch : nat) := ramp batch 4 1%float.
Definition video_x (batch : nat) := ramp batch 3 2%float.
Definition audio_x (batch : nat) := ramp batch 2 3%float.
Definition speaker_x (batch : nat) := ramp batch 2 1%float.
Definition context_x (batch : nat) := ramp batch 4 0.5%float.

(** The recorded draws of the generator. *)
Definition draws : list bool := [false; true; true; false; true].

(** The first entry of the second row of a returned tensor. *)
Definition probe (r : exn + Tensor.t float) : float :=
  match r with
  | inr y =>
      match Tensor.data y with
      | _ :: (v :: _) :: _ => v
      | _ => 0%float
      end
  | inl _ => 0%float
  end.

End Demo.

(** The training flag of every module of a SubNet, and of the network,
    is [mode]. *)
Definition subnet_in_mode {R} (mode : bool) (self : SubNet.t R) : Prop :=
  BatchNorm1d.training (SubNet.norm self) = mode ∧
  Dropout.training (SubNet.drop self) = mode.

Definition network_in_mode {R} (mode : bool)
    (self : WeightedMultiModalFusionNetwork.t R) : Prop :=
  subnet_in_mode mode (WeightedMultiModalFusionNetwork.video_subnet self) ∧
  subnet_in_mode mode (WeightedMultiModalFusionNetwork.audio_subnet self) ∧
  subnet_in_mode mode (WeightedMultiModalFusionNetwork.text_subnet self) ∧
  subnet_in_mode mode (WeightedMultiModalFusionNetwork.context_subnet self) ∧
  subnet_in_mode mode (WeightedMultiModalFusionNetwork.speaker_subnet self) ∧
  Dropout.training (WeightedMultiModalFusionNetwork.post_fusion_dropout self) = mode.

(** The call [m] on a module in state [n] is a function of [n] alone: it
    writes neither the module nor the generator, and its outcome is the
    same whatever the generator. *)
Definition quiet {N G A} (m : M (N * G) A) (n : N) : Prop :=
  ∃ r, ∀ g, m (n, g) = ((n, g), r).

(** * Further vocabulary *)

(** ** results.py *)

(** The subscriptions of [set_values_from_classification_report], in the
    order the method makes them: the entry, then the key inside it. *)
Definition subscriptions : list (string * string) :=
  [("weighted avg", "f1-score"); ("weighted avg", "precision");
   ("weighted avg", "recall"); ("best_result", "best_acc");
   ("best_result", "best_epoch")].

(** The key that [cr[entry][key]] fails on, if it fails. *)
Definition missing_key (cr : report) (path : string * string) : option string :=
  match cr !! path.1 with
  | None => Some path.1
  | Some entry =>
      match entry !! path.2 with
      | None => Some path.2
      | Some _ => None
      end
  end.

(** The first key missing, in the order of the subscriptions. *)
Definition first_missing (cr : report) : option string :=
  head (omap (missing_key cr) subscriptions).


(** ** Outcomes and what a call leaves in place *)

(** The call [m] on the state [s] raises [e]. *)
Definition raises {S A} (m : M S A) (s : S) (e : exn) : Prop := (m s).2 = inl e.

(** Whatever the call [m] does to the state, [rel] relates the state
    before to the state after, also when [m] raises. *)
Definition keeps {S A} (rel : S → S → Prop) (m : M S A) : Prop :=
  ∀ s s' r, m s = (s', r) → rel s s'.

(** [rel] between the modules of two states, whatever their generators. *)
Definition on_module {N G} (rel : N → N → Prop) : N * G → N * G → Prop :=
  λ s s', rel s.1 s'.1.

(** Two batch normalizations that differ at most in their running
    statistics and their batch counter. *)
Definition same_norm {R} (a b : BatchNorm1d.t R) : Prop :=
  BatchNorm1d.num_features a = BatchNorm1d.num_features b ∧
  BatchNorm1d.eps a = BatchNorm1d.eps b ∧
  BatchNorm1d.momentum a = BatchNorm1d.momentum b ∧
  BatchNorm1d.weight a = BatchNorm1d.weight b ∧
  BatchNorm1d.bias a = BatchNorm1d.bias b ∧
  BatchNorm1d.training a = BatchNorm1d.training b.

(** Two SubNets with the same dropout and linear layers, and the same
    normalization up to its running statistics and batch counter. *)
Definition same_subnet {R} (a b : SubNet.t R) : Prop :=
  same_norm (SubNet.norm a) (SubNet.norm b) ∧
  SubNet.drop a = SubNet.drop b ∧
  SubNet.linear_1 a = SubNet.linear_1 b ∧
  SubNet.linear_2 a = SubNet.linear_2 b ∧
  SubNet.linear_3 a = SubNet.linear_3 b.

(** The same for the whole network: the fusion weights, the dropout and
    the four linear layers after the fusion are the same. *)
Definition same_network {R} (a b : WeightedMultiModalFusionNetwork.t R) : Prop :=
  same_subnet (WeightedMultiModalFusionNetwork.video_subnet a)
              (WeightedMultiModalFusionNetwork.video_subnet b) ∧
  same_subnet (WeightedMultiModalFusionNetwork.audio_subnet a)
              (WeightedMultiModalFusionNetwork.audio_subnet b) ∧
  same_subnet (WeightedMultiModalFusionNetwork.text_subnet a)
              (WeightedMultiModalFusionNetwork.text_subnet b) ∧
  same_subnet (WeightedMultiModalFusionNetwork.context_subnet a)
              (WeightedMultiModalFusionNetwork.context_subnet b) ∧
  same_subnet (WeightedMultiModalFusionNetwork.speaker_subnet a)
              (WeightedMultiModalFusionNetwork.speaker_subnet b) ∧
  WeightedMultiModalFusionNetwork.fusion a = WeightedMultiModalFusionNetwork.fusion b ∧
  WeightedMultiModalFusionNetwork.post_fusion_dropout a
    = WeightedMultiModalFusionNetwork.post_fusion_dropout b ∧
  WeightedMultiModalFusionNetwork.post_fusion_layer_1 a
    = WeightedMultiModalFusionNetwork.post_fusion_layer_1 b ∧
  WeightedMultiModalFusionNetwork.post_fusion_layer_2 a
    = WeightedMultiModalFusionNetwork.post_fusion_layer_2 b ∧
  WeightedMultiModalFusionNetwork.post_fusion_layer_3 a
    = WeightedMultiModalFusionNetwork.post_fusion_layer_3 b ∧
  WeightedMultiModalFusionNetwork.fc a = WeightedMultiModalFusionNetwork.fc b.

(** The batch counter of the normalization of [b] is one above that of [a]. *)
Definition counted {R} (a b : SubNet.t R) : Prop :=
  BatchNorm1d.num_batches_tracked (SubNet.norm b)
  = S (BatchNorm1d.num_batches_tracked (SubNet.norm a)).

(** ** Two runs side by side *)

(** From the states [s1] and [s2], the calls [m1] and [m2] have the
    same outcome and leave states related by [rel]. *)
Definition related_at {S A} (rel : S → S → Prop) (m1 m2 : M S A) (s1 s2 : S) : Prop :=
  rel (m1 s1).1 (m2 s2).1 ∧ (m1 s1).2 = (m2 s2).2.

(** The same from any two states related by [rel]. *)
Definition related {S A} (rel : S → S → Prop) (m1 m2 : M S A) : Prop :=
  ∀ s1 s2, rel s1 s2 → related_at rel m1 m2 s1 s2.

(** Two normalizations in training mode that differ at most in their
    running statistics and batch counter. *)
Definition training_norms {R} (a b : BatchNorm1d.t R) : Prop :=
  same_norm a b ∧ BatchNorm1d.training a = true.

(** Two SubNets with normalizations in training mode that differ at
    most in the running statistics and batch counter, on the same
    generator. *)
Definition training_subnets {R G} (s1 s2 : SubNet.t R * G) : Prop :=
  same_subnet s1.1 s2.1 ∧ BatchNorm1d.training (SubNet.norm s1.1) = true ∧ s1.2 = s2.2.

(** The same for two networks. *)
Definition training_networks {R G}
    (s1 s2 : WeightedMultiModalFusionNetwork.t R * G) : Prop :=
  same_network s1.1 s2.1 ∧
  (BatchNorm1d.training (SubNet.norm (WeightedMultiModalFusionNetwork.video_subnet s1.1))
     = true ∧
   BatchNorm1d.training (SubNet.norm (WeightedMultiModalFusionNetwork.audio_subnet s1.1))
     = true ∧
   BatchNorm1d.training (SubNet.norm (WeightedMultiModalFusionNetwork.text_subnet s1.1))
     = true ∧
   BatchNorm1d.training (SubNet.norm (WeightedMultiModalFusionNetwork.context_subnet s1.1))
     = true ∧
   BatchNorm1d.training (SubNet.norm (WeightedMultiModalFusionNetwork.speaker_subnet s1.1))
     = true) ∧
  s1.2 = s2.2.

(** ** The values of ReLU *)

(** A float64 that is not below zero: zero, positive or NaN. *)
Definition float_relu_value (v : float) : Prop :=
  PrimFloat.leb 0 v = true ∨ PrimFloat.is_nan v = true.

(** The same for float32. *)
Definition float32_relu_value (v : spec_float) : Prop :=
  SFleb (S754_zero false) v = true ∨ v = S754_nan.

(** ** A SubNet in float32 *)

Module Demo32.

(** A SubNet as constructed, every coefficient 0.25 and every bias 0.125,
    with a dropout rate of 0.5. *)
Definition subnet : SubNet.t spec_float :=
  SubNet.__init__ 2 3 (s_div s_one (s_of_Z 2)) (s_div s_one (s_of_Z 4))
                  (s_div s_one (s_of_Z 8)).

Definition x : Tensor.t spec_float :=
  Tensor.mk 2 [[s_of_Z 1; s_of_Z (-2)]; [s_of_Z 3; s_of_Z 5]].

End Demo32.

(** ** Demo's modules after other batches *)

Module Demo2.

(** [Demo.subnet] with other running statistics and another count of
    batches, as earlier training steps could have left them. *)
Definition subnet : SubNet.t float :=
  SubNet.set_norm
    (BatchNorm1d.count_batch
       (BatchNorm1d.set_running [5; 7]%float [2; 3]%float (SubNet.norm Demo.subnet)))
    Demo.subnet.

(** [Demo.network] with other running statistics in its video SubNet. *)
Definition network : WeightedMultiModalFusionNetwork.t float :=
  WeightedMultiModalFusionNetwork.set_video_subnet
    (SubNet.set_norm
       (BatchNorm1d.count_batch
          (BatchNorm1d.set_running [5; 7; 9]%float [2; 3; 4]%float
             (SubNet.norm (WeightedMultiModalFusionNetwork.video_subnet Demo.network))))
       (WeightedMultiModalFusionNetwork.video_subnet Demo.network))
    Demo.network.

End Demo2.

(** * Properties *)

(** ** The monad *)

Lemma bind_inr {S A B} (m : M S A) (f : A → M S B) s s' a :
  m s = (s', inr a) → (m ≫= f) s = f a s'.
Proof. intros Hm. unfold mbind, M_bind. by rewrite Hm. Qed.

(** ** Result *)

Lemma has_entry_spec cr outer inner :
  has_entry cr outer inner = true ↔
  ∃ entry, cr !! outer = Some entry ∧ Forall (λ key, is_Some (entry !! key)) inner.
Proof.
  unfold has_entry. destruct (cr !! outer) as [entry|].
  - rewrite forallb_forall. split.
    + intros Hall. exists entry. split; [done|]. apply Forall_forall.
      intros key Hin. apply list_elem_of_In, Hall in Hin.
      by apply bool_decide_eq_true in Hin.
    + intros (? & [= <-] & Hall) key Hin. apply bool_decide_eq_true.
      rewrite Forall_forall in Hall. by apply Hall, list_elem_of_In.
  - split; [done|]. by intros (? & ? & _).
Qed.

(** What a call does, by the first key that is missing. *)
Lemma set_values_run (cr : report) (self : Result.t) :
  Result.set_values_from_classification_report cr self =
  match cr !! "weighted avg" with
  | None => (self, inl (KeyError "weighted avg"))
  | Some wa =>
    match wa !! "f1-score" with
    | None => (self, inl (KeyError "f1-score"))
    | Some f =>
      let self1 := Result.mk (Result.best_acc self) (Result.best_epoch self)
                     (Result.precision self) (Result.recall self) f in
      match wa !! "precision" with
      | None => (self1, inl (KeyError "precision"))
      | Some p =>
        let self2 := Result.mk (Result.best_acc self) (Result.best_epoch self)
                       p (Result.recall self) f in
        match wa !! "recall" with
        | None => (self2, inl (KeyError "recall"))
        | Some r =>
          let self3 := Result.mk (Result.best_acc self) (Result.best_epoch self) p r f in
          match cr !! "best_result" with
          | None => (self3, inl (KeyError "best_result"))
          | Some br =>
            match br !! "best_acc" with
            | None => (self3, inl (KeyError "best_acc"))
            | Some a =>
              let self4 := Result.mk a (Result.best_epoch self) p r f in
              match br !! "best_epoch" with
              | None => (self4, inl (KeyError "best_epoch"))
              | Some ep => (Result.mk a ep p r f, inr tt)
              end
            end
          end
        end
      end
    end
  end.
Proof.
  unfold Result.set_values_from_classification_report, mbind, M_bind, getitem.
  destruct (cr !! "weighted avg") as [wa|]; [|done]. cbn.
  destruct (wa !! "f1-score") as [f|]; [|done]. cbn.
  destruct (wa !! "precision") as [p|]; [|done]. cbn.
  destruct (wa !! "recall") as [r|]; [|done]. cbn.
  destruct (cr !! "best_result") as [br|]; [|done]. cbn.
  destruct (br !! "best_acc") as [a|]; [|done]. cbn.
  destruct (br !! "best_epoch") as [ep|]; done.
Qed.

Lemma required_keys_present_spec (cr : report) :
  required_keys_present cr = true ↔
  ∃ wa br, cr !! "weighted avg" = Some wa ∧ cr !! "best_result" = Some br ∧
    is_Some (wa !! "precision") ∧ is_Some (wa !! "recall") ∧
    is_Some (wa !! "f1-score") ∧
    is_Some (br !! "best_acc") ∧ is_Some (br !! "best_epoch").
Proof.
  unfold required_keys_present. rewrite andb_true_iff, !has_entry_spec. split.
  - intros [(wa & Hwa & Hw) (br & Hbr & Hb)]. exists wa, br.
    apply Forall_cons in Hw as [? Hw]. apply Forall_cons in Hw as [? Hw].
    apply Forall_cons in Hw as [? _].
    apply Forall_cons in Hb as [? Hb]. apply Forall_cons in Hb as [? _].
    done.
  - intros (wa & br & Hwa & Hbr & ? & ? & ? & ? & ?).
    split; [exists wa|exists br]; (split; [done|]); repeat constructor; done.
Qed.

(** Claim C7.  Building a [Result] from a classification report fails
    with a [KeyError] exactly when a required key is missing (the
    "weighted avg" entry with its "precision", "recall" and "f1-score"
    keys, the "best_result" entry with its "best_acc" and "best_epoch"
    keys); no other exception can come out of the construction, and
    when the keys are there the five values are stored as they are,
    whatever they are. *)
Theorem construction_fails_iff_key_absent (cr : report) :
  (required_keys_present cr = false ↔
     ∃ key, Result.__init__ (Some cr) = inl (KeyError key)) ∧
  (∀ e, Result.__init__ (Some cr) = inl e → is_lookup_error e = true) ∧
  (∀ wa br (p r f a ep : value),
     cr !! "weighted avg" = Some wa → cr !! "best_result" = Some br →
     wa !! "precision" = Some p → wa !! "recall" = Some r →
     wa !! "f1-score" = Some f →
     br !! "best_acc" = Some a → br !! "best_epoch" = Some ep →
     Result.__init__ (Some cr) = inr (Result.mk a ep p r f)).
Proof.
  unfold Result.__init__. rewrite set_values_run.
  unfold required_keys_present, has_entry.
  repeat (match goal with
          | |- context [?m !! ?k] => destruct (m !! k) eqn:?
          end; cbn).
  all: split_and!.
  all: try (intros ? ?; by simplify_eq).
  all: try (intros; by simplify_eq).
  all: try (split; [intros; first [discriminate | eexists; reflexivity]
             | intros [? ?]; first [discriminate | reflexivity]]).
Qed.

(** Claim C8.  A [Result] built without a report has its five metrics
    equal to the integer 0; built from the report of the specification's
    example it has precision 0.8, recall 0.7, f1_score 0.75, best_acc
    0.9 and best_epoch 3. *)
Theorem Result_construction_values :
  Result.__init__ None
    = inr (Result.mk (VInt 0) (VInt 0) (VInt 0) (VInt 0) (VInt 0)) ∧
  Result.__init__ (Some example_report)
    = inr (Result.mk (VFloat 0.9) (VInt 3) (VFloat 0.8) (VFloat 0.7) (VFloat 0.75)).
Proof. split; [reflexivity|]. vm_compute. reflexivity. Qed.

(** Claim C10.  [set_values_from_classification_report] is not atomic:
    on a report with a complete "weighted avg" entry and no
    "best_result" entry, the [KeyError] for "best_result" is raised
    after f1_score, precision and recall were assigned, and the object
    is left with these three new values and with its former best_acc
    and best_epoch. *)
Theorem set_values_not_atomic (cr : report) (wa : gmap string value)
    (f p r : value) (self : Result.t) :
  cr !! "weighted avg" = Some wa →
  wa !! "f1-score" = Some f → wa !! "precision" = Some p → wa !! "recall" = Some r →
  cr !! "best_result" = None →
  Result.set_values_from_classification_report cr self =
    (Result.mk (Result.best_acc self) (Result.best_epoch self) p r f,
     inl (KeyError "best_result")).
Proof.
  intros Hwa Hf Hp Hr Hbr. rewrite set_values_run, Hwa, Hf, Hp, Hr, Hbr. reflexivity.
Qed.

Lemma set_values_not_atomic_witness :
  Result.set_values_from_classification_report truncated_report Result.zeroed =
    (Result.mk (VInt 0) (VInt 0) (VFloat 0.8) (VFloat 0.7) (VFloat 0.75),
     inl (KeyError "best_result")).
Proof.
  apply (set_values_not_atomic truncated_report
           {[ "precision" := VFloat 0.8; "recall" := VFloat 0.7;
              "f1-score" := VFloat 0.75 ]}); reflexivity.
Defined.

(** ** numpy.mean *)

Lemma pairwise_sum_rec_fuel (fuel1 fuel2 : nat) (a : list float) :
  length a ≤ fuel1 → length a ≤ fuel2 →
  pairwise_sum_rec fuel1 a = pairwise_sum_rec fuel2 a.
Proof.
  revert fuel2 a. induction fuel1 as [|fuel1 IH]; intros fuel2 a H1 H2.
  - destruct a; [|simpl in H1; lia]. by destruct fuel2.
  - destruct fuel2 as [|fuel2].
    { destruct a; [done|simpl in H2; lia]. }
    cbn [pairwise_sum_rec]. repeat case_decide; try done.
    assert (Hn : length a / 2 - (length a / 2) mod 8 < length a
                 ∧ 0 < length a / 2 - (length a / 2) mod 8).
    { pose proof (Nat.div_lt (length a) 2 ltac:(lia) ltac:(lia)).
      pose proof (Nat.mod_upper_bound (length a / 2) 8 ltac:(lia)).
      assert (64 ≤ length a / 2) by (apply Nat.div_le_lower_bound; lia).
      lia. }
    f_equal; apply IH; rewrite ?length_take, ?length_drop; lia.
Qed.

(** Any fuel that is at least the length of the array gives the sum:
    the recursion never runs out. *)
Lemma pairwise_sum_enough_fuel (fuel : nat) (a : list float) :
  length a ≤ fuel → pairwise_sum_rec fuel a = pairwise_sum a.
Proof. intros. by apply pairwise_sum_rec_fuel. Qed.




(** ** Sums in floating-point arithmetic *)














(** ** IterationResults *)


Lemma print_folds_run (i : nat) (rs : list Result.t) (out : list IterationResults.line) :
  IterationResults.print_folds i rs out =
  (out ++ mjoin (imap (λ j result,
      [IterationResults.Fold (i + j + 1);
       IterationResults.Weighted (Result.precision result) (Result.recall result)
                                 (Result.f1_score result);
       IterationResults.Best (Result.best_epoch result) (Result.best_acc result)]) rs),
   inr tt).
Proof.
  revert i out. induction rs as [|r rs IH]; intros i out.
  - simpl. by rewrite app_nil_r.
  - cbn [IterationResults.print_folds]. unfold mbind, M_bind, IterationResults.print, modify.
    rewrite IH. f_equal. rewrite <-!app_assoc. f_equal. simpl.
    rewrite Nat.add_0_r. do 3 f_equal. f_equal.
    apply imap_ext. intros j r' _. simpl. do 2 f_equal. lia.
Qed.

Lemma np_mean_average (metric : Result.t → value) (rs : list Result.t) :
  np_mean (metric <$> rs) = average metric rs.
Proof. reflexivity. Qed.

Lemma print_result_run (self : IterationResults.t) (out : list IterationResults.line) :
  let rs := IterationResults.fold_results self in
  IterationResults.print_result self out =
    (out ++ fold_lines rs
         ++ summary_lines (average Result.precision rs) (average Result.recall rs)
                          (average Result.f1_score rs),
     inr {[ "precision" := average Result.precision rs;
            "recall" := average Result.recall rs;
            "f1_score" := average Result.f1_score rs ]}).
Proof.
  intros rs. unfold IterationResults.print_result.
  erewrite bind_inr by apply print_folds_run.
  rewrite !np_mean_average.
  unfold mbind, M_bind, IterationResults.print, modify, mret, M_ret; cbn.
  rewrite <-!app_assoc. reflexivity.
Qed.





(** Claim C6.  On an object without folds, [print_result] raises
    nothing: it writes the summary and returns the mapping whose three
    values are the mean of an empty array, 0.0 / 0, which is NaN. *)
Theorem print_result_empty (out : list IterationResults.line) :
  IterationResults.print_result IterationResults.__init__ out =
    (out ++ summary_lines nan nan nan,
     inr {[ "precision" := nan; "recall" := nan; "f1_score" := nan ]}) ∧
  np_mean [] = (0 / 0)%float ∧ PrimFloat.is_nan (np_mean []) = true.
Proof.
  split; [|split; reflexivity]. by rewrite print_result_run.
Qed.

(** ** Calls that return *)

Section returns.
Context {S : Type}.

Lemma returns_ret {A} (a : A) (s : S) (post : S → A → Prop) :
  post s a → returns (mret a) s post.
Proof. intros. by exists s, a. Qed.

Lemma returns_bind {A B} (m : M S A) (f : A → M S B) (s : S)
    (mid : S → A → Prop) (post : S → B → Prop) :
  returns m s mid →
  (∀ s' a, mid s' a → returns (f a) s' post) →
  returns (m ≫= f) s post.
Proof.
  intros (s' & a & Hm & Hmid) Hf. unfold returns, mbind, M_bind.
  rewrite Hm. by apply Hf.
Qed.

Lemma returns_fmap {A B} (m : M S A) (f : A → B) (s : S) (post : S → B → Prop) :
  returns m s (λ s' a, post s' (f a)) → returns (f <$> m) s post.
Proof.
  intros (s' & a & Hm & Hpost). exists s', (f a).
  unfold fmap, M_fmap. by rewrite Hm.
Qed.

Lemma returns_get (s : S) (post : S → S → Prop) :
  post s s → returns get s post.
Proof. intros. by exists s, s. Qed.

Lemma returns_modify (f : S → S) (s : S) (post : S → unit → Prop) :
  post (f s) tt → returns (modify f) s post.
Proof. intros. by exists (f s), tt. Qed.

Lemma returns_zoom {T A} (proj : S → T) (upd : T → S → S) (m : M T A) (s : S)
    (post : S → A → Prop) :
  returns m (proj s) (λ t' a, post (upd t' s) a) →
  returns (zoom proj upd m) s post.
Proof.
  intros (t' & a & Hm & Hpost). exists (upd t' s), a.
  unfold zoom. by rewrite Hm.
Qed.

Lemma returns_weaken {A} (m : M S A) (s : S) (post post' : S → A → Prop) :
  returns m s post → (∀ s' a, post s' a → post' s' a) → returns m s post'.
Proof. intros (s' & a & Hm & Hpost) Himp. exists s', a. eauto. Qed.

End returns.

(** ** Shapes of tensors *)

Section shapes.
Context {R : Type} `{Scalar R}.

Lemma shaped_batch b n (x : Tensor.t R) : shaped b n x → Tensor.batch x = b.
Proof. by intros [_ [= ? ?]]. Qed.

Lemma shaped_width b n (x : Tensor.t R) : shaped b n x → Tensor.width x = n.
Proof. by intros [_ [= ? ?]]. Qed.

Lemma shaped_intro b n (x : Tensor.t R) :
  Tensor.width x = n → length (Tensor.data x) = b →
  Forall (λ row, length row = n) (Tensor.data x) → shaped b n x.
Proof.
  intros Hw Hb Hrows. split.
  - unfold Tensor.ok. by rewrite Hw.
  - unfold Tensor.shape, Tensor.batch. by rewrite Hw, Hb.
Qed.

Lemma shaped_rows b n (x : Tensor.t R) :
  shaped b n x → Forall (λ row, length row = n) (Tensor.data x).
Proof. intros [Hok [= _ Hw]]. unfold Tensor.ok in Hok. by rewrite Hw in Hok. Qed.

Lemma pointwise_shaped b n (f : R → R) (x : Tensor.t R) :
  shaped b n x → shaped b n (Tensor.pointwise f x).
Proof.
  intros Hx. apply shaped_intro; simpl.
  - by eapply shaped_width.
  - rewrite length_fmap. by eapply shaped_batch.
  - apply Forall_fmap. eapply Forall_impl; [by eapply shaped_rows|].
    intros row Hrow. simpl. by rewrite length_fmap.
Qed.

Lemma relu_shaped b n (x : Tensor.t R) : shaped b n x → shaped b n (Tensor.relu x).
Proof. apply pointwise_shaped. Qed.

Lemma mul_shaped b n (x : Tensor.t R) w : shaped b n x → shaped b n (Tensor.mul x w).
Proof. apply pointwise_shaped. Qed.

Lemma zip_with_app_rows (n1 n2 : nat) (d1 d2 : list (list R)) :
  length d1 = length d2 →
  Forall (λ row, length row = n1) d1 → Forall (λ row, length row = n2) d2 →
  length (zip_with app d1 d2) = length d1 ∧
  Forall (λ row, length row = n1 + n2) (zip_with app d1 d2).
Proof.
  revert d2. induction d1 as [|r1 d1 IH]; intros [|r2 d2] Hlen H1 H2;
    simplify_eq/=; [done|].
  apply Forall_cons in H1 as [Hr1 H1]. apply Forall_cons in H2 as [Hr2 H2].
  destruct (IH d2) as [IHl IHr]; [done..|]. split; [by rewrite IHl|].
  constructor; [|done]. rewrite length_app. lia.
Qed.

(** [torch.cat] of three tensors with the same batch size. *)
Lemma cat3_run {S} b n1 n2 n3 (x1 x2 x3 : Tensor.t R) (s : S) :
  shaped b n1 x1 → shaped b n2 x2 → shaped b n3 x3 →
  Tensor.cat [x1; x2; x3] s =
    (s, inr (Tensor.mk (n1 + n2 + n3)
               (zip_with app (zip_with app (Tensor.data x1) (Tensor.data x2))
                             (Tensor.data x3)))) ∧
  shaped b (n1 + n2 + n3)
    (Tensor.mk (n1 + n2 + n3)
       (zip_with app (zip_with app (Tensor.data x1) (Tensor.data x2))
                     (Tensor.data x3))).
Proof.
  intros H1 H2 H3.
  pose proof (shaped_batch _ _ _ H1) as Hb1. pose proof (shaped_batch _ _ _ H2) as Hb2.
  pose proof (shaped_batch _ _ _ H3) as Hb3.
  pose proof (shaped_width _ _ _ H1) as Hw1. pose proof (shaped_width _ _ _ H2) as Hw2.
  pose proof (shaped_width _ _ _ H3) as Hw3.
  split.
  - unfold Tensor.cat. cbn [forallb]. rewrite Hb1, Hb2, Hb3, Nat.eqb_refl. cbn.
    rewrite Hw1, Hw2, Hw3. replace (n1 + (n2 + (n3 + 0))) with (n1 + n2 + n3) by lia. reflexivity.
  - unfold Tensor.batch in *.
    destruct (zip_with_app_rows n1 n2 (Tensor.data x1) (Tensor.data x2)) as [Hl Hr];
      [congruence|by eapply shaped_rows..|].
    destruct (zip_with_app_rows (n1 + n2) n3
                (zip_with app (Tensor.data x1) (Tensor.data x2)) (Tensor.data x3))
      as [Hl' Hr']; [congruence|done|by eapply shaped_rows|].
    apply shaped_intro; simpl; [done|congruence|done].
Qed.

End shapes.

(** ** The layers *)

Section layers.
Context {R G : Type} `{Scalar R} `{Sampler R G}.

Lemma Linear_init_sized (n_in n_out : nat) (w b : R) :
  Linear.sized n_in n_out (Linear.__init__ n_in n_out w b).
Proof.
  repeat split; simpl; rewrite ?length_replicate; try done.
  apply Forall_replicate. by rewrite length_replicate.
Qed.

Lemma Linear_forward_shaped {S} n_in n_out b (l : Linear.t R) (x : Tensor.t R) (s : S) :
  Linear.sized n_in n_out l → shaped b n_in x →
  returns (Linear.forward l x) s (λ s' y, s' = s ∧ shaped b n_out y).
Proof.
  intros ((Hw & Hrows & Hb) & Hin & Hout) Hx. unfold Linear.forward.
  rewrite decide_True by (rewrite Hin; by eapply shaped_width).
  apply returns_ret. split; [done|]. apply shaped_intro; simpl.
  - done.
  - rewrite length_fmap. by eapply shaped_batch.
  - apply Forall_fmap, Forall_forall. intros row _. simpl.
    rewrite length_zip_with, length_fmap. lia.
Qed.

Lemma drop_row_length (rate : R) (row : list R) (g : G) :
  returns (Dropout.drop_row rate row) g (λ _ row', length row' = length row).
Proof.
  revert g. induction row as [|v row IH]; intros g; simpl.
  - by apply returns_ret.
  - eapply returns_bind with (mid := λ _ _, True).
    { unfold returns, Dropout.drop_one, Dropout.draw, mbind, M_bind.
      destruct (sample rate g) as [k g']. by eexists _, _. }
    intros g' v' _. eapply returns_bind; [apply IH|].
    intros g'' rest Hrest. apply returns_ret. simpl. by rewrite Hrest.
Qed.

Lemma drop_rows_shape (rate : R) (n : nat) (rows : list (list R)) (g : G) :
  Forall (λ row, length row = n) rows →
  returns (Dropout.drop_rows rate rows) g
    (λ _ rows', length rows' = length rows ∧ Forall (λ row, length row = n) rows').
Proof.
  revert g. induction rows as [|row rows IH]; intros g Hrows; simpl.
  - by apply returns_ret.
  - apply Forall_cons in Hrows as [Hrow Hrows].
    eapply returns_bind; [apply drop_row_length|].
    intros g' row' Hrow'. eapply returns_bind; [by apply IH|].
    intros g'' rest [Hlen Hrest]. apply returns_ret. simpl. split; [by rewrite Hlen|].
    constructor; [congruence|done].
Qed.

Lemma Dropout_forward_shaped b n (d : Dropout.t R) (x : Tensor.t R) (g : G) :
  shaped b n x → returns (Dropout.forward d x) g (λ _ y, shaped b n y).
Proof.
  intros Hx. unfold Dropout.forward. destruct (Dropout.training d).
  - eapply returns_bind; [apply drop_rows_shape; by eapply shaped_rows|].
    intros g' rows [Hlen Hrows]. apply returns_ret. apply shaped_intro; simpl.
    + by eapply shaped_width.
    + rewrite Hlen. by eapply shaped_batch.
    + done.
  - by apply returns_ret.
Qed.

Lemma Dropout_forward_eval (d : Dropout.t R) (x : Tensor.t R) (g : G) :
  Dropout.training d = false → Dropout.forward d x g = (g, inr x).
Proof. intros Hd. unfold Dropout.forward. by rewrite Hd. Qed.

(** *** Batch normalization *)

Lemma foldl_zip_with_length (f : R → R → R) (n : nat) (acc : list R) (rows : list (list R)) :
  length acc = n → Forall (λ row, length row = n) rows →
  length (foldl (zip_with f) acc rows) = n.
Proof.
  revert acc. induction rows as [|row rows IH]; intros acc Hacc Hrows; simpl; [done|].
  apply Forall_cons in Hrows as [Hrow Hrows]. apply IH; [|done].
  rewrite length_zip_with. lia.
Qed.

Lemma batch_mean_length b n (x : Tensor.t R) :
  shaped b n x → length (BatchNorm1d.batch_mean x) = n.
Proof.
  intros Hx. unfold BatchNorm1d.batch_mean, BatchNorm1d.column_sums.
  rewrite length_fmap. apply foldl_zip_with_length.
  - rewrite length_replicate. by eapply shaped_width.
  - by eapply shaped_rows.
Qed.

Lemma batch_var_sum_length b n (x : Tensor.t R) (mean : list R) :
  shaped b n x → length mean = n → length (BatchNorm1d.batch_var_sum x mean) = n.
Proof.
  intros Hx Hmean. unfold BatchNorm1d.batch_var_sum, BatchNorm1d.column_sums. simpl.
  apply foldl_zip_with_length.
  - rewrite length_replicate. by eapply shaped_width.
  - apply Forall_fmap. eapply Forall_impl; [by eapply shaped_rows|].
    intros row Hrow. simpl in *. rewrite length_zip_with. lia.
Qed.

Lemma batch_var_length b n (x : Tensor.t R) (mean : list R) :
  shaped b n x → length mean = n → length (BatchNorm1d.batch_var x mean) = n.
Proof.
  intros Hx Hmean. unfold BatchNorm1d.batch_var.
  rewrite length_fmap. by eapply batch_var_sum_length.
Qed.

Lemma batch_var_unbiased_length b n (x : Tensor.t R) (mean : list R) :
  shaped b n x → length mean = n → length (BatchNorm1d.batch_var_unbiased x mean) = n.
Proof.
  intros Hx Hmean. unfold BatchNorm1d.batch_var_unbiased.
  rewrite length_fmap. by eapply batch_var_sum_length.
Qed.

Lemma normalize_shaped b n (self : BatchNorm1d.t R) (mean var : list R) (x : Tensor.t R) :
  BatchNorm1d.wf self → BatchNorm1d.num_features self = n →
  length mean = n → length var = n → shaped b n x →
  shaped b n (BatchNorm1d.normalize self mean var x).
Proof.
  intros (Hw & Hb & _ & _) Hn Hmean Hvar Hx. apply shaped_intro; simpl.
  - by eapply shaped_width.
  - rewrite length_fmap. by eapply shaped_batch.
  - apply Forall_fmap. eapply Forall_impl; [by eapply shaped_rows|].
    intros row Hrow. simpl in *. rewrite !length_zip_with. lia.
Qed.

Lemma BatchNorm1d_init_wf (n : nat) : BatchNorm1d.wf (BatchNorm1d.__init__ (R:=R) n).
Proof. repeat split; simpl; by rewrite length_replicate. Qed.

(** A module with a feature answers an input without elements with the
    input; a module without feature raises. *)
Lemma forward_empty_feature {S} (self : BatchNorm1d.t R) (x : Tensor.t R) (s : S) :
  BatchNorm1d.wf self → 0 < BatchNorm1d.num_features self →
  BatchNorm1d.forward_empty self x s = (s, inr x).
Proof.
  intros (Hw & Hb & _ & _) Hn. unfold BatchNorm1d.forward_empty.
  destruct (BatchNorm1d.weight self), (BatchNorm1d.bias self); simpl in *; try lia.
  reflexivity.
Qed.

Lemma forward_empty_no_feature {S} (self : BatchNorm1d.t R) (x : Tensor.t R) (s : S) :
  BatchNorm1d.wf self → BatchNorm1d.num_features self = 0 →
  BatchNorm1d.forward_empty self x s = (s, inl IndexError).
Proof.
  intros (Hw & Hb & _ & _) Hn. unfold BatchNorm1d.forward_empty.
  destruct (BatchNorm1d.weight self); simpl in *; [reflexivity|lia].
Qed.

Lemma forward_empty_state {S} (self : BatchNorm1d.t R) (x : Tensor.t R) (s : S) :
  (BatchNorm1d.forward_empty self x s).1 = s.
Proof.
  unfold BatchNorm1d.forward_empty.
  by destruct (BatchNorm1d.weight self), (BatchNorm1d.bias self).
Qed.

(** In evaluation mode the module is only read. *)
Lemma BatchNorm1d_forward_eval (self : BatchNorm1d.t R) (x : Tensor.t R) :
  BatchNorm1d.training self = false →
  ∃ r, BatchNorm1d.forward x self = (self, r) ∧
       ∀ b, BatchNorm1d.wf self → 0 < BatchNorm1d.num_features self →
            shaped b (BatchNorm1d.num_features self) x →
            ∃ y, r = inr y ∧ shaped b (BatchNorm1d.num_features self) y.
Proof.
  intros Ht. unfold BatchNorm1d.forward, mbind, M_bind, get. rewrite Ht.
  cbn [mret M_ret].
  case_decide as Hsingle; [by destruct Hsingle|].
  case_decide as Hempty.
  { pose proof (forward_empty_state self x self) as Hstate.
    destruct (BatchNorm1d.forward_empty self x self) as [s' r] eqn:Hrun.
    simpl in Hstate. subst s'. exists r. split; [done|]. intros b Hwf Hn Hx.
    rewrite forward_empty_feature in Hrun by done. injection Hrun as <-. by exists x. }
  case_decide as Hw.
  - eexists. split; [reflexivity|]. intros b Hwf _ Hx. eexists. split; [reflexivity|].
    destruct Hwf as (? & ? & ? & ?). by apply normalize_shaped.
  - eexists. split; [reflexivity|]. intros b _ _ Hx.
    destruct Hw. by eapply shaped_width.
Qed.

(** While training, a batch of a single row is refused, after the
    batch was counted. *)
Lemma BatchNorm1d_forward_single_row (self : BatchNorm1d.t R) (x : Tensor.t R) :
  BatchNorm1d.training self = true → Tensor.batch x = 1 →
  BatchNorm1d.forward x self = (BatchNorm1d.count_batch self, inl ValueError).
Proof.
  intros Ht Hb. unfold BatchNorm1d.forward, mbind, M_bind, get, modify.
  rewrite Ht. by rewrite decide_True.
Qed.

Lemma valid_batch_accepted mode b : valid_batch mode b → accepted_batch mode b.
Proof. intros Hb ->. simpl in Hb. lia. Qed.

Lemma BatchNorm1d_forward_shaped b (self : BatchNorm1d.t R) (x : Tensor.t R) :
  BatchNorm1d.wf self → 0 < BatchNorm1d.num_features self →
  accepted_batch (BatchNorm1d.training self) b →
  shaped b (BatchNorm1d.num_features self) x →
  returns (BatchNorm1d.forward x) self (λ self' y,
    BatchNorm1d.wf self' ∧
    BatchNorm1d.num_features self' = BatchNorm1d.num_features self ∧
    BatchNorm1d.training self' = BatchNorm1d.training self ∧
    shaped b (BatchNorm1d.num_features self) y).
Proof.
  intros Hwf Hn Hb Hx. destruct (BatchNorm1d.training self) eqn:Ht.
  - pose proof (shaped_batch _ _ _ Hx) as Hbx. pose proof (shaped_width _ _ _ Hx) as Hwx.
    pose proof (batch_mean_length _ _ _ Hx) as Hmean.
    pose proof (batch_var_length _ _ _ _ Hx Hmean) as Hvar.
    pose proof (batch_var_unbiased_length _ _ _ _ Hx Hmean) as Hunbiased.
    specialize (Hb eq_refl). pose proof Hwf as (Hg & Hbe & Hrm & Hrv).
    unfold returns, BatchNorm1d.forward, mbind, M_bind, get, modify. rewrite Ht.
    rewrite decide_False by (intros [_ ?]; lia).
    case_decide as Hempty.
    { rewrite forward_empty_feature by done. by eexists _, _. }
    rewrite decide_True by done.
    eexists _, _. split; [reflexivity|]. split_and!; simpl; try done.
    + unfold BatchNorm1d.wf, BatchNorm1d.moving; simpl.
      rewrite !length_zip_with. lia.
    + apply normalize_shaped; try done.
  - destruct (BatchNorm1d_forward_eval self x Ht) as (r & Hr & Hshape).
    destruct (Hshape b Hwf Hn Hx) as (y & -> & Hy). by exists self, y.
Qed.

End layers.

(** Names the outcome of the answer to an input without elements, which
    leaves the state as it was. *)
Ltac forward_empty_outcome :=
  match goal with
  | |- context [BatchNorm1d.forward_empty ?self ?x ?s] =>
      let Hstate := fresh "Hstate" in
      pose proof (forward_empty_state self x s) as Hstate;
      destruct (BatchNorm1d.forward_empty self x s) as [? ?];
      simpl in Hstate; subst
  end.

(** ** SubNet *)

Section subnet.
Context {R G : Type} `{Scalar R} `{Sampler R G}.

Lemma SubNet_init_wf (in_size hidden_size : nat) (dropout w b : R) :
  SubNet.wf in_size hidden_size dropout (SubNet.__init__ in_size hidden_size dropout w b).
Proof.
  unfold SubNet.wf, SubNet.__init__; simpl.
  split_and!; try done; [apply BatchNorm1d_init_wf | apply Linear_init_sized..].
Qed.

Lemma SubNet_train_wf (in_size hidden_size : nat) (dropout : R) mode (self : SubNet.t R) :
  SubNet.wf in_size hidden_size dropout self →
  SubNet.wf in_size hidden_size dropout (SubNet.train mode self) ∧
  subnet_in_mode mode (SubNet.train mode self).
Proof.
  intros ((? & ? & ? & ?) & ? & ? & ? & ? & ?). split; [|by split].
  unfold SubNet.wf, BatchNorm1d.wf; simpl. tauto.
Qed.

Lemma SubNet_forward_as_specified (self : SubNet.t R) (g : G) (x : Tensor.t R) :
  SubNet.forward x (self, g) = SubNetSpec.forward self x (self, g).
Proof.
  unfold SubNet.forward, SubNetSpec.forward, chain,
    SubNetSpec.batch_norm, SubNetSpec.dropout, SubNetSpec.linear, SubNetSpec.relu,
    SubNet.on_norm, SubNet.on_generator, zoom, Linear.forward,
    mbind, M_bind, fmap, M_fmap, mret, M_ret, get, raise.
  cbn -[BatchNorm1d.forward Dropout.forward].
  destruct (BatchNorm1d.forward x (SubNet.norm self)) as [norm' [e|normed]];
    cbn -[Dropout.forward]; [done|].
  destruct (Dropout.forward (SubNet.drop self) normed g) as [g' [e|dropped]]; cbn; [done|].
  repeat (case_decide; cbn; [|done]). done.
Qed.

Lemma SubNet_forward_shaped in_size hidden_size dropout mode b
    (self : SubNet.t R) (g : G) (x : Tensor.t R) :
  SubNet.wf in_size hidden_size dropout self → subnet_in_mode mode self →
  0 < in_size → accepted_batch mode b → shaped b in_size x →
  returns (SubNet.forward x) (self, g) (λ s' y,
    SubNet.wf in_size hidden_size dropout s'.1 ∧ subnet_in_mode mode s'.1 ∧
    shaped b hidden_size y).
Proof.
  intros Hwf Hmode Hpos Hb Hx. unfold SubNet.forward.
  set (inv := λ s : SubNet.t R * G,
         SubNet.wf in_size hidden_size dropout s.1 ∧ subnet_in_mode mode s.1).
  eapply returns_bind with (mid := λ s' y, inv s' ∧ shaped b in_size y).
  { destruct Hwf as (Hn & Hnf & Hp & Hl1 & Hl2 & Hl3), Hmode as [Hmn Hmd].
    apply returns_zoom. simpl.
    eapply returns_weaken.
    - apply (BatchNorm1d_forward_shaped b);
        [done|by rewrite Hnf|by rewrite Hmn|by rewrite Hnf].
    - simpl. intros n' y (Hn' & Hnf' & Ht' & Hy). rewrite Hnf in Hy.
      split; [|done]. split; [|split]; simpl; [|congruence|done].
      unfold SubNet.wf; simpl. split_and!; [done|congruence|done..]. }
  intros s1 normed [Hinv Hnormed].
  eapply returns_bind with (mid := λ s' a, s' = s1 ∧ a = s1.1);
    [by apply returns_fmap, returns_get|].
  intros ? self1 [-> ->].
  eapply returns_bind with (mid := λ s' y, inv s' ∧ s'.1 = s1.1 ∧ shaped b in_size y).
  { apply returns_zoom. eapply returns_weaken; [by apply Dropout_forward_shaped|].
    simpl. by intros. }
  intros s2 dropped (Hinv2 & Hs2 & Hdropped).
  destruct Hinv as [(Hn & Hnf & Hp & Hl1 & Hl2 & Hl3) _].
  eapply returns_bind with (mid := λ s' y, s' = s2 ∧ shaped b hidden_size y).
  { apply returns_fmap. eapply returns_weaken; [by eapply Linear_forward_shaped|].
    simpl. intros ? ? [-> ?]. split; [done|]. by apply relu_shaped. }
  intros ? y_1 [-> Hy1].
  eapply returns_bind with (mid := λ s' y, s' = s2 ∧ shaped b hidden_size y).
  { apply returns_fmap. eapply returns_weaken; [by eapply Linear_forward_shaped|].
    simpl. intros ? ? [-> ?]. split; [done|]. by apply relu_shaped. }
  intros ? y_2 [-> Hy2].
  eapply returns_bind with (mid := λ s' y, s' = s2 ∧ shaped b hidden_size y).
  { apply returns_fmap. eapply returns_weaken; [by eapply Linear_forward_shaped|].
    simpl. intros ? ? [-> ?]. split; [done|]. by apply relu_shaped. }
  intros ? y_3 [-> Hy3].
  apply returns_ret. by destruct Hinv2.
Qed.

(** While training, a batch of one row makes the call fail. *)
Lemma SubNet_forward_single_row (self : SubNet.t R) (g : G) (x : Tensor.t R) :
  BatchNorm1d.training (SubNet.norm self) = true → Tensor.batch x = 1 →
  SubNet.forward x (self, g) =
    ((SubNet.set_norm (BatchNorm1d.count_batch (SubNet.norm self)) self, g),
     inl ValueError).
Proof.
  intros Ht Hb. unfold SubNet.forward, SubNet.on_norm, zoom, mbind, M_bind. simpl.
  by rewrite BatchNorm1d_forward_single_row.
Qed.

End subnet.

(** ** ModalityFusion *)

Section fusion.
Context {R : Type} `{Scalar R}.

Lemma ModalityFusion_forward_run {S} b n1 n2 n3 (self : ModalityFusion.t R)
    (text audio video : Tensor.t R) (s : S) :
  shaped b n1 text → shaped b n2 audio → shaped b n3 video →
  ∃ out, ModalityFusion.forward self text audio video s = (s, inr out) ∧
    shaped b (n1 + n2 + n3) out ∧
    ∀ i t a v,
      Tensor.data text !! i = Some t → Tensor.data audio !! i = Some a →
      Tensor.data video !! i = Some v →
      Tensor.data out !! i =
        Some (((λ x, s_mul x (ModalityFusion.weight_1 self)) <$> t) ++
              ((λ x, s_mul x (ModalityFusion.weight_2 self)) <$> a) ++
              ((λ x, s_mul x (ModalityFusion.weight_3 self)) <$> v)).
Proof.
  intros Ht Ha Hv. unfold ModalityFusion.forward.
  destruct (cat3_run (S:=S) b n1 n2 n3
              (Tensor.mul text (ModalityFusion.weight_1 self))
              (Tensor.mul audio (ModalityFusion.weight_2 self))
              (Tensor.mul video (ModalityFusion.weight_3 self)) s)
    as [Hrun Hshape]; [by apply mul_shaped..|].
  eexists. split; [exact Hrun|]. split; [exact Hshape|].
  intros i t a v Hti Hai Hvi. simpl.
  rewrite !lookup_zip_with, !list_lookup_fmap, Hti, Hai, Hvi. simpl.
  by rewrite <-app_assoc.
Qed.

Lemma mul_one (valid : R → Prop) (x : Tensor.t R) :
  (∀ v : R, valid v → s_mul v s_one = v) → Tensor.entries valid x →
  Tensor.mul x s_one = x.
Proof.
  intros Hone Hx. destruct x as [w rows]. unfold Tensor.mul, Tensor.pointwise.
  unfold Tensor.entries in Hx. simpl in *.
  f_equal. rewrite <-(list_fmap_id rows) at 2.
  apply list_fmap_ext. intros i row Hrow. simpl. rewrite <-(list_fmap_id row) at 2.
  apply list_fmap_ext. intros j v Hv. apply Hone.
  rewrite Forall_lookup in Hx. specialize (Hx i row Hrow).
  rewrite Forall_lookup in Hx. by apply (Hx j v).
Qed.

(** The fusion of three tensors of ones. *)
Lemma ModalityFusion_forward_ones {S} (self : ModalityFusion.t R) (b n1 n2 n3 : nat)
    (s : S) :
  ModalityFusion.forward self (Tensor.ones b n1) (Tensor.ones b n2) (Tensor.ones b n3) s =
  (s, inr (Tensor.mk (n1 + n2 + n3)
             (replicate b
                (replicate n1 (s_mul s_one (ModalityFusion.weight_1 self)) ++
                 replicate n2 (s_mul s_one (ModalityFusion.weight_2 self)) ++
                 replicate n3 (s_mul s_one (ModalityFusion.weight_3 self)))))).
Proof.
  unfold ModalityFusion.forward, Tensor.cat, Tensor.mul, Tensor.pointwise,
    Tensor.ones, Tensor.batch. cbn.
  rewrite !length_fmap, !length_replicate, Nat.eqb_refl. cbn.
  rewrite !fmap_replicate, !zip_with_replicate, <-app_assoc, Nat.add_0_r, Nat.add_assoc.
  reflexivity.
Qed.

End fusion.

Lemma float_mul_one_shift (s : bool) (m : positive) (e : Z) :
  bounded prec emax m e = true →
  binary_round_aux prec emax s (Z.pos (4503599627370496 * m)) (e + -52) loc_Exact
  = S754_finite s m e.
Proof.
  unfold bounded, canonical_mantissa. intros Hb.
  apply andb_prop in Hb as [Hc He]. apply Z.eqb_eq in Hc.
  unfold binary_round_aux, shr_fexp.
  change (Z.pos (4503599627370496 * m)) with
    (Z.pos (m~0~0~0~0~0~0~0~0~0~0~0~0~0~0~0~0~0~0~0~0~0~0~0~0~0~0
             ~0~0~0~0~0~0~0~0~0~0~0~0~0~0~0~0~0~0~0~0~0~0~0~0~0~0)).
  assert (Hd : (Zdigits2
     (Z.pos (m~0~0~0~0~0~0~0~0~0~0~0~0~0~0~0~0~0~0~0~0~0~0~0~0~0~0
              ~0~0~0~0~0~0~0~0~0~0~0~0~0~0~0~0~0~0~0~0~0~0~0~0~0~0))
     = Z.pos (digits2_pos m) + 52)%Z).
  { cbn [Zdigits2 digits2_pos]. rewrite !Pos2Z.inj_succ. lia. }
  rewrite Hd.
  replace (Z.pos (digits2_pos m) + 52 + (e + -52))%Z
    with (Z.pos (digits2_pos m) + e)%Z by lia.
  rewrite Hc. replace (e - (e + -52))%Z with 52%Z by lia.
  cbn [shr shr_record_of_loc SpecFloat.iter_pos shr_1 orb shr_m loc_of_shr_record
       shr_r shr_s round_nearest_even].
  replace (e + -52 + 52)%Z with e by lia.
  cbn [Zdigits2]. rewrite Hc, Z.sub_diag.
  cbn [shr shr_m]. by rewrite He.
Qed.

(** Multiplying a float64 by 1.0 returns it, whatever it is (infinities,
    signed zeros and NaN included). *)
Lemma float_mul_one (x : float) : PrimFloat.mul x 1 = x.
Proof.
  apply Prim2SF_inj. rewrite FloatAxioms.mul_spec.
  change (Prim2SF 1) with (S754_finite false 4503599627370496 (-52)).
  pose proof (Prim2SF_valid x) as Hv.
  destruct (Prim2SF x) as [s|s| |s m e]; cbn [SF64mul SFmul].
  1-3: try rewrite xorb_false_r; reflexivity.
  unfold SF64mul, SFmul.
  rewrite xorb_false_r, Pos.mul_comm. apply float_mul_one_shift, Hv.
Qed.

Lemma float32_mul_one_shift (s : bool) (m : positive) (e : Z) :
  bounded 24 128 m e = true →
  binary_round_aux 24 128 s (Z.pos (8388608 * m)) (e + -23) loc_Exact
  = S754_finite s m e.
Proof.
  unfold bounded, canonical_mantissa. intros Hb.
  apply andb_prop in Hb as [Hc He]. apply Z.eqb_eq in Hc.
  unfold binary_round_aux, shr_fexp.
  change (Z.pos (8388608 * m)) with
    (Z.pos (m~0~0~0~0~0~0~0~0~0~0~0~0~0~0~0~0~0~0~0~0~0~0~0)).
  assert (Hd : (Zdigits2
     (Z.pos (m~0~0~0~0~0~0~0~0~0~0~0~0~0~0~0~0~0~0~0~0~0~0~0))
     = Z.pos (digits2_pos m) + 23)%Z).
  { cbn [Zdigits2 digits2_pos]. rewrite !Pos2Z.inj_succ. lia. }
  rewrite Hd.
  replace (Z.pos (digits2_pos m) + 23 + (e + -23))%Z
    with (Z.pos (digits2_pos m) + e)%Z by lia.
  rewrite Hc. replace (e - (e + -23))%Z with 23%Z by lia.
  cbn [shr shr_record_of_loc SpecFloat.iter_pos shr_1 orb shr_m loc_of_shr_record
       shr_r shr_s round_nearest_even].
  replace (e + -23 + 23)%Z with e by lia.
  cbn [Zdigits2]. rewrite Hc, Z.sub_diag.
  cbn [shr shr_m]. by rewrite He.
Qed.

(** The same for float32. *)
Lemma float32_mul_one (x : spec_float) :
  float32_valid x → s_mul x s_one = x.
Proof.
  unfold float32_valid. intros Hv.
  change (SFmul 24 128 x (S754_finite false 8388608 (-23)) = x).
  destruct x as [s|s| |s m e]; cbn [SFmul].
  1-3: try rewrite xorb_false_r; reflexivity.
  rewrite xorb_false_r, Pos.mul_comm. by apply float32_mul_one_shift.
Qed.

(** ** WeightedMultiModalFusionNetwork *)

Section network.
Import config WeightedMultiModalFusionNetwork.
Context {R G : Type} `{Scalar R} `{Sampler R G}.

Lemma Network_init_wf (cfg : config.t R) (speaker_num : nat) (w b : R) :
  wf cfg speaker_num (__init__ cfg speaker_num w b) ∧
  network_in_mode true (__init__ cfg speaker_num w b).
Proof.
  split; [|by repeat split].
  unfold wf, __init__; simpl.
  split_and!; try done; first [apply SubNet_init_wf | apply Linear_init_sized].
Qed.

Lemma Network_train_wf (cfg : config.t R) (speaker_num : nat) mode (self : t R) :
  wf cfg speaker_num self →
  wf cfg speaker_num (train mode self) ∧ network_in_mode mode (train mode self).
Proof.
  intros (Hv & Ha & Ht & Hc & Hs & Hrest). split; [|by repeat split].
  unfold wf; simpl. split_and!; try tauto; by apply SubNet_train_wf.
Qed.

Ltac encode Hwf Hmode Hb :=
  apply returns_zoom; simpl;
  eapply returns_weaken;
  [ eapply SubNet_forward_shaped;
    [apply Hwf | apply Hmode | assumption | exact Hb | eassumption]
  | simpl; intros [? ?] ? (? & ? & ?);
    repeat match goal with x := _ |- _ => subst x end;
    unfold wf, network_in_mode in *; simpl in *; tauto ].

Ltac post_fusion_dropout Hinv :=
  apply returns_zoom; eapply returns_weaken;
  [ by apply Dropout_forward_shaped | simpl; by intros ].

Ltac post_fusion_linear Hinv :=
  eapply returns_weaken;
  [ eapply Linear_forward_shaped; [apply Hinv | eassumption]
  | simpl; intros ? ? [-> ?]; split; [done|]; try apply relu_shaped; done ].

Lemma Network_forward_shaped (cfg : config.t R) (speaker_num : nat) mode b
    (self : t R) (g : G) (text_x video_x audio_x speaker_x context_x : Tensor.t R) :
  wf cfg speaker_num self → network_in_mode mode self →
  input_widths_positive cfg speaker_num → accepted_batch mode b →
  shaped b (TEXT_DIM cfg) text_x → shaped b (VIDEO_DIM cfg) video_x →
  shaped b (AUDIO_DIM cfg) audio_x → shaped b speaker_num speaker_x →
  shaped b (TEXT_DIM cfg) context_x →
  returns (forward text_x video_x audio_x speaker_x context_x) (self, g)
    (λ s' y, wf cfg speaker_num s'.1 ∧ network_in_mode mode s'.1 ∧ shaped b 2 y).
Proof.
  intros Hwf Hmode (Hpt & Hpv & Hpa & Hps) Hb Htext Hvideo Haudio Hspeaker Hcontext.
  unfold forward.
  set (inv := λ s : t R * G, wf cfg speaker_num s.1 ∧ network_in_mode mode s.1).
  eapply returns_bind with (mid := λ s' y, inv s' ∧ shaped b (VIDEO_HIDDEN cfg) y).
  { encode Hwf Hmode Hb. }
  intros s1 video_h [[Hwf1 Hmode1] Hvideo_h].
  eapply returns_bind with (mid := λ s' y, inv s' ∧ shaped b (AUDIO_HIDDEN cfg) y).
  { encode Hwf1 Hmode1 Hb. }
  intros s2 audio_h [[Hwf2 Hmode2] Haudio_h].
  eapply returns_bind with (mid := λ s' y, inv s' ∧ shaped b (TEXT_HIDDEN cfg) y).
  { encode Hwf2 Hmode2 Hb. }
  intros s3 text_h [[Hwf3 Hmode3] Htext_h].
  eapply returns_bind with (mid := λ s' y, inv s' ∧ shaped b (SPEAKER_HIDDEN cfg) y).
  { encode Hwf3 Hmode3 Hb. }
  intros s4 speaker_h [[Hwf4 Hmode4] Hspeaker_h].
  eapply returns_bind with (mid := λ s' y, inv s' ∧ shaped b (CONTEXT_HIDDEN cfg) y).
  { encode Hwf4 Hmode4 Hb. }
  intros s5 context_h [[Hwf5 Hmode5] Hcontext_h].
  eapply returns_bind with (mid := λ s' a, s' = s5 ∧ a = s5.1);
    [by apply returns_fmap, returns_get|].
  intros ? self5 [-> ->].
  pose proof Hwf5 as (_ & _ & _ & _ & _ & _ & Hl1 & Hl2 & Hl3 & Hfc).
  eapply returns_bind with
    (mid := λ s' y, s' = s5 ∧
       shaped b (TEXT_HIDDEN cfg + VIDEO_HIDDEN cfg + AUDIO_HIDDEN cfg) y).
  { destruct (ModalityFusion_forward_run b _ _ _ (fusion s5.1) text_h audio_h video_h s5
                Htext_h Haudio_h Hvideo_h) as (out & Hrun & Hout & _).
    exists s5, out. split; [done|]. split; [done|].
    by replace (TEXT_HIDDEN cfg + VIDEO_HIDDEN cfg + AUDIO_HIDDEN cfg)
      with (TEXT_HIDDEN cfg + AUDIO_HIDDEN cfg + VIDEO_HIDDEN cfg) by lia. }
  intros ? fusion_h [-> Hfusion_h].
  set (inv' := λ s' : t R * G, s'.1 = s5.1).
  eapply returns_bind with (mid := λ s' y, inv' s' ∧ shaped b _ y);
    [post_fusion_dropout Hfusion_h|].
  intros s6 x1 [Hs6 Hx1].
  eapply returns_bind with (mid := λ s' y, s' = s6 ∧ shaped b (POST_FUSION_DIM cfg) y);
    [apply returns_fmap; post_fusion_linear Hl1|].
  intros ? x2 [-> Hx2].
  eapply returns_bind with (mid := λ s' y, inv' s' ∧ shaped b _ y);
    [post_fusion_dropout Hx2|].
  intros s7 x3 [Hs7 Hx3].
  eapply returns_bind with (mid := λ s' y, s' = s7 ∧ shaped b (POST_FUSION_DIM cfg) y);
    [apply returns_fmap; post_fusion_linear Hl2|].
  intros ? x4 [-> Hx4].
  eapply returns_bind with
    (mid := λ s' y, s' = s7 ∧
       shaped b (POST_FUSION_DIM cfg + SPEAKER_HIDDEN cfg + CONTEXT_HIDDEN cfg) y).
  { destruct (cat3_run b _ _ _ x4 speaker_h context_h s7 Hx4 Hspeaker_h Hcontext_h)
      as [Hrun Hout]. by eexists _, _. }
  intros ? late_fusion [-> Hlate].
  eapply returns_bind with (mid := λ s' y, inv' s' ∧ shaped b _ y);
    [post_fusion_dropout Hlate|].
  intros s8 x5 [Hs8 Hx5].
  eapply returns_bind with (mid := λ s' y, s' = s8 ∧ shaped b (POST_FUSION_DIM cfg) y);
    [apply returns_fmap; post_fusion_linear Hl3|].
  intros ? x6 [-> Hx6].
  eapply returns_bind with (mid := λ s' y, inv' s' ∧ shaped b _ y);
    [post_fusion_dropout Hx6|].
  intros s9 x7 [Hs9 Hx7].
  eapply returns_weaken; [eapply Linear_forward_shaped; [apply Hfc|exact Hx7]|].
  simpl. intros ? y [-> Hy]. unfold inv' in Hs9. rewrite Hs9. done.
Qed.

Lemma bind_ext_at {S A B} (m : M S A) (f k : A → M S B) (s : S) :
  (∀ s' a, m s = (s', inr a) → f a s' = k a s') → (m ≫= f) s = (m ≫= k) s.
Proof.
  intros Hfk. unfold mbind, M_bind. destruct (m s) as [s' [e|a]]; [done|]. by apply Hfk.
Qed.

Lemma Network_forward_as_specified (s : t R * G)
    (text_x video_x audio_x speaker_x context_x : Tensor.t R) :
  forward text_x video_x audio_x speaker_x context_x s =
  NetworkSpec.forward text_x video_x audio_x speaker_x context_x s.
Proof.
  unfold forward, NetworkSpec.forward.
  do 7 (apply bind_ext_at; intros ? ? _).
  unfold chain, NetworkSpec.dropout, NetworkSpec.linear, NetworkSpec.relu,
    NetworkSpec.concatenate, on_generator, zoom,
    mbind, M_bind, fmap, M_fmap, mret, M_ret.
  cbn -[Dropout.forward Linear.forward Tensor.cat].
  repeat (match goal with
          | |- context [Dropout.forward ?d ?x ?g] =>
              destruct (Dropout.forward d x g) as [? [?|?]]
          | |- context [Linear.forward ?l ?x ?s] =>
              destruct (Linear.forward l x s) as [? [?|?]]
          | |- context [Tensor.cat ?l ?s] =>
              destruct (Tensor.cat l s) as [? [?|?]]
          end; cbn -[Dropout.forward Linear.forward Tensor.cat]; try done).
Qed.

(** *** Evaluation mode *)

Lemma quiet_ret {N A} (a : A) (n : N) : quiet (G:=G) (mret a) n.
Proof. by exists (inr a). Qed.

Lemma quiet_bind {N A B} (m : M (N * G) A) (f : A → M (N * G) B) (n : N) (g0 : G) :
  quiet m n → (∀ a, m (n, g0) = ((n, g0), inr a) → quiet (f a) n) →
  quiet (m ≫= f) n.
Proof.
  intros [[e|a] Hm] Hf.
  - exists (inl e). intros g. unfold mbind, M_bind. by rewrite Hm.
  - destruct (Hf a (Hm g0)) as [r Hr]. exists r. intros g. unfold mbind, M_bind.
    by rewrite Hm.
Qed.

Lemma quiet_fmap {N A B} (m : M (N * G) A) (f : A → B) (n : N) :
  quiet m n → quiet (f <$> m) n.
Proof.
  intros [[e|a] Hm].
  - exists (inl e). intros g. unfold fmap, M_fmap. by rewrite Hm.
  - exists (inr (f a)). intros g. unfold fmap, M_fmap. by rewrite Hm.
Qed.

Lemma quiet_self {N} (n : N) : quiet (G:=G) (fst <$> get) n.
Proof. by exists (inr n). Qed.

Lemma quiet_linear {N} (l : Linear.t R) (x : Tensor.t R) (n : N) :
  quiet (G:=G) (Linear.forward l x) n.
Proof.
  unfold Linear.forward. case_decide; [apply quiet_ret|]. by exists (inl RuntimeError).
Qed.

Lemma quiet_cat {N} (l : list (Tensor.t R)) (n : N) : quiet (G:=G) (Tensor.cat l) n.
Proof.
  unfold Tensor.cat. destruct l as [|x rest]; [by exists (inl RuntimeError)|].
  destruct (forallb _ _); [apply quiet_ret|]. by exists (inl RuntimeError).
Qed.

Lemma quiet_dropout {N} (d : Dropout.t R) (x : Tensor.t R) (n : N) :
  Dropout.training d = false →
  quiet (zoom snd (λ g (s : N * G), (s.1, g)) (Dropout.forward d x)) n.
Proof.
  intros Hd. exists (inr x). intros g. unfold zoom. simpl.
  by rewrite Dropout_forward_eval.
Qed.

Lemma quiet_subnet (x : Tensor.t R) (self : SubNet.t R) (g0 : G) :
  subnet_in_mode false self → quiet (SubNet.forward x) self.
Proof.
  intros [Hn Hd]. unfold SubNet.forward.
  apply (quiet_bind _ _ _ g0).
  { destruct (BatchNorm1d_forward_eval (SubNet.norm self) x Hn) as (r & Hr & _).
    exists r. intros g. unfold SubNet.on_norm, zoom. simpl. rewrite Hr.
    by destruct self. }
  intros normed _. apply (quiet_bind _ _ _ g0); [apply quiet_self|].
  intros ? [= <-].
  apply (quiet_bind _ _ _ g0); [by apply quiet_dropout|]. intros dropped _.
  apply (quiet_bind _ _ _ g0); [apply quiet_fmap, quiet_linear|]. intros y_1 _.
  apply (quiet_bind _ _ _ g0); [apply quiet_fmap, quiet_linear|]. intros y_2 _.
  apply (quiet_bind _ _ _ g0); [apply quiet_fmap, quiet_linear|]. intros y_3 _.
  apply quiet_ret.
Qed.

Lemma quiet_on_subnet {A} (proj : t R → SubNet.t R) (upd : SubNet.t R → t R → t R)
    (m : M (SubNet.t R * G) A) (self : t R) :
  upd (proj self) self = self → quiet m (proj self) →
  quiet (on_subnet proj upd m) self.
Proof.
  intros Hupd [r Hr]. exists r. intros g. unfold on_subnet, zoom. simpl.
  rewrite Hr. simpl. by rewrite Hupd.
Qed.

Lemma quiet_network (self : t R) (g0 : G)
    (text_x video_x audio_x speaker_x context_x : Tensor.t R) :
  network_in_mode false self →
  quiet (forward text_x video_x audio_x speaker_x context_x) self.
Proof.
  intros (Hv & Ha & Ht & Hc & Hs & Hd). unfold forward.
  do 5 (apply (quiet_bind _ _ _ g0);
        [apply quiet_on_subnet; [by destruct self|by apply quiet_subnet]|];
        intros ? _).
  apply (quiet_bind _ _ _ g0); [apply quiet_self|]. intros ? [= <-].
  apply (quiet_bind _ _ _ g0); [apply quiet_cat|]. intros fusion_h _.
  apply (quiet_bind _ _ _ g0); [by apply quiet_dropout|]. intros x1 _.
  apply (quiet_bind _ _ _ g0); [apply quiet_fmap, quiet_linear|]. intros x2 _.
  apply (quiet_bind _ _ _ g0); [by apply quiet_dropout|]. intros x3 _.
  apply (quiet_bind _ _ _ g0); [apply quiet_fmap, quiet_linear|]. intros x4 _.
  apply (quiet_bind _ _ _ g0); [apply quiet_cat|]. intros late_fusion _.
  apply (quiet_bind _ _ _ g0); [by apply quiet_dropout|]. intros x5 _.
  apply (quiet_bind _ _ _ g0); [apply quiet_fmap, quiet_linear|]. intros x6 _.
  apply (quiet_bind _ _ _ g0); [by apply quiet_dropout|]. intros x7 _.
  apply quiet_linear.
Qed.

End network.

(** * The claims about network.py *)

(** Claim C1, as stated, fails: the network as constructed is in
    training mode, and on correctly dimensioned inputs of one row each
    [forward] raises [ValueError] (from the batch normalization of the
    first SubNet) instead of returning a tensor. *)
Lemma forward_single_row_training_fails :
  WeightedMultiModalFusionNetwork.wf Demo.cfg 2 Demo.network ∧
  shaped 1 4 (Demo.text_x 1) ∧ shaped 1 3 (Demo.video_x 1) ∧
  shaped 1 2 (Demo.audio_x 1) ∧ shaped 1 2 (Demo.speaker_x 1) ∧
  shaped 1 4 (Demo.context_x 1) ∧
  snd (WeightedMultiModalFusionNetwork.forward
         (Demo.text_x 1) (Demo.video_x 1) (Demo.audio_x 1)
         (Demo.speaker_x 1) (Demo.context_x 1) (Demo.network, Demo.draws))
    = inl ValueError.
Proof.
  split; [apply Network_init_wf|].
  split_and!; try (split; [repeat constructor|reflexivity]).
  vm_compute. reflexivity.
Qed.

(** Claim C1, amended.  For a network with the layer sizes its
    constructor gives it, in training or in evaluation mode, whose four
    input widths (TEXT_DIM, VIDEO_DIM, AUDIO_DIM, speaker_num) are at
    least one, and five inputs of the configured widths with the same
    number of rows, any number but a single row while training (the
    empty batch included): [forward] is the pipeline of the
    specification (every input through its own SubNet, text, audio and
    video fused, then dropout, linear, ReLU, dropout, linear, ReLU,
    concatenation with the speaker and context encodings, dropout,
    linear, ReLU, dropout, and the final linear layer without
    activation), and it returns a tensor of shape (batch, 2).  Both
    conditions are needed: a single row while training makes the
    normalization raise [ValueError], and a network with an input of
    no column raises [IndexError] ([Network_forward_no_feature]). *)
Theorem forward_pipeline_and_shape {R G : Type} `{Scalar R} `{Sampler R G}
    (cfg : config.t R) (speaker_num : nat) (mode : bool) (b : nat)
    (self : WeightedMultiModalFusionNetwork.t R) (g : G)
    (text_x video_x audio_x speaker_x context_x : Tensor.t R) :
  WeightedMultiModalFusionNetwork.wf cfg speaker_num self →
  input_widths_positive cfg speaker_num →
  accepted_batch mode b →
  shaped b (config.TEXT_DIM cfg) text_x →
  shaped b (config.VIDEO_DIM cfg) video_x →
  shaped b (config.AUDIO_DIM cfg) audio_x →
  shaped b speaker_num speaker_x →
  shaped b (config.TEXT_DIM cfg) context_x →
  let s := (WeightedMultiModalFusionNetwork.train mode self, g) in
  WeightedMultiModalFusionNetwork.forward text_x video_x audio_x speaker_x context_x s
    = NetworkSpec.forward text_x video_x audio_x speaker_x context_x s ∧
  ∃ s' y,
    WeightedMultiModalFusionNetwork.forward text_x video_x audio_x speaker_x context_x s
      = (s', inr y) ∧
    Tensor.ok y ∧ Tensor.shape y = (b, 2).
Proof.
  intros Hwf Hpos Hb Ht Hv Ha Hs Hc s. split; [apply Network_forward_as_specified|].
  destruct (Network_train_wf cfg speaker_num mode self Hwf) as [Hwf' Hmode].
  destruct (Network_forward_shaped cfg speaker_num mode b _ g _ _ _ _ _
              Hwf' Hmode Hpos Hb Ht Hv Ha Hs Hc) as (s' & y & Hrun & _ & _ & Hok & Hshape).
  by exists s', y.
Qed.

Lemma forward_pipeline_and_shape_witness :
  ∃ s' y,
    WeightedMultiModalFusionNetwork.forward
      (Demo.text_x 2) (Demo.video_x 2) (Demo.audio_x 2)
      (Demo.speaker_x 2) (Demo.context_x 2)
      (WeightedMultiModalFusionNetwork.train true Demo.network, Demo.draws)
      = (s', inr y) ∧
    Tensor.ok y ∧ Tensor.shape y = (2, 2).
Proof.
  refine (proj2 (forward_pipeline_and_shape Demo.cfg 2 true 2 Demo.network Demo.draws
            (Demo.text_x 2) (Demo.video_x 2) (Demo.audio_x 2)
            (Demo.speaker_x 2) (Demo.context_x 2) _ _ _ _ _ _ _ _)).
  - apply Network_init_wf.
  - unfold input_widths_positive. simpl. lia.
  - intros _. lia.
  - split; [repeat constructor|reflexivity].
  - split; [repeat constructor|reflexivity].
  - split; [repeat constructor|reflexivity].
  - split; [repeat constructor|reflexivity].
  - split; [repeat constructor|reflexivity].
Defined.

(** Claim C2.  On three tensors with the same number of rows,
    [ModalityFusion.forward] returns a tensor whose width is the sum of
    the three widths and whose every row is the text row times
    weight_1, then the audio row times weight_2, then the video row
    times weight_3.  With the weights 2, 3 and 5 and inputs of ones,
    in float64 and in float32, every row is 2 over the text columns,
    3 over the audio columns and 5 over the video columns. *)
Theorem ModalityFusion_forward_weighted_concat :
  (∀ {R S : Type} `{Scalar R} (self : ModalityFusion.t R) (b n1 n2 n3 : nat)
     (text audio video : Tensor.t R) (s : S),
     shaped b n1 text → shaped b n2 audio → shaped b n3 video →
     ∃ out, ModalityFusion.forward self text audio video s = (s, inr out) ∧
       Tensor.ok out ∧ Tensor.shape out = (b, n1 + n2 + n3) ∧
       ∀ i t a v,
         Tensor.data text !! i = Some t → Tensor.data audio !! i = Some a →
         Tensor.data video !! i = Some v →
         Tensor.data out !! i =
           Some (((λ x, s_mul x (ModalityFusion.weight_1 self)) <$> t) ++
                 ((λ x, s_mul x (ModalityFusion.weight_2 self)) <$> a) ++
                 ((λ x, s_mul x (ModalityFusion.weight_3 self)) <$> v))) ∧
  (∀ {S : Type} (b n1 n2 n3 : nat) (s : S),
     ModalityFusion.forward (ModalityFusion.mk 2 3 5)%float
       (Tensor.ones b n1) (Tensor.ones b n2) (Tensor.ones b n3) s =
     (s, inr (Tensor.mk (n1 + n2 + n3)
                (replicate b (replicate n1 2 ++ replicate n2 3 ++ replicate n3 5)%float)))) ∧
  (∀ {S : Type} (b n1 n2 n3 : nat) (s : S),
     ModalityFusion.forward (R:=spec_float)
       (ModalityFusion.mk (s_of_Z 2) (s_of_Z 3) (s_of_Z 5))
       (Tensor.ones b n1) (Tensor.ones b n2) (Tensor.ones b n3) s =
     (s, inr (Tensor.mk (n1 + n2 + n3)
                (replicate b (replicate n1 (s_of_Z 2) ++ replicate n2 (s_of_Z 3) ++
                              replicate n3 (s_of_Z 5)))))).
Proof.
  split_and!.
  - intros R S HR self b n1 n2 n3 text audio video s Ht Ha Hv.
    destruct (ModalityFusion_forward_run b n1 n2 n3 self text audio video s Ht Ha Hv)
      as (out & Hrun & [Hok Hshape] & Hrows).
    by exists out.
  - intros S b n1 n2 n3 s. by rewrite ModalityFusion_forward_ones.
  - intros S b n1 n2 n3 s. by rewrite ModalityFusion_forward_ones.
Qed.

Lemma ModalityFusion_forward_weighted_concat_witness :
  ∃ out,
    ModalityFusion.forward (S:=unit) (ModalityFusion.mk 2 3 5)%float
      (Demo.constant 2 1 1) (Demo.constant 2 2 1) (Demo.constant 2 3 1) tt
      = (tt, inr out) ∧
    Tensor.ok out ∧ Tensor.shape out = (2, 1 + 2 + 3) ∧
    ∀ i t a v,
      Tensor.data (Demo.constant 2 1 1%float) !! i = Some t →
      Tensor.data (Demo.constant 2 2 1%float) !! i = Some a →
      Tensor.data (Demo.constant 2 3 1%float) !! i = Some v →
      Tensor.data out !! i =
        Some (((λ x, PrimFloat.mul x 2) <$> t) ++ ((λ x, PrimFloat.mul x 3) <$> a) ++
              ((λ x, PrimFloat.mul x 5) <$> v)).
Proof.
  apply (proj1 ModalityFusion_forward_weighted_concat float unit float_scalar
           (ModalityFusion.mk 2 3 5)%float 2 1 2 3);
    (split; [repeat constructor|reflexivity]).
Defined.

(** Claim C3, as stated, fails at batch = 1: a SubNet as constructed
    is in training mode, and on an input of shape (1, in_size) its
    batch normalization raises [ValueError], after counting the batch. *)
Lemma SubNet_forward_single_row_training_fails :
  SubNet.wf 2 3 0.5%float Demo.subnet ∧
  shaped 1 2 (Demo.constant 1 2 1%float) ∧
  SubNet.forward (Demo.constant 1 2 1%float) (Demo.subnet, Demo.draws) =
    ((SubNet.set_norm (BatchNorm1d.count_batch (SubNet.norm Demo.subnet)) Demo.subnet,
      Demo.draws), inl ValueError).
Proof.
  split; [apply SubNet_init_wf|]. split; [split; [repeat constructor|reflexivity]|].
  by apply SubNet_forward_single_row.
Qed.

(** Claim C3, amended.  For a SubNet with the layer sizes its
    constructor gives it, in training or in evaluation mode, of at
    least one input feature, and an input of shape (batch, in_size)
    with batch >= 1, and batch >= 2 while training: [forward] is batch
    normalization, then dropout, then three linear layers each followed
    by ReLU, and it returns a tensor of shape (batch, hidden_size),
    whatever in_size >= 1 and hidden_size are.  Both conditions are
    needed: a single row while training makes the normalization raise
    [ValueError], and a SubNet of no input feature raises [IndexError]
    ([SubNet_forward_no_feature]). *)
Theorem SubNet_forward_steps_and_shape {R G : Type} `{Scalar R} `{Sampler R G}
    (in_size hidden_size : nat) (dropout : R) (mode : bool) (b : nat)
    (self : SubNet.t R) (g : G) (x : Tensor.t R) :
  SubNet.wf in_size hidden_size dropout self → 0 < in_size →
  valid_batch mode b → shaped b in_size x →
  let s := (SubNet.train mode self, g) in
  SubNet.forward x s = SubNetSpec.forward (SubNet.train mode self) x s ∧
  ∃ s' y, SubNet.forward x s = (s', inr y) ∧
          Tensor.ok y ∧ Tensor.shape y = (b, hidden_size).
Proof.
  intros Hwf Hpos Hb Hx s. split; [apply SubNet_forward_as_specified|].
  destruct (SubNet_train_wf in_size hidden_size dropout mode self Hwf) as [Hwf' Hmode].
  destruct (SubNet_forward_shaped in_size hidden_size dropout mode b _ g x
              Hwf' Hmode Hpos (valid_batch_accepted _ _ Hb) Hx)
    as (s' & y & Hrun & _ & _ & Hok & Hshape).
  by exists s', y.
Qed.

Lemma SubNet_forward_steps_and_shape_witness :
  ∃ s' y,
    SubNet.forward (Demo.constant 2 2 1%float) (SubNet.train true Demo.subnet, Demo.draws)
      = (s', inr y) ∧
    Tensor.ok y ∧ Tensor.shape y = (2, 3).
Proof.
  refine (proj2 (SubNet_forward_steps_and_shape 2 3 0.5%float true 2 Demo.subnet
                   Demo.draws (Demo.constant 2 2 1%float) _ _ _ _)).
  - apply SubNet_init_wf.
  - lia.
  - simpl. lia.
  - split; [repeat constructor|reflexivity].
Defined.

(** Claim C4.  In evaluation mode [forward] is deterministic: a call
    leaves the network and the random generator as they were, and its
    outcome does not depend on the generator, so that two calls on the
    same inputs have the same outcome. *)
Theorem forward_deterministic_in_eval {R G : Type} `{Scalar R} `{Sampler R G}
    (self : WeightedMultiModalFusionNetwork.t R) (g1 g2 : G)
    (text_x video_x audio_x speaker_x context_x : Tensor.t R) :
  ∃ out,
    WeightedMultiModalFusionNetwork.forward text_x video_x audio_x speaker_x context_x
      (WeightedMultiModalFusionNetwork.eval self, g1)
      = ((WeightedMultiModalFusionNetwork.eval self, g1), out) ∧
    WeightedMultiModalFusionNetwork.forward text_x video_x audio_x speaker_x context_x
      (WeightedMultiModalFusionNetwork.eval self, g2)
      = ((WeightedMultiModalFusionNetwork.eval self, g2), out).
Proof.
  destruct (quiet_network (WeightedMultiModalFusionNetwork.eval self) g1
              text_x video_x audio_x speaker_x context_x) as [out Hout].
  { by repeat split. }
  exists out. by rewrite !Hout.
Qed.

(** Claim C9.  A [ModalityFusion] as constructed has its three weights
    equal to one, and its [forward] is then the plain concatenation of
    text, audio and video: for every element type and tensors of values
    that multiplying by one leaves as they are, and so for all float64
    tensors and all float32 tensors. *)
Theorem fresh_ModalityFusion_concatenates :
  (∀ {R S : Type} `{Scalar R} (valid : R → Prop) (text audio video : Tensor.t R) (s : S),
     (∀ v : R, valid v → s_mul v s_one = v) →
     Tensor.entries valid text → Tensor.entries valid audio →
     Tensor.entries valid video →
     ModalityFusion.weight_1 (ModalityFusion.__init__ (R:=R)) = s_one ∧
     ModalityFusion.weight_2 (ModalityFusion.__init__ (R:=R)) = s_one ∧
     ModalityFusion.weight_3 (ModalityFusion.__init__ (R:=R)) = s_one ∧
     ModalityFusion.forward ModalityFusion.__init__ text audio video s =
       Tensor.cat [text; audio; video] s) ∧
  (∀ {S : Type} (text audio video : Tensor.t float) (s : S),
     ModalityFusion.forward ModalityFusion.__init__ text audio video s =
       Tensor.cat [text; audio; video] s) ∧
  (∀ {S : Type} (text audio video : Tensor.t spec_float) (s : S),
     Tensor.entries float32_valid text → Tensor.entries float32_valid audio →
     Tensor.entries float32_valid video →
     ModalityFusion.forward ModalityFusion.__init__ text audio video s =
       Tensor.cat [text; audio; video] s).
Proof.
  assert (Hgen : ∀ {R S : Type} `{Scalar R} (valid : R → Prop)
                   (text audio video : Tensor.t R) (s : S),
     (∀ v : R, valid v → s_mul v s_one = v) →
     Tensor.entries valid text → Tensor.entries valid audio →
     Tensor.entries valid video →
     ModalityFusion.forward ModalityFusion.__init__ text audio video s =
       Tensor.cat [text; audio; video] s).
  { intros R S HR valid text audio video s Hone Ht Ha Hv.
    unfold ModalityFusion.forward, ModalityFusion.__init__.
    cbn [ModalityFusion.weight_1 ModalityFusion.weight_2 ModalityFusion.weight_3].
    by rewrite !(mul_one valid). }
  split_and!.
  - intros R S HR valid text audio video s Hone Ht Ha Hv.
    split_and!; try reflexivity. by apply (Hgen _ _ _ valid).
  - intros S text audio video s.
    apply (Hgen _ _ _ (λ _, True)); [intros; apply float_mul_one|..];
      by apply Forall_forall; intros; apply Forall_forall.
  - intros S text audio video s Ht Ha Hv.
    by apply (Hgen _ _ _ float32_valid); [intros; apply float32_mul_one|..].
Qed.

Lemma fresh_ModalityFusion_concatenates_witness :
  ModalityFusion.forward (S:=unit) ModalityFusion.__init__
    (Demo.constant 2 1 0.5%float) (Demo.constant 2 2 3%float) (Demo.constant 2 3 7%float) tt
  = (tt, inr (Tensor.mk 6 (replicate 2 [0.5; 3; 3; 7; 7; 7]%float))).
Proof.
  refine (eq_trans (proj2 (proj2 (proj2
    (proj1 fresh_ModalityFusion_concatenates float unit float_scalar (λ _, True)
       (Demo.constant 2 1 0.5%float) (Demo.constant 2 2 3%float)
       (Demo.constant 2 3 7%float) tt (λ v _, float_mul_one v) _ _ _)))) _);
    [repeat constructor..|reflexivity].
Defined.

(** In training mode the outcome does depend on the draws: the same
    network on the same inputs returns different tensors for different
    recorded draws. *)
Lemma forward_training_depends_on_draws :
  snd (WeightedMultiModalFusionNetwork.forward
         (Demo.text_x 2) (Demo.video_x 2) (Demo.audio_x 2)
         (Demo.speaker_x 2) (Demo.context_x 2) (Demo.network, [])) ≠
  snd (WeightedMultiModalFusionNetwork.forward
         (Demo.text_x 2) (Demo.video_x 2) (Demo.audio_x 2)
         (Demo.speaker_x 2) (Demo.context_x 2) (Demo.network, Demo.draws)).
Proof.
  intros Heq.
  apply (f_equal (λ r, PrimFloat.ltb (Demo.probe r) 12.8)) in Heq.
  vm_compute in Heq. discriminate.
Qed.

(** * Further properties of results.py *)

(** Property X1.  [add_result] appends: after any sequence of calls on
    any object, [fold_results] is what it was, followed by the added
    results in the order of the calls. *)
Theorem add_result_appends_in_order (self : IterationResults.t) (rs : list Result.t) :
  IterationResults.fold_results
    (foldl (λ self result, IterationResults.add_result result self) self rs)
  = IterationResults.fold_results self ++ rs.
Proof.
  revert self. induction rs as [|r rs IH]; intros self; simpl.
  - by rewrite app_nil_r.
  - rewrite IH. simpl. by rewrite <-app_assoc.
Qed.

(** Property X2.  A call of [set_values_from_classification_report] that
    returns leaves nothing of the object's earlier values: the object
    it leaves is the same whatever object it was called on. *)
Theorem set_values_overwrites_everything (cr : report) (self self' other : Result.t) :
  Result.set_values_from_classification_report cr self = (self', inr tt) →
  Result.set_values_from_classification_report cr other = (self', inr tt).
Proof.
  rewrite !set_values_run.
  repeat (match goal with
          | |- context [?m !! ?k] => destruct (m !! k) eqn:?
          end; cbn); try by intros [= ?].
  intros [= <-]. reflexivity.
Qed.

Lemma set_values_overwrites_everything_witness :
  Result.set_values_from_classification_report example_report
    (Result.mk (VInt 7) (VInt 7) (VInt 7) (VInt 7) (VInt 7))
  = (Result.mk (VFloat 0.9) (VInt 3) (VFloat 0.8) (VFloat 0.7) (VFloat 0.75), inr tt).
Proof.
  apply (set_values_overwrites_everything example_report Result.zeroed).
  vm_compute. reflexivity.
Defined.

(** Property X3.  Constructing a [Result] from a report raises
    [KeyError] with the first key that is missing, in the order of the
    method's subscriptions ("weighted avg" and its "f1-score",
    "precision", "recall", then "best_result" and its "best_acc",
    "best_epoch"); it returns exactly when none is missing. *)
Theorem KeyError_names_first_missing_key (cr : report) :
  (∀ key, Result.__init__ (Some cr) = inl (KeyError key) ↔ first_missing cr = Some key) ∧
  ((∃ self, Result.__init__ (Some cr) = inr self) ↔ first_missing cr = None).
Proof.
  unfold Result.__init__. rewrite set_values_run.
  unfold first_missing, subscriptions, missing_key. simpl.
  repeat (match goal with
          | |- context [?m !! ?k] => destruct (m !! k) eqn:?
          end; simpl).
  all: split; [intros key; split; intros ?; by simplify_eq|].
  all: split; [intros [? ?]; by simplify_eq|intros ?; simplify_eq; eauto].
Qed.




(** ** The mean of a single value *)








(** * network.py: outcomes and frames *)

(** ** Outcomes *)

Section outcomes.
Context {S : Type}.

Lemma raises_bind_l {A B} (m : M S A) (f : A → M S B) s e :
  raises m s e → raises (m ≫= f) s e.
Proof.
  unfold raises, mbind, M_bind. destruct (m s) as [s' [e'|a]]; simpl.
  - by intros [= ->].
  - intros [=].
Qed.

Lemma raises_bind_r {A B} (m : M S A) (f : A → M S B) s s' a e :
  m s = (s', inr a) → raises (f a) s' e → raises (m ≫= f) s e.
Proof. intros Hm Hf. unfold raises. by rewrite (bind_inr _ _ _ _ _ Hm). Qed.

Lemma raises_fmap {A B} (m : M S A) (f : A → B) s e :
  raises m s e → raises (f <$> m) s e.
Proof.
  unfold raises, fmap, M_fmap. destruct (m s) as [s' [e'|a]]; simpl.
  - by intros [= ->].
  - intros [=].
Qed.

Lemma raises_zoom {T A} (proj : S → T) (upd : T → S → S) (m : M T A) s e :
  raises m (proj s) e → raises (zoom proj upd m) s e.
Proof. unfold raises, zoom. by destruct (m (proj s)) as [t' r]. Qed.

Lemma bind_returns_inv {A B} (m : M S A) (f : A → M S B) s s' b :
  (m ≫= f) s = (s', inr b) → ∃ s1 a, m s = (s1, inr a) ∧ f a s1 = (s', inr b).
Proof.
  unfold mbind, M_bind. destruct (m s) as [s1 [e|a]]; [intros [=]|].
  intros Hf. by exists s1, a.
Qed.

Lemma fmap_returns_inv {A B} (m : M S A) (f : A → B) s s' b :
  (f <$> m) s = (s', inr b) → ∃ a, m s = (s', inr a) ∧ b = f a.
Proof.
  unfold fmap, M_fmap. destruct (m s) as [s1 [e|a]]; intros [=]. subst. by exists a.
Qed.

End outcomes.

(** ** What a call keeps *)

Section keeps.
Context {S : Type} (rel : S → S → Prop) `{!PreOrder rel}.

Lemma keeps_ret {A} (a : A) : keeps rel (mret a).
Proof. intros s s' r [= <- _]. reflexivity. Qed.

Lemma keeps_raise {A} (e : exn) : keeps rel (raise (A:=A) e).
Proof. intros s s' r [= <- _]. reflexivity. Qed.

Lemma keeps_bind {A B} (m : M S A) (f : A → M S B) :
  keeps rel m → (∀ a, keeps rel (f a)) → keeps rel (m ≫= f).
Proof.
  intros Hm Hf s s' r. unfold mbind, M_bind.
  destruct (m s) as [s1 [e|a]] eqn:Hrun.
  - intros [= <- _]. by eapply Hm.
  - intros Hrun'. etransitivity; [by eapply Hm|by eapply Hf].
Qed.

Lemma keeps_fmap {A B} (m : M S A) (f : A → B) : keeps rel m → keeps rel (f <$> m).
Proof.
  intros Hm s s' r. unfold fmap, M_fmap.
  destruct (m s) as [s1 [e|a]] eqn:Hrun; intros [= <- _]; by eapply Hm.
Qed.

Lemma keeps_get : keeps rel get.
Proof. intros s s' r [= <- _]. reflexivity. Qed.

Lemma keeps_zoom {T A} (sub : T → T → Prop) (proj : S → T) (upd : T → S → S)
    (m : M T A) :
  keeps sub m → (∀ s t', sub (proj s) t' → rel s (upd t' s)) →
  keeps rel (zoom proj upd m).
Proof.
  intros Hm Hupd s s' r. unfold zoom.
  destruct (m (proj s)) as [t' r'] eqn:Hrun. intros [= <- _].
  by eapply Hupd, Hm.
Qed.

End keeps.

Section frame.
Context {R G : Type} `{Scalar R} `{Sampler R G}.

#[local] Instance on_module_preorder {N} (rel : N → N → Prop) `{!PreOrder rel} :
  PreOrder (on_module (G:=G) rel).
Proof.
  split.
  - intros a. unfold on_module. reflexivity.
  - intros a b c ? ?. unfold on_module in *. by etransitivity.
Qed.

#[local] Instance same_norm_preorder : PreOrder (same_norm (R:=R)).
Proof.
  split.
  - by intros a.
  - intros a b c (? & ? & ? & ? & ? & ?) (? & ? & ? & ? & ? & ?).
    repeat split; congruence.
Qed.

#[local] Instance same_subnet_preorder : PreOrder (same_subnet (R:=R)).
Proof.
  split.
  - intros a. by repeat split.
  - intros a b c (? & ? & ? & ? & ?) (? & ? & ? & ? & ?).
    split; [by etransitivity|]. repeat split; congruence.
Qed.

#[local] Instance same_network_preorder : PreOrder (same_network (R:=R)).
Proof.
  split.
  - intros a. by repeat split.
  - intros a b c (? & ? & ? & ? & ? & ? & ? & ? & ? & ? & ?)
      (? & ? & ? & ? & ? & ? & ? & ? & ? & ? & ?).
    split_and!; first [by etransitivity | congruence].
Qed.

Lemma Linear_forward_keeps {S} (rel : S → S → Prop) `{!PreOrder rel}
    (l : Linear.t R) (x : Tensor.t R) : keeps rel (Linear.forward l x).
Proof. unfold Linear.forward. case_decide; [apply keeps_ret|apply keeps_raise]; done. Qed.

Lemma cat_keeps {S} (rel : S → S → Prop) `{!PreOrder rel} (l : list (Tensor.t R)) :
  keeps rel (Tensor.cat l).
Proof.
  unfold Tensor.cat. destruct l; [by apply keeps_raise|].
  destruct (forallb _ _); [apply keeps_ret|apply keeps_raise]; done.
Qed.

Lemma BatchNorm1d_forward_keeps (x : Tensor.t R) :
  keeps same_norm (BatchNorm1d.forward x).
Proof.
  intros s s' r. unfold BatchNorm1d.forward, mbind, M_bind, get, modify, mret, M_ret, raise.
  destruct (BatchNorm1d.training s) eqn:Ht; simpl;
    repeat case_decide; try forward_empty_outcome; intros [= <- _]; by repeat split.
Qed.

Lemma SubNet_on_generator_keeps {A} (rel : SubNet.t R → SubNet.t R → Prop)
    `{!PreOrder rel} (m : M G A) :
  keeps (on_module rel) (SubNet.on_generator m).
Proof.
  apply (keeps_zoom (on_module rel) (λ _ _, True)); [by intros ? ? ? ?|].
  intros s g' _. unfold on_module. simpl. reflexivity.
Qed.

(** The steps of [SubNet.forward] after the normalization. *)
Lemma SubNet_forward_rest_keeps (rel : SubNet.t R → SubNet.t R → Prop) `{!PreOrder rel}
    (normed : Tensor.t R) :
  keeps (on_module rel)
    (self ← fst <$> get;
     dropped ← SubNet.on_generator (Dropout.forward (SubNet.drop self) normed);
     y_1 ← Tensor.relu <$> Linear.forward (SubNet.linear_1 self) dropped;
     y_2 ← Tensor.relu <$> Linear.forward (SubNet.linear_2 self) y_1;
     y_3 ← Tensor.relu <$> Linear.forward (SubNet.linear_3 self) y_2;
     mret y_3).
Proof.
  apply (keeps_bind (on_module rel)).
  { apply (keeps_fmap (on_module rel)), (keeps_get (on_module rel)). }
  intros self1. apply (keeps_bind (on_module rel)); [by apply SubNet_on_generator_keeps|].
  intros dropped.
  do 3 (apply (keeps_bind (on_module rel));
        [apply (keeps_fmap (on_module rel)), (Linear_forward_keeps (on_module rel))|];
        intros ?).
  apply (keeps_ret (on_module rel)).
Qed.

Lemma SubNet_forward_keeps (x : Tensor.t R) :
  keeps (on_module same_subnet) (SubNet.forward x).
Proof.
  unfold SubNet.forward.
  apply (keeps_bind (on_module same_subnet));
    [|intros normed; apply (SubNet_forward_rest_keeps same_subnet)].
  apply (keeps_zoom (on_module same_subnet) same_norm); [apply BatchNorm1d_forward_keeps|].
  intros s n' Hn. unfold on_module. simpl. split; [exact Hn|done].
Qed.

Lemma on_subnet_keeps {A} (proj : WeightedMultiModalFusionNetwork.t R → SubNet.t R)
    (upd : SubNet.t R → WeightedMultiModalFusionNetwork.t R → WeightedMultiModalFusionNetwork.t R)
    (m : M (SubNet.t R * G) A) :
  keeps (on_module same_subnet) m →
  (∀ self n, same_subnet (proj self) n → same_network self (upd n self)) →
  keeps (on_module same_network) (WeightedMultiModalFusionNetwork.on_subnet proj upd m).
Proof.
  intros Hm Hupd.
  apply (keeps_zoom (on_module same_network) (on_module same_subnet)); [done|].
  intros s t' Ht. unfold on_module. simpl. by apply Hupd.
Qed.

Lemma Network_on_generator_keeps {A}
    (rel : WeightedMultiModalFusionNetwork.t R → WeightedMultiModalFusionNetwork.t R → Prop)
    `{!PreOrder rel} (m : M G A) :
  keeps (on_module rel) (WeightedMultiModalFusionNetwork.on_generator m).
Proof.
  apply (keeps_zoom (on_module rel) (λ _ _, True)); [by intros ? ? ? ?|].
  intros s g' _. unfold on_module. simpl. reflexivity.
Qed.

(** The steps of the network's [forward] after the five SubNets. *)
Lemma Network_forward_rest_keeps
    (rel : WeightedMultiModalFusionNetwork.t R → WeightedMultiModalFusionNetwork.t R → Prop)
    `{!PreOrder rel} (video_h audio_h text_h speaker_h context_h : Tensor.t R) :
  keeps (on_module rel)
    (self ← fst <$> get;
     fusion_h ← ModalityFusion.forward (WeightedMultiModalFusionNetwork.fusion self)
                  text_h audio_h video_h;
     x ← WeightedMultiModalFusionNetwork.on_generator
           (Dropout.forward (WeightedMultiModalFusionNetwork.post_fusion_dropout self)
              fusion_h);
     x ← Tensor.relu <$>
           Linear.forward (WeightedMultiModalFusionNetwork.post_fusion_layer_1 self) x;
     x ← WeightedMultiModalFusionNetwork.on_generator
           (Dropout.forward (WeightedMultiModalFusionNetwork.post_fusion_dropout self) x);
     x ← Tensor.relu <$>
           Linear.forward (WeightedMultiModalFusionNetwork.post_fusion_layer_2 self) x;
     late_fusion ← Tensor.cat [x; speaker_h; context_h];
     x ← WeightedMultiModalFusionNetwork.on_generator
           (Dropout.forward (WeightedMultiModalFusionNetwork.post_fusion_dropout self)
              late_fusion);
     x ← Tensor.relu <$>
           Linear.forward (WeightedMultiModalFusionNetwork.post_fusion_layer_3 self) x;
     x ← WeightedMultiModalFusionNetwork.on_generator
           (Dropout.forward (WeightedMultiModalFusionNetwork.post_fusion_dropout self) x);
     Linear.forward (WeightedMultiModalFusionNetwork.fc self) x).
Proof.
  apply (keeps_bind (on_module rel)).
  { apply (keeps_fmap (on_module rel)), (keeps_get (on_module rel)). }
  intros self.
  apply (keeps_bind (on_module rel)); [apply (cat_keeps (on_module rel))|]; intros ?.
  do 2 (apply (keeps_bind (on_module rel)); [by apply Network_on_generator_keeps|];
        intros ?;
        apply (keeps_bind (on_module rel));
        [apply (keeps_fmap (on_module rel)), (Linear_forward_keeps (on_module rel))|];
        intros ?).
  apply (keeps_bind (on_module rel)); [apply (cat_keeps (on_module rel))|]; intros ?.
  apply (keeps_bind (on_module rel)); [by apply Network_on_generator_keeps|]; intros ?.
  apply (keeps_bind (on_module rel));
    [apply (keeps_fmap (on_module rel)), (Linear_forward_keeps (on_module rel))|];
    intros ?.
  apply (keeps_bind (on_module rel)); [by apply Network_on_generator_keeps|]; intros ?.
  apply (Linear_forward_keeps (on_module rel)).
Qed.

Lemma Network_forward_keeps (text_x video_x audio_x speaker_x context_x : Tensor.t R) :
  keeps (on_module same_network)
    (WeightedMultiModalFusionNetwork.forward text_x video_x audio_x speaker_x context_x).
Proof.
  unfold WeightedMultiModalFusionNetwork.forward.
  do 5 (apply (keeps_bind (on_module same_network));
        [apply on_subnet_keeps; [apply SubNet_forward_keeps|];
         intros self n Hn; unfold same_network; simpl; by split_and!|]; intros ?).
  apply (Network_forward_rest_keeps same_network).
Qed.

(** *** The batch counter *)

Lemma BatchNorm1d_forward_counts (x : Tensor.t R) (self : BatchNorm1d.t R) :
  BatchNorm1d.training self = true →
  BatchNorm1d.num_batches_tracked (BatchNorm1d.forward x self).1
  = S (BatchNorm1d.num_batches_tracked self).
Proof.
  intros Ht. unfold BatchNorm1d.forward, mbind, M_bind, get, modify, mret, M_ret, raise.
  rewrite Ht. simpl. repeat case_decide; try rewrite forward_empty_state; done.
Qed.

Lemma SubNet_forward_counts (x : Tensor.t R) (self : SubNet.t R) (g : G) :
  BatchNorm1d.training (SubNet.norm self) = true →
  counted self (SubNet.forward x (self, g)).1.1.
Proof.
  intros Ht. pose proof (BatchNorm1d_forward_counts x (SubNet.norm self) Ht) as Hcount.
  unfold counted, SubNet.forward, mbind at 1, M_bind at 1, SubNet.on_norm at 1, zoom.
  simpl. destruct (BatchNorm1d.forward x (SubNet.norm self)) as [n' [e|normed]]; [done|].
  simpl in Hcount.
  match goal with |- context [?k (SubNet.set_norm n' self, g)] =>
    destruct (k (SubNet.set_norm n' self, g)) as [s' r] eqn:Hrun
  end.
  apply (SubNet_forward_rest_keeps eq) in Hrun.
  unfold on_module in Hrun. simpl in *. by rewrite <-Hrun.
Qed.

Lemma on_subnet_returns_inv {A}
    (proj : WeightedMultiModalFusionNetwork.t R → SubNet.t R)
    (upd : SubNet.t R → WeightedMultiModalFusionNetwork.t R → WeightedMultiModalFusionNetwork.t R)
    (m : M (SubNet.t R * G) A) (s s' : WeightedMultiModalFusionNetwork.t R * G) (a : A) :
  WeightedMultiModalFusionNetwork.on_subnet proj upd m s = (s', inr a) →
  ∃ n' g', m (proj s.1, s.2) = ((n', g'), inr a) ∧ s' = (upd n' s.1, g').
Proof.
  unfold WeightedMultiModalFusionNetwork.on_subnet, zoom.
  destruct (m (proj s.1, s.2)) as [[n' g'] r].
  intros [= <- ->]. by exists n', g'.
Qed.

Lemma Network_forward_counts
    (text_x video_x audio_x speaker_x context_x : Tensor.t R)
    (self : WeightedMultiModalFusionNetwork.t R) (g : G)
    (s' : WeightedMultiModalFusionNetwork.t R * G) (y : Tensor.t R) :
  network_in_mode true self →
  WeightedMultiModalFusionNetwork.forward text_x video_x audio_x speaker_x context_x
    (self, g) = (s', inr y) →
  counted (WeightedMultiModalFusionNetwork.video_subnet self)
          (WeightedMultiModalFusionNetwork.video_subnet s'.1) ∧
  counted (WeightedMultiModalFusionNetwork.audio_subnet self)
          (WeightedMultiModalFusionNetwork.audio_subnet s'.1) ∧
  counted (WeightedMultiModalFusionNetwork.text_subnet self)
          (WeightedMultiModalFusionNetwork.text_subnet s'.1) ∧
  counted (WeightedMultiModalFusionNetwork.speaker_subnet self)
          (WeightedMultiModalFusionNetwork.speaker_subnet s'.1) ∧
  counted (WeightedMultiModalFusionNetwork.context_subnet self)
          (WeightedMultiModalFusionNetwork.context_subnet s'.1).
Proof.
  intros ([Hv _] & [Ha _] & [Ht _] & [Hc _] & [Hs _] & _) Hrun.
  unfold WeightedMultiModalFusionNetwork.forward in Hrun.
  apply bind_returns_inv in Hrun as (s1 & video_h & Hrun1 & Hrun).
  apply on_subnet_returns_inv in Hrun1 as (n1 & g1 & Hrun1 & ->).
  apply bind_returns_inv in Hrun as (s2 & audio_h & Hrun2 & Hrun).
  apply on_subnet_returns_inv in Hrun2 as (n2 & g2 & Hrun2 & ->).
  apply bind_returns_inv in Hrun as (s3 & text_h & Hrun3 & Hrun).
  apply on_subnet_returns_inv in Hrun3 as (n3 & g3 & Hrun3 & ->).
  apply bind_returns_inv in Hrun as (s4 & speaker_h & Hrun4 & Hrun).
  apply on_subnet_returns_inv in Hrun4 as (n4 & g4 & Hrun4 & ->).
  apply bind_returns_inv in Hrun as (s5 & context_h & Hrun5 & Hrun).
  apply on_subnet_returns_inv in Hrun5 as (n5 & g5 & Hrun5 & ->).
  simpl in Hrun1, Hrun2, Hrun3, Hrun4, Hrun5.
  apply (Network_forward_rest_keeps eq) in Hrun.
  unfold on_module in Hrun. simpl in Hrun. rewrite <-Hrun. simpl.
  pose proof (SubNet_forward_counts video_x _ g Hv) as H1. rewrite Hrun1 in H1.
  pose proof (SubNet_forward_counts audio_x _ g1 Ha) as H2. rewrite Hrun2 in H2.
  pose proof (SubNet_forward_counts text_x _ g2 Ht) as H3. rewrite Hrun3 in H3.
  pose proof (SubNet_forward_counts speaker_x _ g3 Hs) as H4. rewrite Hrun4 in H4.
  pose proof (SubNet_forward_counts context_x _ g4 Hc) as H5. rewrite Hrun5 in H5.
  done.
Qed.

Lemma Network_forward_single_row
    (text_x video_x audio_x speaker_x context_x : Tensor.t R)
    (self : WeightedMultiModalFusionNetwork.t R) (g : G) :
  BatchNorm1d.training (SubNet.norm (WeightedMultiModalFusionNetwork.video_subnet self))
    = true →
  Tensor.batch video_x = 1 →
  WeightedMultiModalFusionNetwork.forward text_x video_x audio_x speaker_x context_x
    (self, g) =
    ((WeightedMultiModalFusionNetwork.set_video_subnet
        (SubNet.set_norm
           (BatchNorm1d.count_batch
              (SubNet.norm (WeightedMultiModalFusionNetwork.video_subnet self)))
           (WeightedMultiModalFusionNetwork.video_subnet self)) self, g),
     inl ValueError).
Proof.
  intros Ht Hb.
  unfold WeightedMultiModalFusionNetwork.forward, mbind at 1, M_bind at 1,
    WeightedMultiModalFusionNetwork.on_subnet at 1, zoom. simpl.
  by rewrite SubNet_forward_single_row.
Qed.

End frame.

(** ** Widths and batch sizes *)

Section widths.
Context {R G : Type} `{Scalar R} `{Sampler R G}.

Lemma cat3_batches {S} (x1 x2 x3 : Tensor.t R) (s : S) :
  Tensor.cat [x1; x2; x3] s =
    if decide (Tensor.batch x2 = Tensor.batch x1 ∧ Tensor.batch x3 = Tensor.batch x1)
    then (s, inr (Tensor.mk (Tensor.width x1 + Tensor.width x2 + Tensor.width x3)
                   (zip_with app (zip_with app (Tensor.data x1) (Tensor.data x2))
                                 (Tensor.data x3))))
    else (s, inl RuntimeError).
Proof.
  unfold Tensor.cat. cbn [forallb].
  destruct (Nat.eqb_spec (Tensor.batch x2) (Tensor.batch x1)) as [H2|H2];
    destruct (Nat.eqb_spec (Tensor.batch x3) (Tensor.batch x1)) as [H3|H3]; cbn.
  - rewrite decide_True by done. unfold mret, M_ret. do 3 f_equal. lia.
  - rewrite decide_False by tauto. done.
  - rewrite decide_False by tauto. done.
  - rewrite decide_False by tauto. done.
Qed.

Lemma BatchNorm1d_forward_empty b (self : BatchNorm1d.t R) (x : Tensor.t R) :
  BatchNorm1d.wf self → 0 < BatchNorm1d.num_features self →
  valid_batch (BatchNorm1d.training self) b → Tensor.batch x = b → Tensor.width x = 0 →
  ∃ self', BatchNorm1d.forward x self = (self', inr x).
Proof.
  intros Hwf Hn Hb Hbx Hw. unfold BatchNorm1d.forward, mbind, M_bind, get, modify.
  destruct (BatchNorm1d.training self) eqn:Ht; simpl in *.
  - rewrite decide_False by lia. rewrite decide_True by lia.
    rewrite forward_empty_feature; [by eexists| |done].
    destruct Hwf as (? & ? & ? & ?). by repeat split.
  - rewrite decide_True by lia. rewrite forward_empty_feature by done. by eexists.
Qed.

Lemma BatchNorm1d_forward_width_mismatch b (self : BatchNorm1d.t R) (x : Tensor.t R) :
  valid_batch (BatchNorm1d.training self) b → Tensor.batch x = b →
  Tensor.width x ≠ 0 → Tensor.width x ≠ BatchNorm1d.num_features self →
  raises (BatchNorm1d.forward x) self RuntimeError.
Proof.
  intros Hb Hbx Hw0 Hw.
  unfold raises, BatchNorm1d.forward, mbind, M_bind, get, modify, mret, M_ret, raise.
  destruct (BatchNorm1d.training self) eqn:Ht; simpl in *.
  - rewrite decide_False by lia. rewrite decide_False by nia.
    by rewrite decide_False.
  - rewrite decide_False by nia. by rewrite decide_False.
Qed.

(** A normalization of no feature has no first scale to multiply an
    input without elements with. *)
Lemma BatchNorm1d_forward_no_feature b (self : BatchNorm1d.t R) (x : Tensor.t R) :
  BatchNorm1d.wf self → BatchNorm1d.num_features self = 0 →
  accepted_batch (BatchNorm1d.training self) b → shaped b 0 x →
  raises (BatchNorm1d.forward x) self IndexError.
Proof.
  intros Hwf Hn Hb Hx.
  pose proof (shaped_batch _ _ _ Hx) as Hbx. pose proof (shaped_width _ _ _ Hx) as Hwx.
  unfold raises, BatchNorm1d.forward, mbind, M_bind, get, modify.
  destruct (BatchNorm1d.training self) eqn:Ht; simpl.
  - specialize (Hb eq_refl). rewrite decide_False by (intros [_ ?]; lia).
    rewrite decide_True by lia. rewrite forward_empty_no_feature; [done| |done].
    destruct Hwf as (? & ? & ? & ?). by repeat split.
  - rewrite decide_True by lia. by rewrite forward_empty_no_feature.
Qed.

(** A SubNet of no input feature raises on every input of its width:
    the hypothesis [0 < in_size] of [SubNet_forward_shaped] is needed. *)
Lemma SubNet_forward_no_feature hidden_size dropout mode b
    (self : SubNet.t R) (g : G) (x : Tensor.t R) :
  SubNet.wf 0 hidden_size dropout self → subnet_in_mode mode self →
  accepted_batch mode b → shaped b 0 x →
  raises (SubNet.forward x) (self, g) IndexError.
Proof.
  intros (Hn & Hnf & _) [Hmn _] Hb Hx. rewrite <-Hmn in Hb.
  unfold SubNet.forward. apply raises_bind_l. unfold SubNet.on_norm.
  apply raises_zoom. simpl. by apply (BatchNorm1d_forward_no_feature b).
Qed.

(** An input of another width than [in_size] is refused: by the
    normalization, or, when it has no column at all, by the first
    linear layer. *)
Lemma SubNet_forward_width_mismatch in_size hidden_size dropout mode b w
    (self : SubNet.t R) (g : G) (x : Tensor.t R) :
  SubNet.wf in_size hidden_size dropout self → subnet_in_mode mode self →
  valid_batch mode b → shaped b w x → w ≠ in_size →
  raises (SubNet.forward x) (self, g) RuntimeError.
Proof.
  intros (Hn & Hnf & Hp & Hl1 & Hl2 & Hl3) [Hmn Hmd] Hb Hx Hw.
  pose proof (shaped_batch _ _ _ Hx) as Hbx. pose proof (shaped_width _ _ _ Hx) as Hwx.
  rewrite <- Hmn in Hb. unfold SubNet.forward.
  destruct (decide (w = 0)) as [->|Hw0].
  - destruct (BatchNorm1d_forward_empty b (SubNet.norm self) x Hn ltac:(lia) Hb Hbx Hwx)
      as [n' Hrun].
    eapply raises_bind_r.
    { unfold SubNet.on_norm, zoom. simpl. by rewrite Hrun. }
    eapply raises_bind_r; [reflexivity|]. simpl.
    destruct (Dropout_forward_shaped b 0 (SubNet.drop self) x g Hx)
      as (g' & dropped & Hdrop & Hdropped).
    eapply raises_bind_r.
    { unfold SubNet.on_generator, zoom. simpl. by rewrite Hdrop. }
    apply raises_bind_l, raises_fmap. simpl.
    unfold raises, Linear.forward. rewrite decide_False; [done|].
    rewrite (shaped_width _ _ _ Hdropped). destruct Hl1 as (_ & -> & _). done.
  - apply raises_bind_l. unfold SubNet.on_norm. apply raises_zoom. simpl.
    apply (BatchNorm1d_forward_width_mismatch b); [done|done|lia|congruence].
Qed.

Lemma on_subnet_outcome
    (proj : WeightedMultiModalFusionNetwork.t R → SubNet.t R)
    (upd : SubNet.t R → WeightedMultiModalFusionNetwork.t R → WeightedMultiModalFusionNetwork.t R)
    in_size hidden_size dropout mode b w
    (s : WeightedMultiModalFusionNetwork.t R * G) (x : Tensor.t R) :
  SubNet.wf in_size hidden_size dropout (proj s.1) → subnet_in_mode mode (proj s.1) →
  0 < in_size → valid_batch mode b → shaped b w x →
  if decide (w = in_size)
  then ∃ n' g' y,
         WeightedMultiModalFusionNetwork.on_subnet proj upd (SubNet.forward x) s
           = ((upd n' s.1, g'), inr y) ∧
         SubNet.wf in_size hidden_size dropout n' ∧ subnet_in_mode mode n' ∧
         shaped b hidden_size y
  else raises (WeightedMultiModalFusionNetwork.on_subnet proj upd (SubNet.forward x))
         s RuntimeError.
Proof.
  intros Hwf Hmode Hpos Hb Hx. case_decide as Hw.
  - subst w.
    destruct (SubNet_forward_shaped _ _ _ _ _ (proj s.1) s.2 x Hwf Hmode Hpos
                (valid_batch_accepted _ _ Hb) Hx)
      as ([n' g'] & y & Hrun & Hwf' & Hmode' & Hy).
    exists n', g', y. split; [|done].
    unfold WeightedMultiModalFusionNetwork.on_subnet, zoom. by rewrite Hrun.
  - unfold WeightedMultiModalFusionNetwork.on_subnet. apply raises_zoom.
    by eapply SubNet_forward_width_mismatch.
Qed.

(** One SubNet of the network on an input of its width: it raises when
    that width is zero, and returns otherwise. *)
Lemma on_subnet_feature
    (proj : WeightedMultiModalFusionNetwork.t R → SubNet.t R)
    (upd : SubNet.t R → WeightedMultiModalFusionNetwork.t R → WeightedMultiModalFusionNetwork.t R)
    in_size hidden_size dropout mode b
    (s : WeightedMultiModalFusionNetwork.t R * G) (x : Tensor.t R) :
  SubNet.wf in_size hidden_size dropout (proj s.1) → subnet_in_mode mode (proj s.1) →
  accepted_batch mode b → shaped b in_size x →
  if decide (in_size = 0)
  then raises (WeightedMultiModalFusionNetwork.on_subnet proj upd (SubNet.forward x))
         s IndexError
  else ∃ n' g' y,
         WeightedMultiModalFusionNetwork.on_subnet proj upd (SubNet.forward x) s
           = ((upd n' s.1, g'), inr y).
Proof.
  intros Hwf Hmode Hb Hx. case_decide as Hw.
  - subst in_size. unfold WeightedMultiModalFusionNetwork.on_subnet. apply raises_zoom.
    by eapply SubNet_forward_no_feature.
  - destruct (SubNet_forward_shaped _ _ _ _ _ (proj s.1) s.2 x Hwf Hmode ltac:(lia) Hb Hx)
      as ([n' g'] & y & Hrun & _).
    exists n', g', y.
    unfold WeightedMultiModalFusionNetwork.on_subnet, zoom. by rewrite Hrun.
Qed.

Lemma Network_on_generator_run {A} (m : M G A)
    (s : WeightedMultiModalFusionNetwork.t R * G) g' a :
  m s.2 = (g', inr a) →
  WeightedMultiModalFusionNetwork.on_generator m s = ((s.1, g'), inr a).
Proof.
  intros Hm. unfold WeightedMultiModalFusionNetwork.on_generator, zoom. by rewrite Hm.
Qed.

Lemma Linear_relu_run {S} n_in n_out b (l : Linear.t R) (x : Tensor.t R) (s : S) :
  Linear.sized n_in n_out l → shaped b n_in x →
  ∃ y, (Tensor.relu <$> Linear.forward l x) s = (s, inr y) ∧ shaped b n_out y.
Proof.
  intros Hl Hx.
  destruct (Linear_forward_shaped n_in n_out b l x s Hl Hx) as (? & y & Hrun & -> & Hy).
  exists (Tensor.relu y). split; [|by apply relu_shaped].
  unfold fmap, M_fmap. by rewrite Hrun.
Qed.

End widths.

Section network_outcome.
Import config WeightedMultiModalFusionNetwork.
Context {R G : Type} `{Scalar R} `{Sampler R G}.

(** The outcome of [forward] on five tensors of any widths and batch
    sizes the normalizations accept. *)
Lemma Network_forward_outcome (cfg : config.t R) (speaker_num : nat) mode
    b_t b_v b_a b_s b_c w_t w_v w_a w_s w_c
    (self : t R) (g : G) (text_x video_x audio_x speaker_x context_x : Tensor.t R) :
  wf cfg speaker_num self → network_in_mode mode self →
  input_widths_positive cfg speaker_num →
  valid_batch mode b_t → valid_batch mode b_v → valid_batch mode b_a →
  valid_batch mode b_s → valid_batch mode b_c →
  shaped b_t w_t text_x → shaped b_v w_v video_x → shaped b_a w_a audio_x →
  shaped b_s w_s speaker_x → shaped b_c w_c context_x →
  if decide ((w_t = TEXT_DIM cfg ∧ w_v = VIDEO_DIM cfg ∧ w_a = AUDIO_DIM cfg ∧
              w_s = speaker_num ∧ w_c = TEXT_DIM cfg) ∧
             b_v = b_t ∧ b_a = b_t ∧ b_s = b_t ∧ b_c = b_t)
  then ∃ s' y, forward text_x video_x audio_x speaker_x context_x (self, g) = (s', inr y) ∧
               shaped b_t 2 y
  else raises (forward text_x video_x audio_x speaker_x context_x) (self, g) RuntimeError.
Proof.
  intros (Hwv & Hwa & Hwt & Hwc & Hws & Hp & Hl1 & Hl2 & Hl3 & Hfc)
    (Hmv & Hma & Hmt & Hmc & Hms & Hmd) (Hpt & Hpv & Hpa & Hps)
    Hbt Hbv Hba Hbs Hbc Htext Hvideo Haudio Hspeaker Hcontext.
  unfold forward, raises.
  (* the five sub-networks *)
  pose proof (on_subnet_outcome video_subnet set_video_subnet _ _ _ mode b_v w_v
                (self, g) video_x Hwv Hmv Hpv Hbv Hvideo) as Hstep.
  case_decide as Hw; [subst w_v|rewrite decide_False by tauto;
                                 by apply (raises_bind_l _ _ _ _ Hstep)].
  destruct Hstep as (n1 & g1 & video_h & Hrun & _ & _ & Hvideo_h).
  rewrite (bind_inr _ _ _ _ _ Hrun). clear Hrun.
  pose proof (on_subnet_outcome audio_subnet set_audio_subnet _ _ _ mode b_a w_a
                (set_video_subnet n1 self, g1) audio_x Hwa Hma Hpa Hba Haudio) as Hstep.
  case_decide as Hw; [subst w_a|rewrite decide_False by tauto;
                                 by apply (raises_bind_l _ _ _ _ Hstep)].
  destruct Hstep as (n2 & g2 & audio_h & Hrun & _ & _ & Haudio_h).
  rewrite (bind_inr _ _ _ _ _ Hrun). clear Hrun.
  pose proof (on_subnet_outcome text_subnet set_text_subnet _ _ _ mode b_t w_t
                (set_audio_subnet n2 (set_video_subnet n1 self), g2) text_x
                Hwt Hmt Hpt Hbt Htext) as Hstep.
  case_decide as Hw; [subst w_t|rewrite decide_False by tauto;
                                 by apply (raises_bind_l _ _ _ _ Hstep)].
  destruct Hstep as (n3 & g3 & text_h & Hrun & _ & _ & Htext_h).
  rewrite (bind_inr _ _ _ _ _ Hrun). clear Hrun.
  pose proof (on_subnet_outcome speaker_subnet set_speaker_subnet _ _ _ mode b_s w_s
                (set_text_subnet n3 (set_audio_subnet n2 (set_video_subnet n1 self)), g3)
                speaker_x Hws Hms Hps Hbs Hspeaker) as Hstep.
  case_decide as Hw; [subst w_s|rewrite decide_False by tauto;
                                 by apply (raises_bind_l _ _ _ _ Hstep)].
  destruct Hstep as (n4 & g4 & speaker_h & Hrun & _ & _ & Hspeaker_h).
  rewrite (bind_inr _ _ _ _ _ Hrun). clear Hrun.
  pose proof (on_subnet_outcome context_subnet set_context_subnet _ _ _ mode b_c w_c
                (set_speaker_subnet n4
                   (set_text_subnet n3 (set_audio_subnet n2 (set_video_subnet n1 self))),
                 g4)
                context_x Hwc Hmc Hpt Hbc Hcontext) as Hstep.
  case_decide as Hw; [subst w_c|rewrite decide_False by tauto;
                                 by apply (raises_bind_l _ _ _ _ Hstep)].
  destruct Hstep as (n5 & g5 & context_h & Hrun & _ & _ & Hcontext_h).
  rewrite (bind_inr _ _ _ _ _ Hrun). clear Hrun.
  cbn [fst].
  set (self5 := set_context_subnet n5 _).
  rewrite (bind_inr (fst <$> get) _ (self5, g5) (self5, g5) self5 eq_refl).
  replace (fusion self5) with (fusion self) by done.
  replace (post_fusion_dropout self5) with (post_fusion_dropout self) by done.
  replace (post_fusion_layer_1 self5) with (post_fusion_layer_1 self) by done.
  replace (post_fusion_layer_2 self5) with (post_fusion_layer_2 self) by done.
  replace (post_fusion_layer_3 self5) with (post_fusion_layer_3 self) by done.
  replace (fc self5) with (fc self) by done.
  (* the fusion of the three modalities *)
  destruct (decide (b_v = b_t ∧ b_a = b_t)) as [[-> ->]|Hbatch]; cycle 1.
  { rewrite decide_False by tauto. apply (raises_bind_l (S:=t R * G)).
    unfold raises, ModalityFusion.forward. rewrite cat3_batches.
    unfold Tensor.mul, Tensor.pointwise, Tensor.batch. simpl. rewrite !length_fmap.
    apply shaped_batch in Htext_h, Haudio_h, Hvideo_h. unfold Tensor.batch in *.
    rewrite decide_False; [done|]. rewrite Htext_h, Haudio_h, Hvideo_h. tauto. }
  destruct (ModalityFusion_forward_run b_t _ _ _ (fusion self) text_h audio_h video_h
              (self5, g5) Htext_h Haudio_h Hvideo_h) as (fusion_h & Hrun & Hfusion_h & _).
  rewrite (bind_inr _ _ _ _ _ Hrun). clear Hrun.
  replace (TEXT_HIDDEN cfg + AUDIO_HIDDEN cfg + VIDEO_HIDDEN cfg)
    with (TEXT_HIDDEN cfg + VIDEO_HIDDEN cfg + AUDIO_HIDDEN cfg) in Hfusion_h by lia.
  destruct (Dropout_forward_shaped _ _ (post_fusion_dropout self) fusion_h g5 Hfusion_h)
    as (g6 & x1 & Hrun & Hx1).
  rewrite (bind_inr _ _ _ _ _ (Network_on_generator_run _ (self5, g5) _ _ Hrun)). clear Hrun.
  cbn [fst].
  destruct (Linear_relu_run _ _ _ _ x1 (self5, g6) Hl1 Hx1) as (x2 & Hrun & Hx2).
  rewrite (bind_inr _ _ _ _ _ Hrun). clear Hrun.
  destruct (Dropout_forward_shaped _ _ (post_fusion_dropout self) x2 g6 Hx2)
    as (g7 & x3 & Hrun & Hx3).
  rewrite (bind_inr _ _ _ _ _ (Network_on_generator_run _ (self5, g6) _ _ Hrun)). clear Hrun.
  cbn [fst].
  destruct (Linear_relu_run _ _ _ _ x3 (self5, g7) Hl2 Hx3) as (x4 & Hrun & Hx4).
  rewrite (bind_inr _ _ _ _ _ Hrun). clear Hrun.
  (* the late fusion *)
  destruct (decide (b_s = b_t ∧ b_c = b_t)) as [[-> ->]|Hbatch]; cycle 1.
  { rewrite decide_False by tauto. apply (raises_bind_l (S:=t R * G)).
    unfold raises. rewrite cat3_batches.
    apply shaped_batch in Hx4, Hspeaker_h, Hcontext_h.
    rewrite decide_False; [done|]. rewrite Hx4, Hspeaker_h, Hcontext_h. tauto. }
  destruct (cat3_run b_t _ _ _ x4 speaker_h context_h (self5, g7) Hx4 Hspeaker_h Hcontext_h)
    as [Hrun Hlate].
  rewrite (bind_inr _ _ _ _ _ Hrun). clear Hrun.
  destruct (Dropout_forward_shaped _ _ (post_fusion_dropout self) _ g7 Hlate)
    as (g8 & x5 & Hrun & Hx5).
  rewrite (bind_inr _ _ _ _ _ (Network_on_generator_run _ (self5, g7) _ _ Hrun)). clear Hrun.
  cbn [fst].
  destruct (Linear_relu_run _ _ _ _ x5 (self5, g8) Hl3 Hx5) as (x6 & Hrun & Hx6).
  rewrite (bind_inr _ _ _ _ _ Hrun). clear Hrun.
  destruct (Dropout_forward_shaped _ _ (post_fusion_dropout self) x6 g8 Hx6)
    as (g9 & x7 & Hrun & Hx7).
  rewrite (bind_inr _ _ _ _ _ (Network_on_generator_run _ (self5, g8) _ _ Hrun)). clear Hrun.
  cbn [fst].
  destruct (Linear_forward_shaped _ _ _ (fc self) x7 (self5, g9) Hfc Hx7)
    as (? & y & Hrun & -> & Hy).
  rewrite decide_True by done. by exists (self5, g9), y.
Qed.

(** When one of the four input widths is zero, [forward] raises on
    every input of the configured widths: the hypothesis
    [input_widths_positive] of [Network_forward_shaped] is needed. *)
Lemma Network_forward_no_feature (cfg : config.t R) (speaker_num : nat) mode b
    (self : t R) (g : G) (text_x video_x audio_x speaker_x context_x : Tensor.t R) :
  wf cfg speaker_num self → network_in_mode mode self →
  ¬ input_widths_positive cfg speaker_num → accepted_batch mode b →
  shaped b (TEXT_DIM cfg) text_x → shaped b (VIDEO_DIM cfg) video_x →
  shaped b (AUDIO_DIM cfg) audio_x → shaped b speaker_num speaker_x →
  shaped b (TEXT_DIM cfg) context_x →
  raises (forward text_x video_x audio_x speaker_x context_x) (self, g) IndexError.
Proof.
  intros (Hwv & Hwa & Hwt & Hwc & Hws & _) (Hmv & Hma & Hmt & Hmc & Hms & _)
    Hzero Hb Htext Hvideo Haudio Hspeaker Hcontext.
  unfold forward, raises.
  pose proof (on_subnet_feature video_subnet set_video_subnet _ _ _ mode b
                (self, g) video_x Hwv Hmv Hb Hvideo) as Hstep.
  case_decide as Hv; [by apply (raises_bind_l _ _ _ _ Hstep)|].
  destruct Hstep as (n1 & g1 & video_h & Hrun).
  rewrite (bind_inr _ _ _ _ _ Hrun). clear Hrun.
  pose proof (on_subnet_feature audio_subnet set_audio_subnet _ _ _ mode b
                (set_video_subnet n1 self, g1) audio_x Hwa Hma Hb Haudio) as Hstep.
  case_decide as Ha; [by apply (raises_bind_l _ _ _ _ Hstep)|].
  destruct Hstep as (n2 & g2 & audio_h & Hrun).
  rewrite (bind_inr _ _ _ _ _ Hrun). clear Hrun.
  pose proof (on_subnet_feature text_subnet set_text_subnet _ _ _ mode b
                (set_audio_subnet n2 (set_video_subnet n1 self), g2) text_x
                Hwt Hmt Hb Htext) as Hstep.
  case_decide as Ht; [by apply (raises_bind_l _ _ _ _ Hstep)|].
  destruct Hstep as (n3 & g3 & text_h & Hrun).
  rewrite (bind_inr _ _ _ _ _ Hrun). clear Hrun.
  pose proof (on_subnet_feature speaker_subnet set_speaker_subnet _ _ _ mode b
                (set_text_subnet n3 (set_audio_subnet n2 (set_video_subnet n1 self)), g3)
                speaker_x Hws Hms Hb Hspeaker) as Hstep.
  case_decide as Hs; [by apply (raises_bind_l _ _ _ _ Hstep)|].
  destruct Hzero. unfold input_widths_positive. lia.
Qed.

End network_outcome.

(** ** ReLU *)

Section relu.
Context {R G : Type} `{Scalar R} `{Sampler R G}.

(** What [SubNet.forward] returns comes out of [F.relu]. *)
Lemma SubNet_forward_relu (x : Tensor.t R) (s s' : SubNet.t R * G) (y : Tensor.t R) :
  SubNet.forward x s = (s', inr y) → ∃ h, y = Tensor.relu h.
Proof.
  unfold SubNet.forward. intros Hrun.
  do 5 (apply bind_returns_inv in Hrun as (? & ? & _ & Hrun)).
  apply bind_returns_inv in Hrun as (? & ? & Hrun & Hret).
  apply fmap_returns_inv in Hrun as (h & _ & ->). injection Hret as _ <-. by exists h.
Qed.

Lemma relu_entries (P : R → Prop) (h : Tensor.t R) :
  (∀ u, P (s_relu u)) → Tensor.entries P (Tensor.relu h).
Proof.
  intros HP. unfold Tensor.entries, Tensor.relu, Tensor.pointwise. simpl.
  apply Forall_fmap, Forall_forall. intros row _. simpl.
  apply Forall_fmap, Forall_forall. intros u _. apply HP.
Qed.

End relu.

Lemma float_relu_not_below_zero (u : float) : float_relu_value (s_relu u).
Proof.
  unfold float_relu_value. simpl.
  destruct (PrimFloat.ltb 0 u) eqn:Hlt.
  - left. rewrite leb_spec. rewrite ltb_spec in Hlt.
    unfold SFleb, SFltb in *. by destruct (SFcompare _ _) as [[]|].
  - destruct (PrimFloat.is_nan u) eqn:Hnan; [by right|]. by left.
Qed.

Lemma float32_relu_not_below_zero (u : spec_float) : float32_relu_value (s_relu u).
Proof.
  unfold float32_relu_value. simpl.
  destruct u as [[]|[]| |[] m e]; simpl; auto.
Qed.

(** ** Training mode and the running statistics *)

Section related.
Context {S : Type} (rel : S → S → Prop).

Lemma related_ret {A} (a : A) : related rel (mret a) (mret a).
Proof. by intros s1 s2 Hs. Qed.

Lemma related_raise {A} (e : exn) : related rel (raise (A:=A) e) (raise e).
Proof. by intros s1 s2 Hs. Qed.

Lemma related_bind_at {A B} (m1 m2 : M S A) (f1 f2 : A → M S B) s1 s2 :
  related_at rel m1 m2 s1 s2 →
  (∀ a, (m1 s1).2 = inr a → related_at rel (f1 a) (f2 a) (m1 s1).1 (m2 s2).1) →
  related_at rel (m1 ≫= f1) (m2 ≫= f2) s1 s2.
Proof.
  unfold related_at, mbind, M_bind. intros [Hs Hr] Hf.
  destruct (m1 s1) as [s1' [e|a]], (m2 s2) as [s2' r2]; simpl in *; subst r2.
  - done.
  - by apply Hf.
Qed.

Lemma related_bind {A B} (m1 m2 : M S A) (f1 f2 : A → M S B) :
  related rel m1 m2 → (∀ a, related rel (f1 a) (f2 a)) →
  related rel (m1 ≫= f1) (m2 ≫= f2).
Proof.
  intros Hm Hf s1 s2 Hs. apply related_bind_at; [by apply Hm|].
  intros a _. apply Hf. by apply Hm.
Qed.

Lemma related_fmap {A B} (m1 m2 : M S A) (f : A → B) :
  related rel m1 m2 → related rel (f <$> m1) (f <$> m2).
Proof.
  intros Hm s1 s2 Hs. destruct (Hm s1 s2 Hs) as [Hs' Hr].
  unfold related_at, fmap, M_fmap in *.
  destruct (m1 s1) as [s1' [e|a]], (m2 s2) as [s2' r2]; simpl in *; by subst r2.
Qed.

(** A call that reads the module and goes on with it. *)
Lemma related_read {N G A} (rel' : N * G → N * G → Prop) (k1 k2 : N → M (N * G) A) :
  (∀ s1 s2, rel' s1 s2 → related_at rel' (k1 s1.1) (k2 s2.1) s1 s2) →
  related rel' ((fst <$> get) ≫= k1) ((fst <$> get) ≫= k2).
Proof. intros Hk s1 s2 Hs. by apply Hk. Qed.

Lemma related_zoom {T A} (sub : T → T → Prop) (proj : S → T) (upd : T → S → S)
    (m1 m2 : M T A) :
  related sub m1 m2 →
  (∀ s1 s2, rel s1 s2 → sub (proj s1) (proj s2)) →
  (∀ s1 s2 t1 t2, rel s1 s2 → sub t1 t2 → rel (upd t1 s1) (upd t2 s2)) →
  related rel (zoom proj upd m1) (zoom proj upd m2).
Proof.
  intros Hm Hproj Hupd s1 s2 Hs.
  destruct (Hm (proj s1) (proj s2) (Hproj _ _ Hs)) as [Ht Hr].
  unfold related_at, zoom in *.
  destruct (m1 (proj s1)) as [t1 r1], (m2 (proj s2)) as [t2 r2]; simpl in *.
  split; [by apply Hupd|done].
Qed.

End related.

Section training.
Context {R G : Type} `{Scalar R} `{Sampler R G}.

Lemma Linear_forward_related {S} (rel : S → S → Prop) (l : Linear.t R) (x : Tensor.t R) :
  related rel (Linear.forward l x) (Linear.forward l x).
Proof. unfold Linear.forward. case_decide; [apply related_ret|apply related_raise]. Qed.

Lemma cat_related {S} (rel : S → S → Prop) (l : list (Tensor.t R)) :
  related rel (Tensor.cat l) (Tensor.cat l).
Proof.
  unfold Tensor.cat. destruct l; [apply related_raise|].
  destruct (forallb _ _); [apply related_ret|apply related_raise].
Qed.

(** In training mode the normalization reads its running statistics
    only to move them. *)
Lemma BatchNorm1d_forward_related (x : Tensor.t R) :
  related training_norms (BatchNorm1d.forward x) (BatchNorm1d.forward x).
Proof.
  intros a b [(Hnf & Heps & Hmom & Hw & Hb & Ht) Hta].
  assert (BatchNorm1d.training b = true) as Htb by congruence.
  unfold related_at, training_norms, same_norm, BatchNorm1d.forward,
    mbind, M_bind, get, modify, mret, M_ret, raise.
  rewrite Hta, Htb. simpl. rewrite <-Hnf.
  case_decide; [by repeat split|].
  case_decide.
  { unfold BatchNorm1d.forward_empty, mret, M_ret, raise. rewrite Hw, Hb.
    destruct (BatchNorm1d.weight b) eqn:Hwb, (BatchNorm1d.bias b) eqn:Hbb;
      simpl; rewrite ?Hwb, ?Hbb; by repeat split. }
  case_decide; simpl; split_and!; try done.
  unfold BatchNorm1d.normalize. by rewrite Heps, Hw, Hb.
Qed.

(** The steps of [SubNet.forward] after the normalization, for given
    layers. *)
Lemma SubNet_forward_rest_related (d : Dropout.t R) (l1 l2 l3 : Linear.t R)
    (normed : Tensor.t R) :
  related (training_subnets (R:=R) (G:=G))
    (dropped ← SubNet.on_generator (Dropout.forward d normed);
     y_1 ← Tensor.relu <$> Linear.forward l1 dropped;
     y_2 ← Tensor.relu <$> Linear.forward l2 y_1;
     y_3 ← Tensor.relu <$> Linear.forward l3 y_2;
     mret y_3)
    (dropped ← SubNet.on_generator (Dropout.forward d normed);
     y_1 ← Tensor.relu <$> Linear.forward l1 dropped;
     y_2 ← Tensor.relu <$> Linear.forward l2 y_1;
     y_3 ← Tensor.relu <$> Linear.forward l3 y_2;
     mret y_3).
Proof.
  apply related_bind.
  { apply (related_zoom _ eq).
    - intros g g' <-. by split.
    - by intros s1 s2 (_ & _ & Hg').
    - intros s1 s2 g g' (Hsame & Ht' & _) <-. by split. }
  intros dropped.
  do 3 (apply related_bind; [apply related_fmap, Linear_forward_related|]; intros ?).
  apply related_ret.
Qed.

Lemma SubNet_forward_related (x : Tensor.t R) :
  related (training_subnets (R:=R) (G:=G)) (SubNet.forward x) (SubNet.forward x).
Proof.
  unfold SubNet.forward. apply related_bind.
  { apply (related_zoom _ training_norms); [apply BatchNorm1d_forward_related|..].
    - intros s1 s2 ((Hn & _) & Ht & _). by split.
    - intros s1 s2 n1 n2 ((_ & Hd & Hl1 & Hl2 & Hl3) & _ & Hg) [Hn Ht].
      unfold training_subnets, same_subnet. simpl. by split_and!. }
  intros normed. apply related_read.
  intros s1 s2 Hs. pose proof Hs as ((Hn & Hd & Hl1 & Hl2 & Hl3) & Ht & Hg).
  rewrite <-Hd, <-Hl1, <-Hl2, <-Hl3. by apply SubNet_forward_rest_related.
Qed.

(** The steps of the network's [forward] after the five SubNets, for
    given layers. *)
Lemma Network_forward_rest_related (fusion : ModalityFusion.t R) (d : Dropout.t R)
    (l1 l2 l3 fc : Linear.t R) (video_h audio_h text_h speaker_h context_h : Tensor.t R) :
  related (training_networks (R:=R) (G:=G))
    (fusion_h ← ModalityFusion.forward fusion text_h audio_h video_h;
     x ← WeightedMultiModalFusionNetwork.on_generator (Dropout.forward d fusion_h);
     x ← Tensor.relu <$> Linear.forward l1 x;
     x ← WeightedMultiModalFusionNetwork.on_generator (Dropout.forward d x);
     x ← Tensor.relu <$> Linear.forward l2 x;
     late_fusion ← Tensor.cat [x; speaker_h; context_h];
     x ← WeightedMultiModalFusionNetwork.on_generator (Dropout.forward d late_fusion);
     x ← Tensor.relu <$> Linear.forward l3 x;
     x ← WeightedMultiModalFusionNetwork.on_generator (Dropout.forward d x);
     Linear.forward fc x)
    (fusion_h ← ModalityFusion.forward fusion text_h audio_h video_h;
     x ← WeightedMultiModalFusionNetwork.on_generator (Dropout.forward d fusion_h);
     x ← Tensor.relu <$> Linear.forward l1 x;
     x ← WeightedMultiModalFusionNetwork.on_generator (Dropout.forward d x);
     x ← Tensor.relu <$> Linear.forward l2 x;
     late_fusion ← Tensor.cat [x; speaker_h; context_h];
     x ← WeightedMultiModalFusionNetwork.on_generator (Dropout.forward d late_fusion);
     x ← Tensor.relu <$> Linear.forward l3 x;
     x ← WeightedMultiModalFusionNetwork.on_generator (Dropout.forward d x);
     Linear.forward fc x).
Proof.
  assert (∀ x, related (training_networks (R:=R) (G:=G))
                 (WeightedMultiModalFusionNetwork.on_generator (Dropout.forward d x))
                 (WeightedMultiModalFusionNetwork.on_generator (Dropout.forward d x)))
    as Hdrop.
  { intros x. apply (related_zoom _ eq).
    - intros g g' <-. by split.
    - by intros s1 s2 (_ & _ & Hg').
    - intros s1 s2 g g' (Hsame & Ht' & _) <-. by split. }
  apply related_bind; [apply cat_related|]; intros ?.
  do 2 (apply related_bind; [apply Hdrop|]; intros ?;
        apply related_bind; [apply related_fmap, Linear_forward_related|]; intros ?).
  apply related_bind; [apply cat_related|]; intros ?.
  apply related_bind; [apply Hdrop|]; intros ?.
  apply related_bind; [apply related_fmap, Linear_forward_related|]; intros ?.
  apply related_bind; [apply Hdrop|]; intros ?.
  apply Linear_forward_related.
Qed.

Lemma Network_forward_related (text_x video_x audio_x speaker_x context_x : Tensor.t R) :
  related (training_networks (R:=R) (G:=G))
    (WeightedMultiModalFusionNetwork.forward text_x video_x audio_x speaker_x context_x)
    (WeightedMultiModalFusionNetwork.forward text_x video_x audio_x speaker_x context_x).
Proof.
  unfold WeightedMultiModalFusionNetwork.forward.
  do 5 (apply related_bind;
        [apply (related_zoom _ training_subnets); [apply SubNet_forward_related|..];
         [intros s1 s2 ((Hv & Ha & Ht & Hc & Hs & _) & (Htv & Hta & Htt & Htc & Hts) & Hg);
          by split
         |intros s1 s2 [n1 g1] [n2 g2]
            ((Hv & Ha & Ht & Hc & Hs & Hf & Hd & Hl1 & Hl2 & Hl3 & Hfc)
             & (Htv & Hta & Htt & Htc & Hts) & _)
            (Hn & Htn & Hg);
          unfold training_networks, same_network; simpl in *; by split_and!]|];
        intros ?).
  apply related_read.
  intros s1 s2 Hs.
  pose proof Hs as ((_ & _ & _ & _ & _ & Hf & Hd & Hl1 & Hl2 & Hl3 & Hfc) & _ & _).
  rewrite <-Hf, <-Hd, <-Hl1, <-Hl2, <-Hl3, <-Hfc.
  by apply Network_forward_rest_related.
Qed.

End training.

(** * Further properties of network.py *)

(** Property X6.  [ModalityFusion.forward] returns exactly when the
    three tensors have the same number of rows, whatever their widths
    and the weights: then the result has that many rows and the sum of
    the three widths; otherwise [torch.cat] raises [RuntimeError].  The
    state is left as it was in both cases. *)
Theorem ModalityFusion_forward_needs_equal_batches {R S : Type} `{Scalar R}
    (self : ModalityFusion.t R) (text audio video : Tensor.t R) (s : S) :
  if decide (Tensor.batch audio = Tensor.batch text ∧
             Tensor.batch video = Tensor.batch text)
  then ∃ out, ModalityFusion.forward self text audio video s = (s, inr out) ∧
              Tensor.shape out = (Tensor.batch text,
                Tensor.width text + Tensor.width audio + Tensor.width video)
  else ModalityFusion.forward self text audio video s = (s, inl RuntimeError).
Proof.
  unfold ModalityFusion.forward. rewrite cat3_batches.
  unfold Tensor.mul, Tensor.pointwise, Tensor.batch. simpl. rewrite !length_fmap.
  case_decide as Hb; [|done]. destruct Hb as [Ha Hv].
  eexists. split; [reflexivity|]. unfold Tensor.shape, Tensor.batch. simpl.
  rewrite !length_zip_with, !length_fmap. f_equal. lia.
Qed.

(** Property X7.  For a SubNet of at least one input feature, on an
    input of shape (batch, w) with a batch size the normalization
    accepts, [SubNet.forward] returns exactly when w is [in_size], and
    then a tensor of shape (batch, hidden_size); for any other width it
    raises [RuntimeError]. *)
Theorem SubNet_forward_needs_in_size {R G : Type} `{Scalar R} `{Sampler R G}
    (in_size hidden_size : nat) (dropout : R) (mode : bool) (b w : nat)
    (self : SubNet.t R) (g : G) (x : Tensor.t R) :
  0 < in_size →
  SubNet.wf in_size hidden_size dropout self → subnet_in_mode mode self →
  valid_batch mode b → shaped b w x →
  if decide (w = in_size)
  then ∃ s' y, SubNet.forward x (self, g) = (s', inr y) ∧
               Tensor.shape y = (b, hidden_size)
  else (SubNet.forward x (self, g)).2 = inl RuntimeError.
Proof.
  intros Hpos Hwf Hmode Hb Hx. case_decide as Hw.
  - subst w.
    destruct (SubNet_forward_shaped _ _ _ _ _ self g x Hwf Hmode Hpos
                (valid_batch_accepted _ _ Hb) Hx)
      as (s' & y & Hrun & _ & _ & _ & Hy).
    by exists s', y.
  - by eapply SubNet_forward_width_mismatch.
Qed.

Lemma SubNet_forward_needs_in_size_witness :
  (SubNet.forward (Demo.constant 2 5 1%float) (Demo.subnet, Demo.draws)).2
  = inl RuntimeError.
Proof.
  refine (SubNet_forward_needs_in_size 2 3 0.5%float true 2 5 Demo.subnet Demo.draws
            (Demo.constant 2 5 1%float) _ _ _ _ _).
  - lia.
  - apply SubNet_init_wf.
  - by split.
  - simpl. lia.
  - split; [repeat constructor|reflexivity].
Defined.

(** Property X8.  For a network whose inputs have at least one column
    each, on five tensors with batch sizes the normalizations accept,
    the network's [forward] returns exactly when every input
    has the width its SubNet was built for (TEXT_DIM, VIDEO_DIM,
    AUDIO_DIM, speaker_num, and TEXT_DIM for the context) and the five
    batch sizes are equal, and then a tensor of shape (batch, 2); in
    every other case it raises [RuntimeError]. *)
Theorem forward_needs_matching_dimensions {R G : Type} `{Scalar R} `{Sampler R G}
    (cfg : config.t R) (speaker_num : nat) (mode : bool)
    (b_t b_v b_a b_s b_c w_t w_v w_a w_s w_c : nat)
    (self : WeightedMultiModalFusionNetwork.t R) (g : G)
    (text_x video_x audio_x speaker_x context_x : Tensor.t R) :
  input_widths_positive cfg speaker_num →
  WeightedMultiModalFusionNetwork.wf cfg speaker_num self → network_in_mode mode self →
  valid_batch mode b_t → valid_batch mode b_v → valid_batch mode b_a →
  valid_batch mode b_s → valid_batch mode b_c →
  shaped b_t w_t text_x → shaped b_v w_v video_x → shaped b_a w_a audio_x →
  shaped b_s w_s speaker_x → shaped b_c w_c context_x →
  if decide ((w_t = config.TEXT_DIM cfg ∧ w_v = config.VIDEO_DIM cfg ∧
              w_a = config.AUDIO_DIM cfg ∧ w_s = speaker_num ∧
              w_c = config.TEXT_DIM cfg) ∧
             b_v = b_t ∧ b_a = b_t ∧ b_s = b_t ∧ b_c = b_t)
  then ∃ s' y,
         WeightedMultiModalFusionNetwork.forward text_x video_x audio_x speaker_x context_x
           (self, g) = (s', inr y) ∧
         Tensor.shape y = (b_t, 2)
  else (WeightedMultiModalFusionNetwork.forward text_x video_x audio_x speaker_x context_x
          (self, g)).2 = inl RuntimeError.
Proof.
  intros Hpos Hwf Hmode Hbt Hbv Hba Hbs Hbc Htext Hvideo Haudio Hspeaker Hcontext.
  pose proof (Network_forward_outcome cfg speaker_num mode b_t b_v b_a b_s b_c
                w_t w_v w_a w_s w_c self g text_x video_x audio_x speaker_x context_x
                Hwf Hmode Hpos Hbt Hbv Hba Hbs Hbc Htext Hvideo Haudio Hspeaker Hcontext)
    as Hout.
  case_decide; [|exact Hout].
  destruct Hout as (s' & y & Hrun & _ & Hy). by exists s', y.
Qed.

Lemma forward_needs_matching_dimensions_witness :
  (WeightedMultiModalFusionNetwork.forward
     (Demo.text_x 2) (Demo.video_x 2) (Demo.audio_x 3)
     (Demo.speaker_x 2) (Demo.context_x 2) (Demo.network, Demo.draws)).2
  = inl RuntimeError.
Proof.
  refine (forward_needs_matching_dimensions Demo.cfg 2 true 2 2 3 2 2 4 3 2 2 4
            Demo.network Demo.draws
            (Demo.text_x 2) (Demo.video_x 2) (Demo.audio_x 3)
            (Demo.speaker_x 2) (Demo.context_x 2) _ _ _ _ _ _ _ _ _ _ _ _ _).
  - unfold input_widths_positive. simpl. lia.
  - apply Network_init_wf.
  - apply Network_init_wf.
  - simpl. lia.
  - simpl. lia.
  - simpl. lia.
  - simpl. lia.
  - simpl. lia.
  - split; [repeat constructor|reflexivity].
  - split; [repeat constructor|reflexivity].
  - split; [repeat constructor|reflexivity].
  - split; [repeat constructor|reflexivity].
  - split; [repeat constructor|reflexivity].
Defined.

(** Property X9.  Whatever its input and its outcome, [SubNet.forward]
    leaves the dropout and the three linear layers as they were, and of
    the normalization the size, eps, momentum, scale, shift and mode: it
    writes at most the running statistics and the batch counter. *)
Theorem SubNet_forward_keeps_parameters {R G : Type} `{Scalar R} `{Sampler R G}
    (x : Tensor.t R) (self : SubNet.t R) (g : G) :
  same_subnet self (SubNet.forward x (self, g)).1.1.
Proof.
  destruct (SubNet.forward x (self, g)) as [s' r] eqn:Hrun.
  apply (SubNet_forward_keeps x _ _ _ Hrun).
Qed.

(** Property X10.  Whatever its inputs and its outcome, the network's
    [forward] leaves the fusion weights, the dropout after the fusion,
    the four linear layers after the fusion and, in every SubNet, all
    but the running statistics and the batch counter as they were. *)
Theorem forward_keeps_parameters {R G : Type} `{Scalar R} `{Sampler R G}
    (text_x video_x audio_x speaker_x context_x : Tensor.t R)
    (self : WeightedMultiModalFusionNetwork.t R) (g : G) :
  same_network self
    (WeightedMultiModalFusionNetwork.forward
       text_x video_x audio_x speaker_x context_x (self, g)).1.1.
Proof.
  destruct (WeightedMultiModalFusionNetwork.forward _ _ _ _ _ (self, g)) as [s' r] eqn:Hrun.
  apply (Network_forward_keeps _ _ _ _ _ _ _ _ Hrun).
Qed.

(** Property X11.  A call of [SubNet.forward] in training mode advances
    the batch counter of the normalization by one, whatever the input
    and also when the call raises; in evaluation mode the counter stays. *)
Theorem SubNet_forward_counts_batch {R G : Type} `{Scalar R} `{Sampler R G}
    (x : Tensor.t R) (self : SubNet.t R) (g : G) :
  BatchNorm1d.num_batches_tracked (SubNet.norm (SubNet.forward x (self, g)).1.1) =
    if BatchNorm1d.training (SubNet.norm self)
    then S (BatchNorm1d.num_batches_tracked (SubNet.norm self))
    else BatchNorm1d.num_batches_tracked (SubNet.norm self).
Proof.
  destruct (BatchNorm1d.training (SubNet.norm self)) eqn:Ht.
  - by apply SubNet_forward_counts.
  - destruct (BatchNorm1d_forward_eval (SubNet.norm self) x Ht) as (r & Hrun & _).
    unfold SubNet.forward, mbind at 1, M_bind at 1, SubNet.on_norm at 1, zoom.
    simpl. rewrite Hrun. destruct r as [e|normed]; [done|].
    match goal with |- context [?k (SubNet.set_norm ?n self, g)] =>
      destruct (k (SubNet.set_norm n self, g)) as [s' r] eqn:Hrest
    end.
    apply (SubNet_forward_rest_keeps eq) in Hrest.
    unfold on_module in Hrest. simpl in *. by rewrite <-Hrest.
Qed.

(** Property X12.  A call of the network's [forward] in training mode
    that returns has advanced the batch counter of each of the five
    SubNets by one. *)
Theorem forward_training_counts_batches {R G : Type} `{Scalar R} `{Sampler R G}
    (text_x video_x audio_x speaker_x context_x : Tensor.t R)
    (self : WeightedMultiModalFusionNetwork.t R) (g : G)
    (s' : WeightedMultiModalFusionNetwork.t R * G) (y : Tensor.t R) :
  network_in_mode true self →
  WeightedMultiModalFusionNetwork.forward text_x video_x audio_x speaker_x context_x
    (self, g) = (s', inr y) →
  counted (WeightedMultiModalFusionNetwork.video_subnet self)
          (WeightedMultiModalFusionNetwork.video_subnet s'.1) ∧
  counted (WeightedMultiModalFusionNetwork.audio_subnet self)
          (WeightedMultiModalFusionNetwork.audio_subnet s'.1) ∧
  counted (WeightedMultiModalFusionNetwork.text_subnet self)
          (WeightedMultiModalFusionNetwork.text_subnet s'.1) ∧
  counted (WeightedMultiModalFusionNetwork.speaker_subnet self)
          (WeightedMultiModalFusionNetwork.speaker_subnet s'.1) ∧
  counted (WeightedMultiModalFusionNetwork.context_subnet self)
          (WeightedMultiModalFusionNetwork.context_subnet s'.1).
Proof. apply Network_forward_counts. Qed.

Lemma forward_training_counts_batches_witness :
  ∃ s' y,
    WeightedMultiModalFusionNetwork.forward
      (Demo.text_x 2) (Demo.video_x 2) (Demo.audio_x 2)
      (Demo.speaker_x 2) (Demo.context_x 2) (Demo.network, Demo.draws) = (s', inr y) ∧
    counted (WeightedMultiModalFusionNetwork.video_subnet Demo.network)
            (WeightedMultiModalFusionNetwork.video_subnet s'.1) ∧
    counted (WeightedMultiModalFusionNetwork.audio_subnet Demo.network)
            (WeightedMultiModalFusionNetwork.audio_subnet s'.1) ∧
    counted (WeightedMultiModalFusionNetwork.text_subnet Demo.network)
            (WeightedMultiModalFusionNetwork.text_subnet s'.1) ∧
    counted (WeightedMultiModalFusionNetwork.speaker_subnet Demo.network)
            (WeightedMultiModalFusionNetwork.speaker_subnet s'.1) ∧
    counted (WeightedMultiModalFusionNetwork.context_subnet Demo.network)
            (WeightedMultiModalFusionNetwork.context_subnet s'.1).
Proof.
  eexists _, _. split; [vm_compute; reflexivity|].
  eapply (forward_training_counts_batches
            (Demo.text_x 2) (Demo.video_x 2) (Demo.audio_x 2)
            (Demo.speaker_x 2) (Demo.context_x 2) Demo.network Demo.draws).
  - apply Network_init_wf.
  - vm_compute. reflexivity.
Defined.

(** Property X13.  In training mode a video input of a single row makes
    the network's [forward] raise [ValueError], whatever the other
    inputs and whatever the widths; the batch of the video SubNet has
    been counted by then, and nothing else is written. *)
Theorem forward_training_single_row_raises {R G : Type} `{Scalar R} `{Sampler R G}
    (text_x video_x audio_x speaker_x context_x : Tensor.t R)
    (self : WeightedMultiModalFusionNetwork.t R) (g : G) :
  network_in_mode true self → Tensor.batch video_x = 1 →
  WeightedMultiModalFusionNetwork.forward text_x video_x audio_x speaker_x context_x
    (self, g) =
    ((WeightedMultiModalFusionNetwork.set_video_subnet
        (SubNet.set_norm
           (BatchNorm1d.count_batch
              (SubNet.norm (WeightedMultiModalFusionNetwork.video_subnet self)))
           (WeightedMultiModalFusionNetwork.video_subnet self)) self, g),
     inl ValueError).
Proof. intros ([Hv _] & _) Hb. by apply Network_forward_single_row. Qed.

Lemma forward_training_single_row_raises_witness :
  WeightedMultiModalFusionNetwork.forward
    (Demo.text_x 3) (Demo.video_x 1) (Demo.audio_x 2)
    (Demo.speaker_x 2) (Demo.context_x 2) (Demo.network, Demo.draws) =
    ((WeightedMultiModalFusionNetwork.set_video_subnet
        (SubNet.set_norm
           (BatchNorm1d.count_batch
              (SubNet.norm (WeightedMultiModalFusionNetwork.video_subnet Demo.network)))
           (WeightedMultiModalFusionNetwork.video_subnet Demo.network)) Demo.network,
      Demo.draws),
     inl ValueError).
Proof.
  apply (forward_training_single_row_raises
           (Demo.text_x 3) (Demo.video_x 1) (Demo.audio_x 2)
           (Demo.speaker_x 2) (Demo.context_x 2) Demo.network Demo.draws).
  - apply Network_init_wf.
  - reflexivity.
Defined.

(** Property X14.  In float32, the element type torch uses unless told
    otherwise, no entry of a tensor [SubNet.forward] returns is below
    zero: each is zero, positive or NaN. *)
Theorem SubNet_forward_float32_not_below_zero {G : Type} `{Sampler spec_float G}
    (x : Tensor.t spec_float) (s s' : SubNet.t spec_float * G) (y : Tensor.t spec_float) :
  SubNet.forward x s = (s', inr y) → Tensor.entries float32_relu_value y.
Proof.
  intros Hrun. apply SubNet_forward_relu in Hrun as [h ->].
  apply relu_entries, float32_relu_not_below_zero.
Qed.

Lemma SubNet_forward_float32_not_below_zero_witness :
  ∃ s' y,
    SubNet.forward Demo32.x (Demo32.subnet, Demo.draws) = (s', inr y) ∧
    Tensor.entries float32_relu_value y.
Proof.
  eexists _, _. split; [vm_compute; reflexivity|].
  eapply (SubNet_forward_float32_not_below_zero Demo32.x (Demo32.subnet, Demo.draws)).
  vm_compute. reflexivity.
Defined.

(** Property X15.  The same in float64. *)
Theorem SubNet_forward_float_not_below_zero {G : Type} `{Sampler float G}
    (x : Tensor.t float) (s s' : SubNet.t float * G) (y : Tensor.t float) :
  SubNet.forward x s = (s', inr y) → Tensor.entries float_relu_value y.
Proof.
  intros Hrun. apply SubNet_forward_relu in Hrun as [h ->].
  apply relu_entries, float_relu_not_below_zero.
Qed.

Lemma SubNet_forward_float_not_below_zero_witness :
  ∃ s' y,
    SubNet.forward (Demo.ramp 2 2 (-1)%float) (Demo.subnet, Demo.draws) = (s', inr y) ∧
    Tensor.entries float_relu_value y.
Proof.
  eexists _, _. split; [vm_compute; reflexivity|].
  eapply (SubNet_forward_float_not_below_zero
            (Demo.ramp 2 2 (-1)%float) (Demo.subnet, Demo.draws)).
  vm_compute. reflexivity.
Defined.

(** Property X18.  The layers [__init__] builds fit [forward]: on a
    network as constructed (it is in training mode) and inputs of the
    configured widths, of at least one column each and with the same
    number of rows, [forward] raises
    [ValueError] when that number is one and returns a tensor of shape
    (batch, 2) when it is larger; after [eval()] it returns a tensor of
    that shape for a single row too, and writes nothing. *)
Theorem fresh_network_forward {R G : Type} `{Scalar R} `{Sampler R G}
    (cfg : config.t R) (speaker_num : nat) (w b0 : R) (batch : nat) (g : G)
    (text_x video_x audio_x speaker_x context_x : Tensor.t R) :
  input_widths_positive cfg speaker_num → 1 ≤ batch →
  shaped batch (config.TEXT_DIM cfg) text_x → shaped batch (config.VIDEO_DIM cfg) video_x →
  shaped batch (config.AUDIO_DIM cfg) audio_x → shaped batch speaker_num speaker_x →
  shaped batch (config.TEXT_DIM cfg) context_x →
  let fresh := WeightedMultiModalFusionNetwork.__init__ cfg speaker_num w b0 in
  (if decide (batch = 1)
   then (WeightedMultiModalFusionNetwork.forward
           text_x video_x audio_x speaker_x context_x (fresh, g)).2 = inl ValueError
   else ∃ s' y,
          WeightedMultiModalFusionNetwork.forward
            text_x video_x audio_x speaker_x context_x (fresh, g) = (s', inr y) ∧
          Tensor.shape y = (batch, 2)) ∧
  ∃ y, WeightedMultiModalFusionNetwork.forward
         text_x video_x audio_x speaker_x context_x
         (WeightedMultiModalFusionNetwork.eval fresh, g)
         = ((WeightedMultiModalFusionNetwork.eval fresh, g), inr y) ∧
       Tensor.shape y = (batch, 2).
Proof.
  intros Hpos Hb Htext Hvideo Haudio Hspeaker Hcontext fresh.
  destruct (Network_init_wf cfg speaker_num w b0) as [Hwf Hmode]. fold fresh in Hwf, Hmode.
  split.
  - case_decide as Hone.
    + rewrite (Network_forward_single_row text_x video_x audio_x speaker_x context_x
                 fresh g); [done|done|].
      rewrite <-Hone. by eapply shaped_batch.
    + destruct (Network_forward_shaped cfg speaker_num true batch fresh g
                  text_x video_x audio_x speaker_x context_x Hwf Hmode Hpos (λ _, Hone)
                  Htext Hvideo Haudio Hspeaker Hcontext)
        as (s' & y & Hrun & _ & _ & _ & Hy).
      by exists s', y.
  - destruct (Network_train_wf cfg speaker_num false fresh Hwf) as [Hwf' Hmode'].
    destruct (quiet_network _ g text_x video_x audio_x speaker_x context_x Hmode')
      as [r Hquiet].
    assert (accepted_batch false batch) as Hacc by done.
    destruct (Network_forward_shaped cfg speaker_num false batch _ g
                text_x video_x audio_x speaker_x context_x Hwf' Hmode' Hpos Hacc
                Htext Hvideo Haudio Hspeaker Hcontext)
      as (s' & y & Hrun & _ & _ & _ & Hy).
    exists y. split; [|done].
    unfold WeightedMultiModalFusionNetwork.eval in *.
    rewrite Hquiet in Hrun. injection Hrun as _ ->. apply Hquiet.
Qed.

Lemma fresh_network_forward_witness :
  (∃ s' y,
     WeightedMultiModalFusionNetwork.forward
       (Demo.text_x 2) (Demo.video_x 2) (Demo.audio_x 2)
       (Demo.speaker_x 2) (Demo.context_x 2) (Demo.network, Demo.draws) = (s', inr y) ∧
     Tensor.shape y = (2, 2)) ∧
  ∃ y, WeightedMultiModalFusionNetwork.forward
         (Demo.text_x 2) (Demo.video_x 2) (Demo.audio_x 2)
         (Demo.speaker_x 2) (Demo.context_x 2)
         (WeightedMultiModalFusionNetwork.eval Demo.network, Demo.draws)
         = ((WeightedMultiModalFusionNetwork.eval Demo.network, Demo.draws), inr y) ∧
       Tensor.shape y = (2, 2).
Proof.
  refine (fresh_network_forward Demo.cfg 2 0.25%float 0.125%float 2 Demo.draws
            (Demo.text_x 2) (Demo.video_x 2) (Demo.audio_x 2)
            (Demo.speaker_x 2) (Demo.context_x 2) _ _ _ _ _ _ _).
  - unfold input_widths_positive. simpl. lia.
  - lia.
  - split; [repeat constructor|reflexivity].
  - split; [repeat constructor|reflexivity].
  - split; [repeat constructor|reflexivity].
  - split; [repeat constructor|reflexivity].
  - split; [repeat constructor|reflexivity].
Defined.

(** Property X19.  The layers [SubNet.__init__] builds fit
    [SubNet.forward]: on a SubNet as constructed (it is in training
    mode), of at least one input feature, and an input of shape
    (batch, in_size), [forward] raises [ValueError] when batch is one,
    the batch counted, and returns a tensor of shape
    (batch, hidden_size) when it is larger; after [eval()] it returns a
    tensor of that shape for a single row too, and writes nothing. *)
Theorem fresh_SubNet_forward {R G : Type} `{Scalar R} `{Sampler R G}
    (in_size hidden_size : nat) (dropout w b0 : R) (batch : nat) (g : G)
    (x : Tensor.t R) :
  0 < in_size → 1 ≤ batch → shaped batch in_size x →
  let fresh := SubNet.__init__ in_size hidden_size dropout w b0 in
  (if decide (batch = 1)
   then SubNet.forward x (fresh, g) =
          ((SubNet.set_norm (BatchNorm1d.count_batch (SubNet.norm fresh)) fresh, g),
           inl ValueError)
   else ∃ s' y, SubNet.forward x (fresh, g) = (s', inr y) ∧
                Tensor.shape y = (batch, hidden_size)) ∧
  ∃ y, SubNet.forward x (SubNet.train false fresh, g) =
         ((SubNet.train false fresh, g), inr y) ∧
       Tensor.shape y = (batch, hidden_size).
Proof.
  intros Hpos Hb Hx fresh.
  pose proof (SubNet_init_wf (R:=R) in_size hidden_size dropout w b0) as Hwf.
  fold fresh in Hwf. split.
  - case_decide as Hone.
    + apply SubNet_forward_single_row; [done|]. rewrite <-Hone. by eapply shaped_batch.
    + destruct (SubNet_forward_shaped in_size hidden_size dropout true batch fresh g x
                  Hwf ltac:(by split) Hpos (λ _, Hone) Hx)
        as (s' & y & Hrun & _ & _ & _ & Hy).
      by exists s', y.
  - destruct (SubNet_train_wf in_size hidden_size dropout false fresh Hwf)
      as [Hwf' Hmode'].
    destruct (quiet_subnet x _ g Hmode') as [r Hquiet].
    assert (accepted_batch false batch) as Hacc by done.
    destruct (SubNet_forward_shaped in_size hidden_size dropout false batch _ g x
                Hwf' Hmode' Hpos Hacc Hx)
      as (s' & y & Hrun & _ & _ & _ & Hy).
    exists y. split; [|done].
    rewrite Hquiet in Hrun. injection Hrun as _ ->. apply Hquiet.
Qed.

Lemma fresh_SubNet_forward_witness :
  (∃ s' y, SubNet.forward (Demo.ramp 2 2 1%float) (Demo.subnet, Demo.draws) = (s', inr y) ∧
           Tensor.shape y = (2, 3)) ∧
  ∃ y, SubNet.forward (Demo.ramp 2 2 1%float)
         (SubNet.train false Demo.subnet, Demo.draws) =
         ((SubNet.train false Demo.subnet, Demo.draws), inr y) ∧
       Tensor.shape y = (2, 3).
Proof.
  refine (fresh_SubNet_forward 2 3 0.5%float 0.25%float 0.125%float 2 Demo.draws
            (Demo.ramp 2 2 1%float) _ _ _).
  - lia.
  - lia.
  - split; [repeat constructor|reflexivity].
Defined.

(** Property X20.  In training mode [SubNet.forward] reads the running
    statistics and the batch counter of its normalization only to
    update them: on two SubNets that differ at most in these, the same
    input and the same generator give the same outcome and the same
    generator, and leave SubNets that again differ at most in these. *)
Theorem SubNet_forward_training_ignores_running_statistics
    {R G : Type} `{Scalar R} `{Sampler R G}
    (x : Tensor.t R) (a b : SubNet.t R) (g : G) :
  BatchNorm1d.training (SubNet.norm a) = true → same_subnet a b →
  (SubNet.forward x (a, g)).2 = (SubNet.forward x (b, g)).2 ∧
  (SubNet.forward x (a, g)).1.2 = (SubNet.forward x (b, g)).1.2 ∧
  same_subnet (SubNet.forward x (a, g)).1.1 (SubNet.forward x (b, g)).1.1.
Proof.
  intros Ht Hsame.
  destruct (SubNet_forward_related x (a, g) (b, g)) as [(Hs & _ & Hg) Hr]; [by split|].
  done.
Qed.

Lemma SubNet_forward_training_ignores_running_statistics_witness :
  (SubNet.forward (Demo.ramp 2 2 1%float) (Demo.subnet, Demo.draws)).2 =
    (SubNet.forward (Demo.ramp 2 2 1%float) (Demo2.subnet, Demo.draws)).2 ∧
  (SubNet.forward (Demo.ramp 2 2 1%float) (Demo.subnet, Demo.draws)).1.2 =
    (SubNet.forward (Demo.ramp 2 2 1%float) (Demo2.subnet, Demo.draws)).1.2 ∧
  same_subnet (SubNet.forward (Demo.ramp 2 2 1%float) (Demo.subnet, Demo.draws)).1.1
              (SubNet.forward (Demo.ramp 2 2 1%float) (Demo2.subnet, Demo.draws)).1.1.
Proof.
  apply (SubNet_forward_training_ignores_running_statistics
           (Demo.ramp 2 2 1%float) Demo.subnet Demo2.subnet Demo.draws).
  - reflexivity.
  - by repeat split.
Defined.

(** Property X21.  The same for the network: in training mode, two
    networks that differ at most in the running statistics and batch
    counters of their SubNets give, on the same inputs and the same
    generator, the same outcome and the same generator, and are left
    differing at most in these. *)
Theorem forward_training_ignores_running_statistics
    {R G : Type} `{Scalar R} `{Sampler R G}
    (text_x video_x audio_x speaker_x context_x : Tensor.t R)
    (a b : WeightedMultiModalFusionNetwork.t R) (g : G) :
  network_in_mode true a → same_network a b →
  let run self :=
    WeightedMultiModalFusionNetwork.forward text_x video_x audio_x speaker_x context_x
      (self, g) in
  (run a).2 = (run b).2 ∧ (run a).1.2 = (run b).1.2 ∧
  same_network (run a).1.1 (run b).1.1.
Proof.
  intros ([Hv _] & [Ha _] & [Ht _] & [Hc _] & [Hs _] & _) Hsame run.
  destruct (Network_forward_related text_x video_x audio_x speaker_x context_x
              (a, g) (b, g)) as [(Hs' & _ & Hg) Hr]; [by split|].
  done.
Qed.

Lemma forward_training_ignores_running_statistics_witness :
  let run self :=
    WeightedMultiModalFusionNetwork.forward
      (Demo.text_x 2) (Demo.video_x 2) (Demo.audio_x 2)
      (Demo.speaker_x 2) (Demo.context_x 2) (self, Demo.draws) in
  (run Demo.network).2 = (run Demo2.network).2 ∧
  (run Demo.network).1.2 = (run Demo2.network).1.2 ∧
  same_network (run Demo.network).1.1 (run Demo2.network).1.1.
Proof.
  apply (forward_training_ignores_running_statistics
           (Demo.text_x 2) (Demo.video_x 2) (Demo.audio_x 2)
           (Demo.speaker_x 2) (Demo.context_x 2) Demo.network Demo2.network Demo.draws).
  - apply Network_init_wf.
  - by repeat split.
Defined.
